(** * Ominis: verification of the protocol and consensus layer

    A shallow embedding of the parts of the Ominis repository that decide
    the specification's claims:

    - [Verifier]: [verifier/api/services/sympy_solver.py],
      [verifier/api/services/gpt_solver.py],
      [verifier/api/routes/verify.py], [verifier/api/routes/challenge.py];
    - [Indexer]: [indexer/models.py], [indexer/event_listener.py];
    - [Bot]: [sdk/ominis_sdk.py], [sdk/bot_server.py].

    Around them, further parts of the same files and of their callers:
    [Untyped] (the verifier service on replies of any type), [Queries]
    and [Main] ([indexer/models.py], [indexer/api/orders.py],
    [indexer/main.py]), [Sdk], [BotServer], [AutoSolver] and [Webhook]
    ([sdk/ominis_sdk.py], [sdk/bot_server.py]) and [Oracle]
    ([sdk/oracle_service.py]).

    Conventions.  Python exceptions are values of [result]; code that
    mutates an object or talks to the outside world is a state transformer
    on an explicit state.  External capabilities (SymPy, the OpenAI API,
    the JSON-RPC node, PostgreSQL's clock) are oracles taken as arguments.
    Python [float] confidences are modelled by exact rationals [Q]: every
    confidence that reaches the merge policies is a decimal literal of the
    source or a value clamped into [0,1] by [GPTSolver.verify], and the
    policies only compare, add, multiply and divide them by literals. *)

From Stdlib Require Import ZArith QArith Qminmax Lqa Lia List String Ascii Bool.
From stdpp Require Import base option gmap strings pretty.
Import ListNotations.

Local Open Scope string_scope.

(** ** Exceptions *)

(** A Python computation either returns a value or raises; the payload of
    [Raise] is [str(e)]. *)
Inductive result (A : Type) : Type :=
| Ok (a : A)
| Raise (e : string).
Arguments Ok {A} a.
Arguments Raise {A} e.

Definition bind_result {A B : Type} (r : result A) (k : A -> result B) : result B :=
  match r with
  | Ok a => k a
  | Raise e => Raise e
  end.

Declare Scope result_scope.
Delimit Scope result_scope with result.
Notation "'let?' x ':=' r 'in' k" :=
  (bind_result r (fun x => k))
  (at level 10, x name, r at level 100, k at level 200) : result_scope.

(** ** Stateful code

    A Python procedure that updates an object [S] and may raise: it
    returns the outcome together with the object as it stands then, so
    that what was done before an exception stays done. *)
Definition M (S A : Type) : Type := S -> result A * S.

Definition ret {S A : Type} (a : A) : M S A := fun s => (Ok a, s).

Definition raise {S A : Type} (e : string) : M S A := fun s => (Raise e, s).

Definition bind {S A B : Type} (m : M S A) (k : A -> M S B) : M S B :=
  fun s =>
    match m s with
    | (Ok a, s') => k a s'
    | (Raise e, s') => (Raise e, s')
    end.

Declare Scope m_scope.
Delimit Scope m_scope with M.
Notation "'do' x '<-' m ';' k" :=
  (bind m (fun x => k))
  (at level 10, x name, m at level 100, k at level 200) : m_scope.
Notation "m ';;' k" :=
  (bind m (fun _ => k)) (at level 100, k at level 200, right associativity) : m_scope.

(** [try: body except Exception as e: handler(e)] *)
Definition try_except {S A : Type} (body : M S A) (handler : string -> M S A) : M S A :=
  fun s =>
    match body s with
    | (Ok a, s') => (Ok a, s')
    | (Raise e, s') => handler e s'
    end.

(** A call whose outcome is given and which leaves the object alone. *)
Definition call {S A : Type} (r : result A) : M S A := fun s => (r, s).

(** [for x in xs: body(x)] *)
Fixpoint for_each {S A : Type} (xs : list A) (body : A -> M S unit) : M S unit :=
  match xs with
  | [] => ret tt
  | x :: xs' => (body x ;; for_each xs' body)%M
  end.

(** Comparison of confidences: Python's [<] on floats. *)
Definition Qlt_bool (x y : Q) : bool := negb (Qle_bool y x).

(** Python's two-argument [min(a, b)] and [max(a, b)]: the first argument
    is kept unless the second is strictly smaller (resp. larger). *)
Definition py_min (a b : Q) : Q := if Qlt_bool b a then b else a.
Definition py_max (a b : Q) : Q := if Qlt_bool a b then b else a.

(** Python's [a or b] on [Optional[str]]: [None] and the empty string are
    falsy. *)
Definition py_or (a b : option string) : option string :=
  match a with
  | Some s => if String.eqb s "" then b else a
  | None => b
  end.

(** [str(x)] of an [Optional[str]] inside an f-string. *)
Definition fstr (a : option string) : string :=
  match a with
  | Some s => s
  | None => "None"
  end.

(** ASCII part of [str.lower()]. *)
Definition lower_ascii (c : ascii) : ascii :=
  let n := nat_of_ascii c in
  if (65 <=? n)%nat && (n <=? 90)%nat then ascii_of_nat (n + 32) else c.

Fixpoint lower (s : string) : string :=
  match s with
  | EmptyString => EmptyString
  | String c s' => String (lower_ascii c) (lower s')
  end.

(** [needle in hay] on strings. *)
Fixpoint contains (needle hay : string) : bool :=
  if String.prefix needle hay then true
  else match hay with
       | EmptyString => false
       | String _ hay' => contains needle hay'
       end.

(** ** The verifier service *)

Module Verifier.

(** [class ProblemType(IntEnum)] *)
Inductive ProblemType : Type :=
| DERIVATIVE | INTEGRAL | LIMIT | DIFFERENTIAL_EQ | SERIES.

(** [@dataclass VerificationResult] *)
Record VerificationResult : Type := mkVerificationResult {
  is_correct : bool;
  confidence : Q;
  expected_solution : option string;
  reason : option string
}.

(** [@dataclass ChallengeEvaluation] *)
Record ChallengeEvaluation : Type := mkChallengeEvaluation {
  is_valid : bool;
  assessment : string
}.

(** *** [services/sympy_solver.py] *)

Module SympySolver.
Section WithSympy.

(** SymPy expressions are opaque. *)
Context {Expr : Type}.

(** The symbolic helpers of [SympySolver], as oracles.  A helper may
    still raise (for instance [sympify] with an exception other than the
    three that [_parse_expression] catches). *)
Record Sympy : Type := mkSympy {
  _parse_problem : string -> result (option Expr);
  _compute_solution : Expr -> ProblemType -> string -> result (option Expr);
  _parse_expression : string -> result (option Expr);
  _compare_expressions : Expr -> Expr -> ProblemType -> result bool;
  str : Expr -> string
}.

(** The body of the [try] block of [SympySolver.verify]. *)
Definition verify_body (self : Sympy) (problem solution : string)
    (problem_type : ProblemType) : result VerificationResult :=
  (let? expr := _parse_problem self problem in
   match expr with
   | None =>
       Ok (mkVerificationResult false 0.0 None (Some "Could not parse problem"))
   | Some expr =>
       let? expected := _compute_solution self expr problem_type problem in
       match expected with
       | None =>
           Ok (mkVerificationResult false 0.3 None
                 (Some "Could not compute expected solution"))
       | Some expected =>
           let? submitted := _parse_expression self solution in
           match submitted with
           | None =>
               Ok (mkVerificationResult false 0.5 (Some (str self expected))
                     (Some "Could not parse submitted solution"))
           | Some submitted =>
               let? is_correct :=
                 _compare_expressions self submitted expected problem_type in
               Ok (mkVerificationResult is_correct
                     (if is_correct then 0.95 else 0.9)
                     (Some (str self expected))
                     (Some (if is_correct then "Solutions match"
                            else "Solutions differ")))
           end
       end
   end)%result.

(** [SympySolver.verify]: [try: ... except Exception as e: ...]. *)
Definition verify (self : Sympy) (problem solution : string)
    (problem_type : ProblemType) : VerificationResult :=
  match verify_body self problem solution problem_type with
  | Ok r => r
  | Raise e =>
      mkVerificationResult false 0.1 None (Some ("Verification error: " ++ e))
  end.

(** The ways [verify] can fail to reach the comparison, read off the
    outcomes of the helpers in the order [verify] calls them. *)
Inductive Failure : Type :=
| ProblemNotParsed
| SolutionNotComputed
| SubmissionNotParsed
| HelperRaised (e : string).

Definition failure (self : Sympy) (problem solution : string)
    (problem_type : ProblemType) : option Failure :=
  match _parse_problem self problem with
  | Raise e => Some (HelperRaised e)
  | Ok None => Some ProblemNotParsed
  | Ok (Some expr) =>
      match _compute_solution self expr problem_type problem with
      | Raise e => Some (HelperRaised e)
      | Ok None => Some SolutionNotComputed
      | Ok (Some expected) =>
          match _parse_expression self solution with
          | Raise e => Some (HelperRaised e)
          | Ok None => Some SubmissionNotParsed
          | Ok (Some submitted) =>
              match _compare_expressions self submitted expected problem_type with
              | Raise e => Some (HelperRaised e)
              | Ok _ => None
              end
          end
      end
  end.

(** The confidence [verify] attaches to each failure. *)
Definition failure_confidence (f : Failure) : Q :=
  match f with
  | ProblemNotParsed => 0.0
  | SolutionNotComputed => 0.3
  | SubmissionNotParsed => 0.5
  | HelperRaised _ => 0.1
  end.

End WithSympy.
Arguments Sympy Expr : clear implicits.
End SympySolver.

(** *** [services/gpt_solver.py] *)

Module GPTSolver.

(** [PROBLEM_TYPE_NAMES.get(problem_type, "calculus problem")]: the table
    has an entry for each of the five problem types. *)
Definition PROBLEM_TYPE_NAMES (problem_type : ProblemType) : string :=
  match problem_type with
  | DERIVATIVE => "derivative"
  | INTEGRAL => "integral"
  | LIMIT => "limit"
  | DIFFERENTIAL_EQ => "differential equation"
  | SERIES => "series expansion"
  end.

(** The three prompt templates, by the values interpolated into them. *)
Inductive Prompt : Type :=
| VerifyPrompt (type_name problem solution : string)
| ChallengePrompt (type_name problem submitted_solution challenger_reason : string)
| SolvePrompt (type_name problem : string).

(** A JSON number as [json.loads] reads it: Python's parser also accepts
    [NaN], [Infinity] and [-Infinity]. *)
Inductive JsonNumber : Type :=
| JFinite (q : Q)
| JNaN
| JInfinity
| JNegInfinity.

(** The value under the key ["confidence"]: absent, a number, or a value
    on which [max(0.0, _)] raises [TypeError]. *)
Inductive JsonConfidence : Type :=
| ConfMissing
| ConfNumber (x : JsonNumber)
| ConfNotANumber (e : string).

(** The keys [verify] reads from the reply object ([None] = key absent),
    for a reply whose values have the types the prompt asks for.  The
    source does not check them: [Untyped.GPTSolver] takes the values as
    [json.loads] returns them, of any type. *)
Record VerifyReply : Type := mkVerifyReply {
  j_is_correct : option bool;
  j_confidence : JsonConfidence;
  j_expected_solution : option string;
  j_reason : option string
}.

(** The keys [evaluate_challenge] reads from the reply object. *)
Record ChallengeReply : Type := mkChallengeReply {
  j_challenger_is_correct : option bool;
  j_assessment : option string
}.

(** [json.loads(response)] followed by the [.get] calls: the text is not
    JSON, is a JSON object, or is JSON of another shape (no [.get]). *)
Inductive Json (A : Type) : Type :=
| JSONDecodeError (e : string)
| JsonObject (a : A)
| JsonNotObject (e : string).
Arguments JSONDecodeError {A} e.
Arguments JsonObject {A} a.
Arguments JsonNotObject {A} e.

(** A [GPTSolver] instance together with the capabilities it calls. *)
Record GPT : Type := mkGPT {
  OPENAI_AVAILABLE : bool;
  api_key : option string;
  _call_gpt : Prompt -> result string;
  loads_verify : string -> Json VerifyReply;
  loads_challenge : string -> Json ChallengeReply
}.

(** [OPENAI_AVAILABLE and self.api_key] is truthy. *)
Definition available (self : GPT) : bool :=
  OPENAI_AVAILABLE self &&
  match api_key self with
  | Some k => negb (String.eqb k "")
  | None => false
  end.

(** [min(1.0, max(0.0, x))] on what [json.loads] can produce.  Every
    comparison with [nan] is false, so [max(0.0, nan)] is [0.0]. *)
Definition clamp (x : JsonNumber) : Q :=
  match x with
  | JFinite q => py_min 1.0 (py_max 0.0 q)
  | JNaN => 0.0
  | JInfinity => 1.0
  | JNegInfinity => 0.0
  end.

(** [GPTSolver.verify] *)
Definition verify (self : GPT) (problem solution : string)
    (problem_type : ProblemType) : VerificationResult :=
  if negb (available self) then
    mkVerificationResult false 0.0 None (Some "OpenAI API not available")
  else
    let type_name := PROBLEM_TYPE_NAMES problem_type in
    match _call_gpt self (VerifyPrompt type_name problem solution) with
    | Raise e => mkVerificationResult false 0.0 None (Some ("GPT error: " ++ e))
    | Ok response =>
        match loads_verify self response with
        | JsonObject result =>
            match j_confidence result with
            | ConfNotANumber e =>
                mkVerificationResult false 0.0 None (Some ("GPT error: " ++ e))
            | ConfMissing =>
                mkVerificationResult (default false (j_is_correct result))
                  (py_min 1.0 (py_max 0.0 0.5))
                  (j_expected_solution result) (j_reason result)
            | ConfNumber x =>
                mkVerificationResult (default false (j_is_correct result))
                  (clamp x)
                  (j_expected_solution result) (j_reason result)
            end
        | JSONDecodeError _ =>
            let response_lower := lower response in
            let is_correct :=
              contains "correct" response_lower &&
              negb (contains "incorrect" response_lower) in
            mkVerificationResult is_correct 0.6 None
              (Some (String.substring 0 200 response))
        | JsonNotObject e =>
            mkVerificationResult false 0.0 None (Some ("GPT error: " ++ e))
        end
    end.

(** [GPTSolver.evaluate_challenge] *)
Definition evaluate_challenge (self : GPT)
    (problem submitted_solution challenger_reason : string)
    (problem_type : ProblemType) : ChallengeEvaluation :=
  if negb (available self) then
    mkChallengeEvaluation false "OpenAI API not available"
  else
    let type_name := PROBLEM_TYPE_NAMES problem_type in
    match _call_gpt self
            (ChallengePrompt type_name problem submitted_solution challenger_reason) with
    | Raise e => mkChallengeEvaluation false ("Could not evaluate: " ++ e)
    | Ok response =>
        match loads_challenge self response with
        | JsonObject result =>
            mkChallengeEvaluation (default false (j_challenger_is_correct result))
              (default "" (j_assessment result))
        | JSONDecodeError e | JsonNotObject e =>
            mkChallengeEvaluation false ("Could not evaluate: " ++ e)
        end
    end.

(** The ways [verify] can fail to read a judgment from the model. *)
Inductive Failure : Type :=
| ApiNotAvailable
| ApiRaised (e : string)
| ReplyNotJson
| ReplyMalformed (e : string).

Definition failure (self : GPT) (problem solution : string)
    (problem_type : ProblemType) : option Failure :=
  if negb (available self) then Some ApiNotAvailable
  else
    match _call_gpt self
            (VerifyPrompt (PROBLEM_TYPE_NAMES problem_type) problem solution) with
    | Raise e => Some (ApiRaised e)
    | Ok response =>
        match loads_verify self response with
        | JSONDecodeError _ => Some ReplyNotJson
        | JsonNotObject e => Some (ReplyMalformed e)
        | JsonObject result =>
            match j_confidence result with
            | ConfNotANumber e => Some (ReplyMalformed e)
            | _ => None
            end
        end
    end.

(** The confidence [verify] attaches to each failure. *)
Definition failure_confidence (f : Failure) : Q :=
  match f with
  | ReplyNotJson => 0.6
  | _ => 0.0
  end.

End GPTSolver.

(** *** The two solver objects seen from the routes *)

(** What the routes call on [sympy_solver] and [gpt_solver].  The routes
    are written against these three methods only, so that they can be
    studied for every behaviour of the verifiers, a raising one included. *)
Record Solvers : Type := mkSolvers {
  sympy_verify : string -> string -> ProblemType -> result VerificationResult;
  gpt_verify : string -> string -> ProblemType -> result VerificationResult;
  gpt_evaluate_challenge :
    string -> string -> string -> ProblemType -> result ChallengeEvaluation
}.

(** [SympySolver()] and [GPTSolver()], the objects the service creates. *)
Definition production {Expr : Type} (sympy : SympySolver.Sympy Expr)
    (gpt : GPTSolver.GPT) : Solvers :=
  {| sympy_verify := fun problem solution problem_type =>
       Ok (SympySolver.verify sympy problem solution problem_type);
     gpt_verify := fun problem solution problem_type =>
       Ok (GPTSolver.verify gpt problem solution problem_type);
     gpt_evaluate_challenge :=
       fun problem submitted_solution challenger_reason problem_type =>
       Ok (GPTSolver.evaluate_challenge gpt problem submitted_solution
             challenger_reason problem_type) |}.

(** A method call made by a route, recorded in call order. *)
Inductive Call : Type :=
| SympyVerify
| GptVerify
| GptEvaluateChallenge.

(** A route handler: it may raise, and it extends the record of calls. *)
Definition Route (A : Type) : Type := M (list Call) A.

(** [await solver.method(...)]. *)
Definition await {A : Type} (c : Call) (r : result A) : Route A :=
  fun calls => (r, (calls ++ [c])%list).

(** The answer of an endpoint: the response model, or the
    [HTTPException(status_code=500, detail=...)] of its [except] clause. *)
Inductive http (A : Type) : Type :=
| Http200 (body : A)
| Http500 (detail : string).
Arguments Http200 {A} body.
Arguments Http500 {A} detail.

(** *** [routes/verify.py] *)

Record VerifyRequest : Type := mkVerifyRequest {
  order_id : Z;
  problem : string;
  solution : string;
  problem_type : ProblemType
}.

Record VerifyResponse : Type := mkVerifyResponse {
  v_order_id : Z;
  v_is_correct : bool;
  v_confidence : Q;
  method : string;
  v_expected_solution : option string;
  v_reason : option string
}.

(** The [try] block of [verify_solution]. *)
Definition verify_solution_body (solvers : Solvers) (request : VerifyRequest)
    : Route VerifyResponse :=
  (do sympy_result <-
     await SympyVerify
       (sympy_verify solvers (problem request) (solution request)
          (problem_type request));
   if Qle_bool 0.9 (confidence sympy_result) then
     ret (mkVerifyResponse (order_id request) (is_correct sympy_result)
            (confidence sympy_result) "sympy"
            (expected_solution sympy_result) (reason sympy_result))
   else
     do gpt_result <-
       await GptVerify
         (gpt_verify solvers (problem request) (solution request)
            (problem_type request));
     if Qlt_bool 0 (confidence sympy_result) && Qlt_bool 0 (confidence gpt_result)
     then
       if Bool.eqb (is_correct sympy_result) (is_correct gpt_result) then
         let combined_confidence :=
           py_min 1.0 ((confidence sympy_result + confidence gpt_result) / 1.5) in
         ret (mkVerifyResponse (order_id request) (is_correct sympy_result)
                combined_confidence "sympy+gpt"
                (py_or (expected_solution sympy_result)
                   (expected_solution gpt_result))
                (Some ("Both methods agree: " ++ fstr (reason gpt_result))))
       else if Qlt_bool (confidence gpt_result) (confidence sympy_result) then
         ret (mkVerifyResponse (order_id request) (is_correct sympy_result)
                (confidence sympy_result * 0.8) "sympy (disputed)"
                (expected_solution sympy_result)
                (Some "SymPy result, but GPT disagrees"))
       else
         ret (mkVerifyResponse (order_id request) (is_correct gpt_result)
                (confidence gpt_result * 0.8) "gpt (disputed)"
                (expected_solution gpt_result)
                (Some "GPT result, but SymPy disagrees"))
     else
       ret (mkVerifyResponse (order_id request) (is_correct gpt_result)
              (confidence gpt_result) "gpt"
              (expected_solution gpt_result) (reason gpt_result)))%M.

(** [verify_solution]: [try: ... except Exception as e: raise HTTPException]. *)
Definition verify_solution (solvers : Solvers) (request : VerifyRequest)
    (calls : list Call) : http VerifyResponse * list Call :=
  match verify_solution_body solvers request calls with
  | (Ok response, calls') => (Http200 response, calls')
  | (Raise e, calls') => (Http500 ("Verification failed: " ++ e), calls')
  end.

(** *** [routes/challenge.py] *)

Record ChallengeRequest : Type := mkChallengeRequest {
  c_order_id : Z;
  c_problem : string;
  submitted_solution : string;
  c_problem_type : ProblemType;
  challenger_reason : string
}.

(** One element of [analysis_parts]; the response joins their texts with
    [" | "].  [Says who verdict confidence] is the f-string
    ["{who} says: {correct|incorrect} (confidence: {confidence:.2f})"]. *)
Inductive AnalysisPart : Type :=
| Says (who : string) (correct : bool) (confidence : Q)
| ChallengerArgument (assessment : string)
| Note (text : string).

Record ChallengeResponse : Type := mkChallengeResponse {
  r_order_id : Z;
  challenger_wins : bool;
  r_confidence : Q;
  correct_solution : option string;
  analysis : list AnalysisPart
}.

(** The [if]/[elif] chain "Determine outcome" of [process_challenge]:
    [(solution_is_incorrect, confidence, parts appended to analysis_parts)]. *)
Definition determine_outcome (sympy_result gpt_result : VerificationResult)
    (challenger_evaluation : ChallengeEvaluation)
    : bool * Q * list AnalysisPart :=
  if negb (is_correct sympy_result) && Qlt_bool 0.8 (confidence sympy_result) &&
     negb (is_correct gpt_result) && Qlt_bool 0.8 (confidence gpt_result)
  then (true, 0.95%Q, [])
  else if is_correct sympy_result && Qlt_bool 0.8 (confidence sympy_result) &&
          is_correct gpt_result && Qlt_bool 0.8 (confidence gpt_result)
  then (false, 0.95%Q, [])
  else if Qlt_bool 0.9 (confidence sympy_result)
  then (negb (is_correct sympy_result), (confidence sympy_result * 0.9)%Q, [])
  else if Qlt_bool 0.9 (confidence gpt_result)
  then (negb (is_correct gpt_result), (confidence gpt_result * 0.85)%Q, [])
  else if is_valid challenger_evaluation
  then (true, 0.7%Q, [Note "Challenger's mathematical argument appears valid"])
  else (false, 0.6%Q, [Note "Insufficient evidence to overturn solution"]).

(** The [try] block of [process_challenge]. *)
Definition process_challenge_body (solvers : Solvers) (request : ChallengeRequest)
    : Route ChallengeResponse :=
  (do sympy_result <-
     await SympyVerify
       (sympy_verify solvers (c_problem request) (submitted_solution request)
          (c_problem_type request));
   do gpt_result <-
     await GptVerify
       (gpt_verify solvers (c_problem request) (submitted_solution request)
          (c_problem_type request));
   do challenger_evaluation <-
     await GptEvaluateChallenge
       (gpt_evaluate_challenge solvers (c_problem request)
          (submitted_solution request) (challenger_reason request)
          (c_problem_type request));
   let analysis_parts :=
     ((if Qlt_bool 0.5 (confidence sympy_result)
       then [Says "SymPy" (is_correct sympy_result) (confidence sympy_result)]
       else []) ++
      (if Qlt_bool 0.5 (confidence gpt_result)
       then [Says "GPT-4" (is_correct gpt_result) (confidence gpt_result)]
       else []) ++
      [ChallengerArgument (assessment challenger_evaluation)])%list in
   let '(solution_is_incorrect, confidence, extra) :=
     determine_outcome sympy_result gpt_result challenger_evaluation in
   let correct_solution :=
     py_or (expected_solution sympy_result) (expected_solution gpt_result) in
   ret (mkChallengeResponse (c_order_id request) solution_is_incorrect
          confidence correct_solution (analysis_parts ++ extra)%list))%M.

(** [process_challenge] *)
Definition process_challenge (solvers : Solvers) (request : ChallengeRequest)
    (calls : list Call) : http ChallengeResponse * list Call :=
  match process_challenge_body solvers request calls with
  | (Ok response, calls') => (Http200 response, calls')
  | (Raise e, calls') => (Http500 ("Challenge processing failed: " ++ e), calls')
  end.

(** *** The decision table of the specification (section 4.5)

    The table as the specification words it, to be compared with
    [determine_outcome]: five guarded rows and a default, read top to
    bottom, the first row whose condition holds giving the verdict. *)
Record Row : Type := mkRow {
  condition : VerificationResult -> VerificationResult -> ChallengeEvaluation -> bool;
  outcome : VerificationResult -> VerificationResult -> ChallengeEvaluation -> bool * Q
}.

Definition both_confident (a h : VerificationResult) : bool :=
  Qlt_bool 0.8 (confidence a) && Qlt_bool 0.8 (confidence h).

Definition spec_decision_table : list Row :=
  [ mkRow (fun a h _ => both_confident a h && negb (is_correct a) && negb (is_correct h))
          (fun _ _ _ => (true, 0.95%Q));
    mkRow (fun a h _ => both_confident a h && is_correct a && is_correct h)
          (fun _ _ _ => (false, 0.95%Q));
    mkRow (fun a _ _ => Qlt_bool 0.9 (confidence a))
          (fun a _ _ => (negb (is_correct a), (confidence a * 0.9)%Q));
    mkRow (fun _ h _ => Qlt_bool 0.9 (confidence h))
          (fun _ h _ => (negb (is_correct h), (confidence h * 0.85)%Q));
    mkRow (fun _ _ e => is_valid e)
          (fun _ _ _ => (true, 0.70%Q)) ].

Definition spec_default_row : bool * Q := (false, 0.60%Q).

Fixpoint first_match (table : list Row) (a h : VerificationResult)
    (e : ChallengeEvaluation) : bool * Q :=
  match table with
  | [] => spec_default_row
  | row :: table' =>
      if condition row a h e then outcome row a h e
      else first_match table' a h e
  end.

End Verifier.

(** ** The service with replies of any type

    [json.loads] gives the fields of the model's reply whatever type they
    have, [GPTSolver] stores them in its dataclasses without a check, and
    the routes work on them as Python does: by truth value, by [==], in
    f-strings, and at last through the validation of the response model,
    which may refuse them.  [Verifier.GPTSolver] above is this code on
    replies whose fields have the declared types; here it is on all
    replies. *)

Module Untyped.
Import Verifier.

Local Open Scope Q_scope.

(** *** Python values read from JSON *)

#[warnings="-register-all"] Inductive Value : Type :=
| JNull
| JBool (b : bool)
| JInt (n : Z)
| JFloat (x : GPTSolver.JsonNumber)
| JString (s : string)
| JArray (items : list Value)
| JObject (members : list (string * Value)).

(** [type(v).__name__] *)
Definition type_name (v : Value) : string :=
  match v with
  | JNull => "NoneType"
  | JBool _ => "bool"
  | JInt _ => "int"
  | JFloat _ => "float"
  | JString _ => "str"
  | JArray _ => "list"
  | JObject _ => "dict"
  end.

(** [bool(v)] *)
Definition truthy (v : Value) : bool :=
  match v with
  | JNull => false
  | JBool b => b
  | JInt n => negb (n =? 0)%Z
  | JFloat (GPTSolver.JFinite q) => negb (Qeq_bool q 0)
  | JFloat _ => true
  | JString s => negb (String.eqb s "")
  | JArray items => match items with [] => false | _ => true end
  | JObject members => match members with [] => false | _ => true end
  end.

(** [b == v] for a [bool] [b]: a [bool] is the number 0 or 1. *)
Definition eq_bool (b : bool) (v : Value) : bool :=
  match v with
  | JBool b' => Bool.eqb b b'
  | JInt n => (n =? (if b then 1 else 0))%Z
  | JFloat (GPTSolver.JFinite q) => Qeq_bool q (if b then 1 else 0)
  | _ => false
  end.

(** The value of a key among the items of a [dict]. *)
Fixpoint item (key : string) (members : list (string * Value)) : option Value :=
  match members with
  | [] => None
  | (k, v) :: members' => if String.eqb k key then Some v else item key members'
  end.

(** [d.get(key)]: [None] when the key is absent; a value that is no
    [dict] has no such attribute. *)
Definition get (d : Value) (key : string) : result (option Value) :=
  match d with
  | JObject members => Ok (item key members)
  | _ => Raise ("'" ++ type_name d ++ "' object has no attribute 'get'")
  end.

(** What the routes need of the Python runtime beyond the above: the
    text [str(v)] of a number with a fraction, a list or a [dict], and
    what the response models make of a value that has not the type of its
    field (pydantic converts some and refuses the others). *)
Record Python : Type := mkPython {
  repr : Value -> string;
  lax_bool : Value -> result bool;
  lax_str : Value -> result string
}.

(** [str(v)], as in an f-string. *)
Definition str (py : Python) (v : Value) : string :=
  match v with
  | JNull => "None"
  | JBool b => if b then "True" else "False"
  | JInt n => pretty n
  | JString s => s
  | _ => repr py v
  end.

(** A field annotated [bool], and one annotated [Optional[str]]. *)
Definition validate_bool (py : Python) (v : Value) : result bool :=
  match v with
  | JBool b => Ok b
  | _ => lax_bool py v
  end.

Definition validate_optional_str (py : Python) (v : Value) : result (option string) :=
  match v with
  | JNull => Ok None
  | JString s => Ok (Some s)
  | _ => (let? s := lax_str py v in Ok (Some s))%result
  end.





(** *** [services/gpt_solver.py] *)

Module GPTSolver.

(** [@dataclass VerificationResult] and [@dataclass ChallengeEvaluation]
    as [GPTSolver] fills them. *)
Record VerificationResult : Type := mkVerificationResult {
  is_correct : Value;
  confidence : Q;
  expected_solution : Value;
  reason : Value
}.

Record ChallengeEvaluation : Type := mkChallengeEvaluation {
  is_valid : Value;
  assessment : Value
}.

(** [json.loads(response)] *)
Inductive Loaded : Type :=
| JSONDecodeError (e : string)
| Document (v : Value).

(** A [GPTSolver] instance together with the capabilities it calls;
    [_call_gpt] gives [response.choices[0].message.content], which may
    be [None], or raises. *)
Record GPT : Type := mkGPT {
  OPENAI_AVAILABLE : bool;
  api_key : option string;
  _call_gpt : Verifier.GPTSolver.Prompt -> result (option string);
  loads : string -> Loaded
}.

(** [OPENAI_AVAILABLE and self.api_key] is truthy. *)
Definition available (self : GPT) : bool :=
  OPENAI_AVAILABLE self &&
  match api_key self with
  | Some k => negb (String.eqb k "")
  | None => false
  end.

(** [min(1.0, max(0.0, v))]: [max] compares [v > 0.0], which raises
    [TypeError] unless [v] is a number or a [bool]. *)
Definition clamp (v : Value) : result Q :=
  match v with
  | JFloat x => Ok (Verifier.GPTSolver.clamp x)
  | JInt n => Ok (py_min 1.0 (py_max 0.0 (inject_Z n)))
  | JBool b => Ok (if b then 1.0 else 0.0)
  | _ =>
      Raise ("'>' not supported between instances of '" ++ type_name v ++
             "' and 'float'")
  end.

(** [json.loads(None)] *)
Definition no_content : string :=
  "the JSON object must be str, bytes or bytearray, not NoneType".

(** The result of the last [except] clause of [verify]. *)
Definition gpt_error (e : string) : VerificationResult :=
  mkVerificationResult (JBool false) 0.0 JNull (JString ("GPT error: " ++ e)).

(** The construction of the result from the loaded document; the
    keyword arguments are evaluated in order. *)
Definition VerificationResult_of (d : Value) : result VerificationResult :=
  (let? is_correct := get d "is_correct" in
   let? confidence := get d "confidence" in
   let? confidence :=
     clamp (default (JFloat (Verifier.GPTSolver.JFinite 0.5)) confidence) in
   let? expected_solution := get d "expected_solution" in
   let? reason := get d "reason" in
   Ok (mkVerificationResult (default (JBool false) is_correct) confidence
         (default JNull expected_solution) (default JNull reason)))%result.

(** [GPTSolver.verify] *)
Definition verify (self : GPT) (problem solution : string)
    (problem_type : ProblemType) : VerificationResult :=
  if negb (available self) then
    mkVerificationResult (JBool false) 0.0 JNull (JString "OpenAI API not available")
  else
    let type_name := Verifier.GPTSolver.PROBLEM_TYPE_NAMES problem_type in
    match _call_gpt self (Verifier.GPTSolver.VerifyPrompt type_name problem solution) with
    | Raise e => gpt_error e
    | Ok None => gpt_error no_content
    | Ok (Some response) =>
        match loads self response with
        | Document d =>
            match VerificationResult_of d with
            | Ok r => r
            | Raise e => gpt_error e
            end
        | JSONDecodeError _ =>
            let response_lower := lower response in
            let is_correct :=
              contains "correct" response_lower &&
              negb (contains "incorrect" response_lower) in
            mkVerificationResult (JBool is_correct) 0.6 JNull
              (JString (String.substring 0 200 response))
        end
    end.

(** [GPTSolver.evaluate_challenge] *)
Definition evaluate_challenge (self : GPT)
    (problem submitted_solution challenger_reason : string)
    (problem_type : ProblemType) : ChallengeEvaluation :=
  let could_not e := mkChallengeEvaluation (JBool false)
                       (JString ("Could not evaluate: " ++ e)) in
  if negb (available self) then
    mkChallengeEvaluation (JBool false) (JString "OpenAI API not available")
  else
    let type_name := Verifier.GPTSolver.PROBLEM_TYPE_NAMES problem_type in
    match _call_gpt self
            (Verifier.GPTSolver.ChallengePrompt type_name problem submitted_solution
               challenger_reason) with
    | Raise e => could_not e
    | Ok None => could_not no_content
    | Ok (Some response) =>
        match loads self response with
        | Document d =>
            match (let? challenger_is_correct := get d "challenger_is_correct" in
                   let? assessment := get d "assessment" in
                   Ok (mkChallengeEvaluation
                         (default (JBool false) challenger_is_correct)
                         (default (JString "") assessment)))%result with
            | Ok e => e
            | Raise e => could_not e
            end
        | JSONDecodeError e => could_not e
        end
    end.

(** The ways [verify] can fail to read a judgment from the model: no
    API, a call that raises, no text, a text that is not JSON, and a
    document from which the result cannot be built (no [dict], or a
    confidence that is no number). *)
Inductive Failure : Type :=
| ApiNotAvailable
| ApiRaised (e : string)
| NoContent
| ReplyNotJson
| ReplyMalformed (e : string).

Definition failure (self : GPT) (problem solution : string)
    (problem_type : ProblemType) : option Failure :=
  if negb (available self) then Some ApiNotAvailable
  else
    match _call_gpt self
            (Verifier.GPTSolver.VerifyPrompt
               (Verifier.GPTSolver.PROBLEM_TYPE_NAMES problem_type) problem solution) with
    | Raise e => Some (ApiRaised e)
    | Ok None => Some NoContent
    | Ok (Some response) =>
        match loads self response with
        | JSONDecodeError _ => Some ReplyNotJson
        | Document d =>
            match VerificationResult_of d with
            | Ok _ => None
            | Raise e => Some (ReplyMalformed e)
            end
        end
    end.

(** The confidence [verify] attaches to each failure. *)
Definition failure_confidence (f : Failure) : Q :=
  match f with
  | ReplyNotJson => 0.6
  | _ => 0.0
  end.


(** The judgment as the conditions of the routes read it: [is_correct]
    by its truth value. *)
Definition judged (r : VerificationResult) : Verifier.VerificationResult :=
  Verifier.mkVerificationResult (truthy (is_correct r)) (confidence r) None None.

Definition evaluated (py : Python) (e : ChallengeEvaluation)
    : Verifier.ChallengeEvaluation :=
  Verifier.mkChallengeEvaluation (truthy (is_valid e)) (str py (assessment e)).

End GPTSolver.

(** *** [routes/verify.py] *)

(** [VerifyResponse(...)]: pydantic reports every refused field in one
    error; the text kept here is that of the first. *)
Definition VerifyResponse_of (py : Python) (order_id : Z) (is_correct : Value)
    (confidence : Q) (method : string) (expected_solution reason : Value)
    : result VerifyResponse :=
  (let? is_correct := validate_bool py is_correct in
   let? expected_solution := validate_optional_str py expected_solution in
   let? reason := validate_optional_str py reason in
   Ok (mkVerifyResponse order_id is_correct confidence method expected_solution
         reason))%result.

(** [a or v] for an [Optional[str]] [a]. *)
Definition or_value (a : option string) (v : Value) : Value :=
  match a with
  | Some s => if String.eqb s "" then v else JString s
  | None => v
  end.

Section Service.

Context {Expr : Type}.

(** The runtime and the two solver objects of the service. *)
Variable py : Python.
Variable sympy_solver : SympySolver.Sympy Expr.
Variable gpt_solver : GPTSolver.GPT.

(** The [try] block of [verify_solution]. *)
Definition verify_solution_body (request : VerifyRequest) : Route VerifyResponse :=
  (do sympy_result <-
     await SympyVerify
       (Ok (SympySolver.verify sympy_solver (problem request) (solution request)
              (problem_type request)));
   if Qle_bool 0.9 (confidence sympy_result) then
     ret (mkVerifyResponse (order_id request) (is_correct sympy_result)
            (confidence sympy_result) "sympy"
            (expected_solution sympy_result) (reason sympy_result))
   else
     do gpt_result <-
       await GptVerify
         (Ok (GPTSolver.verify gpt_solver (problem request) (solution request)
                (problem_type request)));
     if Qlt_bool 0 (confidence sympy_result) &&
        Qlt_bool 0 (GPTSolver.confidence gpt_result)
     then
       if eq_bool (is_correct sympy_result) (GPTSolver.is_correct gpt_result) then
         let combined_confidence :=
           py_min 1.0
             ((confidence sympy_result + GPTSolver.confidence gpt_result) / 1.5) in
         call (VerifyResponse_of py (order_id request)
                 (JBool (is_correct sympy_result)) combined_confidence "sympy+gpt"
                 (or_value (expected_solution sympy_result)
                    (GPTSolver.expected_solution gpt_result))
                 (JString ("Both methods agree: " ++
                           str py (GPTSolver.reason gpt_result))))
       else if Qlt_bool (GPTSolver.confidence gpt_result) (confidence sympy_result) then
         ret (mkVerifyResponse (order_id request) (is_correct sympy_result)
                (confidence sympy_result * 0.8) "sympy (disputed)"
                (expected_solution sympy_result)
                (Some "SymPy result, but GPT disagrees"))
       else
         call (VerifyResponse_of py (order_id request)
                 (GPTSolver.is_correct gpt_result)
                 (GPTSolver.confidence gpt_result * 0.8) "gpt (disputed)"
                 (GPTSolver.expected_solution gpt_result)
                 (JString "GPT result, but SymPy disagrees"))
     else
       call (VerifyResponse_of py (order_id request)
               (GPTSolver.is_correct gpt_result) (GPTSolver.confidence gpt_result)
               "gpt" (GPTSolver.expected_solution gpt_result)
               (GPTSolver.reason gpt_result)))%M.

(** [verify_solution]: [try: ... except Exception as e: raise HTTPException]. *)
Definition verify_solution (request : VerifyRequest) (calls : list Call)
    : http VerifyResponse * list Call :=
  match verify_solution_body request calls with
  | (Ok response, calls') => (Http200 response, calls')
  | (Raise e, calls') => (Http500 ("Verification failed: " ++ e), calls')
  end.

(** *** [routes/challenge.py] *)

(** The [try] block of [process_challenge].  The conditions read
    [is_correct] and [is_valid] by their truth values only, and the
    assessment goes into an f-string; [correct_solution] is the one
    field of the response that may carry a value of any type. *)
Definition process_challenge_body (request : ChallengeRequest)
    : Route ChallengeResponse :=
  (do sympy_result <-
     await SympyVerify
       (Ok (SympySolver.verify sympy_solver (c_problem request)
              (submitted_solution request) (c_problem_type request)));
   do gpt_result <-
     await GptVerify
       (Ok (GPTSolver.verify gpt_solver (c_problem request)
              (submitted_solution request) (c_problem_type request)));
   do challenger_evaluation <-
     await GptEvaluateChallenge
       (Ok (GPTSolver.evaluate_challenge gpt_solver (c_problem request)
              (submitted_solution request) (challenger_reason request)
              (c_problem_type request)));
   let analysis_parts :=
     ((if Qlt_bool 0.5 (confidence sympy_result)
       then [Says "SymPy" (is_correct sympy_result) (confidence sympy_result)]
       else []) ++
      (if Qlt_bool 0.5 (GPTSolver.confidence gpt_result)
       then [Says "GPT-4" (truthy (GPTSolver.is_correct gpt_result))
               (GPTSolver.confidence gpt_result)]
       else []) ++
      [ChallengerArgument (str py (GPTSolver.assessment challenger_evaluation))])%list in
   let '(solution_is_incorrect, confidence, extra) :=
     determine_outcome sympy_result (GPTSolver.judged gpt_result)
       (GPTSolver.evaluated py challenger_evaluation) in
   let correct_solution :=
     or_value (expected_solution sympy_result)
       (GPTSolver.expected_solution gpt_result) in
   do correct_solution <- call (validate_optional_str py correct_solution);
   ret (mkChallengeResponse (c_order_id request) solution_is_incorrect
          confidence correct_solution (analysis_parts ++ extra)%list))%M.

(** [process_challenge] *)
Definition process_challenge (request : ChallengeRequest) (calls : list Call)
    : http ChallengeResponse * list Call :=
  match process_challenge_body request calls with
  | (Ok response, calls') => (Http200 response, calls')
  | (Raise e, calls') => (Http500 ("Challenge processing failed: " ++ e), calls')
  end.

End Service.

End Untyped.

(** ** The indexer *)

Module Indexer.

(** *** [models.py]

    A [datetime] is the POSIX timestamp it was built from; a [bytes32] or a
    transaction hash is the hexadecimal text the code stores. *)

Module Order.
Record t : Type := mk {
  id : Z;
  issuer : string;
  problem_hash : string;
  problem_type : Z;
  time_tier : Z;
  status : Z;
  reward : string;
  created_at : Z;
  deadline : Z;
  solver : option string;
  tx_hash : option string;
  block_number : option Z
}.
End Order.

Module Solution.
Record t : Type := mk {
  order_id : Z;
  solver : string;
  commit_hash : string;
  solution : option string;
  salt : option string;
  commit_time : option Z;
  reveal_time : option Z;
  is_revealed : bool;
  tx_hash : option string
}.
End Solution.

Module Challenge.
Record t : Type := mk {
  order_id : Z;
  challenger : string;
  stake : string;
  reason : string;
  challenge_time : Z;
  resolved : bool;
  challenger_won : bool;
  tx_hash : option string
}.
End Challenge.

(** A row of table [orders]: the twelve columns of the dataclass and
    [indexed_at TIMESTAMP DEFAULT NOW()]. *)
Record OrderRow : Type := mkOrderRow {
  columns : Order.t;
  indexed_at : Z
}.

(** [class Database]: [pool] tells whether [self.pool] is set; the three
    tables are keyed by their primary keys.  The values written are taken
    to fit their columns ([BIGINT] range, [VARCHAR] lengths, text without
    NUL); what PostgreSQL does with other values is not modelled. *)
Record Database : Type := mkDatabase {
  pool : bool;
  orders : gmap Z OrderRow;
  solutions : gmap Z Solution.t;
  challenges : gmap Z Challenge.t
}.

(** A method of [Database]: a statement run against the tables. *)
Definition DB (A : Type) : Type := M Database A.

Definition with_orders (db : Database) (o : gmap Z OrderRow) : Database :=
  mkDatabase (pool db) o (solutions db) (challenges db).
Definition with_solutions (db : Database) (s : gmap Z Solution.t) : Database :=
  mkDatabase (pool db) (orders db) s (challenges db).
Definition with_challenges (db : Database) (c : gmap Z Challenge.t) : Database :=
  mkDatabase (pool db) (orders db) (solutions db) c.

(** [ON CONFLICT (id) DO UPDATE SET status = EXCLUDED.status,
    solver = EXCLUDED.solver] *)
Definition conflict_order (excluded : Order.t) (existing : OrderRow) : OrderRow :=
  let o := columns existing in
  mkOrderRow
    (Order.mk (Order.id o) (Order.issuer o) (Order.problem_hash o)
       (Order.problem_type o) (Order.time_tier o) (Order.status excluded)
       (Order.reward o) (Order.created_at o) (Order.deadline o)
       (Order.solver excluded) (Order.tx_hash o) (Order.block_number o))
    (indexed_at existing).

(** [Database.insert_order]; [now] is PostgreSQL's [NOW()]. *)
Definition insert_order (now : Z) (order : Order.t) : DB bool := fun db =>
  if negb (pool db) then (Ok false, db)
  else
    match orders db !! Order.id order with
    | None =>
        (Ok true, with_orders db (<[Order.id order := mkOrderRow order now]> (orders db)))
    | Some existing =>
        (Ok true,
         with_orders db (<[Order.id order := conflict_order order existing]> (orders db)))
    end.

(** [UPDATE orders SET status = $2 WHERE id = $1] *)
Definition set_status (status : Z) (r : OrderRow) : OrderRow :=
  let o := columns r in
  mkOrderRow
    (Order.mk (Order.id o) (Order.issuer o) (Order.problem_hash o)
       (Order.problem_type o) (Order.time_tier o) status
       (Order.reward o) (Order.created_at o) (Order.deadline o)
       (Order.solver o) (Order.tx_hash o) (Order.block_number o))
    (indexed_at r).

(** [UPDATE orders SET status = $2, solver = $3 WHERE id = $1] *)
Definition set_status_solver (status : Z) (solver : string) (r : OrderRow) : OrderRow :=
  let o := columns r in
  mkOrderRow
    (Order.mk (Order.id o) (Order.issuer o) (Order.problem_hash o)
       (Order.problem_type o) (Order.time_tier o) status
       (Order.reward o) (Order.created_at o) (Order.deadline o)
       (Some solver) (Order.tx_hash o) (Order.block_number o))
    (indexed_at r).

(** [Database.update_order_status]; [if solver:] is false for [None] and
    for the empty string. *)
Definition update_order_status (order_id : Z) (status : Z) (solver : option string)
    : DB unit := fun db =>
  if negb (pool db) then (Ok tt, db)
  else
    match solver with
    | Some s =>
        if String.eqb s "" then
          (Ok tt, with_orders db (alter (set_status status) order_id (orders db)))
        else
          (Ok tt, with_orders db (alter (set_status_solver status s) order_id (orders db)))
    | None =>
        (Ok tt, with_orders db (alter (set_status status) order_id (orders db)))
    end.

(** The row selected by [WHERE order_id = $1] has [$1] in its column
    [order_id]: the column is the key under which the table holds it. *)
Definition selected (order_id : Z) (row : Solution.t) : Solution.t :=
  Solution.mk order_id (Solution.solver row) (Solution.commit_hash row)
    (Solution.solution row) (Solution.salt row) (Solution.commit_time row)
    (Solution.reveal_time row) (Solution.is_revealed row) (Solution.tx_hash row).

(** [Database.get_solution] *)
Definition get_solution (order_id : Z) : DB (option Solution.t) := fun db =>
  if negb (pool db) then (Ok None, db)
  else (Ok (selected order_id <$> solutions db !! order_id), db).

(** [ON CONFLICT (order_id) DO UPDATE SET solution, salt, reveal_time,
    is_revealed] *)
Definition conflict_solution (excluded existing : Solution.t) : Solution.t :=
  Solution.mk (Solution.order_id existing) (Solution.solver existing)
    (Solution.commit_hash existing) (Solution.solution excluded)
    (Solution.salt excluded) (Solution.commit_time existing)
    (Solution.reveal_time excluded) (Solution.is_revealed excluded)
    (Solution.tx_hash existing).

(** [Database.insert_solution].  A new row needs its order:
    [order_id BIGINT PRIMARY KEY REFERENCES orders(id)]. *)
Definition insert_solution (solution : Solution.t) : DB bool := fun db =>
  if negb (pool db) then (Ok false, db)
  else
    match solutions db !! Solution.order_id solution with
    | Some existing =>
        (Ok true,
         with_solutions db
           (<[Solution.order_id solution := conflict_solution solution existing]>
              (solutions db)))
    | None =>
        match orders db !! Solution.order_id solution with
        | None => (Raise "ForeignKeyViolationError", db)
        | Some _ =>
            (Ok true,
             with_solutions db (<[Solution.order_id solution := solution]> (solutions db)))
        end
    end.

(** [ON CONFLICT (order_id) DO UPDATE SET resolved, challenger_won] *)
Definition conflict_challenge (excluded existing : Challenge.t) : Challenge.t :=
  Challenge.mk (Challenge.order_id existing) (Challenge.challenger existing)
    (Challenge.stake existing) (Challenge.reason existing)
    (Challenge.challenge_time existing) (Challenge.resolved excluded)
    (Challenge.challenger_won excluded) (Challenge.tx_hash existing).

(** [Database.insert_challenge] *)
Definition insert_challenge (challenge : Challenge.t) : DB bool := fun db =>
  if negb (pool db) then (Ok false, db)
  else
    match challenges db !! Challenge.order_id challenge with
    | Some existing =>
        (Ok true,
         with_challenges db
           (<[Challenge.order_id challenge := conflict_challenge challenge existing]>
              (challenges db)))
    | None =>
        match orders db !! Challenge.order_id challenge with
        | None => (Raise "ForeignKeyViolationError", db)
        | Some _ =>
            (Ok true,
             with_challenges db
               (<[Challenge.order_id challenge := challenge]> (challenges db)))
        end
    end.

(** *** [event_listener.py] *)

(** [event.args] of the seven events of [CORE_EVENTS_ABI]. *)
Inductive EventArgs : Type :=
| ProblemPostedArgs (orderId : Z) (issuer : string) (problemType timeTier reward : Z)
| OrderAcceptedArgs (orderId : Z) (solver : string)
| SolutionCommittedArgs (orderId : Z) (solver : string) (commitHash : string)
| SolutionRevealedArgs (orderId : Z) (solver : string) (solution : string)
| ChallengeSubmittedArgs (orderId : Z) (challenger : string) (stake : Z)
| ChallengeResolvedArgs (orderId : Z) (challengerWon : bool) (winner : string)
| OrderExpiredArgs (orderId : Z).

(** A decoded log entry. *)
Record Event : Type := mkEvent {
  args : EventArgs;
  blockNumber : Z;
  transactionHash : string
}.

(** [event.args.orderId]: every event of the ABI has it. *)
Definition orderId_of (a : EventArgs) : Z :=
  match a with
  | ProblemPostedArgs orderId _ _ _ _ => orderId
  | OrderAcceptedArgs orderId _ => orderId
  | SolutionCommittedArgs orderId _ _ => orderId
  | SolutionRevealedArgs orderId _ _ => orderId
  | ChallengeSubmittedArgs orderId _ _ => orderId
  | ChallengeResolvedArgs orderId _ _ => orderId
  | OrderExpiredArgs orderId => orderId
  end.

(** The dictionary handed to [on_new_event]. *)
Record Notification : Type := mkNotification {
  n_orderId : Z;
  n_txHash : string;
  n_timestamp : Z
}.

(** What the listener reaches outside itself: the JSON-RPC node
    ([w3.eth.block_number], the timestamp of [w3.eth.get_block(n)],
    [contract.events.<name>.get_logs(fromBlock, toBlock)]), the clock of
    the database server and the optional broadcast callback. *)
Record World : Type := mkWorld {
  eth_block_number : result Z;
  eth_get_block : Z -> result Z;
  get_logs : string -> Z -> Z -> result (list Event);
  NOW : Z;
  on_new_event : option (string -> Notification -> result unit)
}.

(** The calls to [logger]. *)
Inductive LogRecord : Type :=
| info_syncing (from_block current_block : Z)
| info_sync_complete (at_block : Z)
| info_indexed (event_type : string) (orderId : Z)
| error_processing_blocks (from_block to_block : Z) (e : string)
| error_handling (event_type : string) (e : string)
| error_listening (e : string).

(** [class EventListener]: the fields the code updates, the records
    written to [logger] and the notifications delivered. *)
Record EventListener : Type := mkEventListener {
  database : Database;
  start_block : Z;
  running : bool;
  last_processed_block : Z;
  log : list LogRecord;
  delivered : list (string * Notification)
}.

Definition with_database (self : EventListener) (db : Database) : EventListener :=
  mkEventListener db (start_block self) (running self)
    (last_processed_block self) (log self) (delivered self).
Definition with_last_processed_block (self : EventListener) (b : Z) : EventListener :=
  mkEventListener (database self) (start_block self) (running self) b
    (log self) (delivered self).
Definition with_log (self : EventListener) (l : list LogRecord) : EventListener :=
  mkEventListener (database self) (start_block self) (running self)
    (last_processed_block self) l (delivered self).
Definition with_delivered (self : EventListener)
    (d : list (string * Notification)) : EventListener :=
  mkEventListener (database self) (start_block self) (running self)
    (last_processed_block self) (log self) d.

(** A coroutine of the listener. *)
Definition Task (A : Type) : Type := M EventListener A.

(** [await self.database.<method>(...)], one or several in a row. *)
Definition on_database {A : Type} (statements : DB A) : Task A :=
  fun self =>
    let '(r, db) := statements (database self) in (r, with_database self db).

Definition logger (r : LogRecord) : Task unit :=
  fun self => (Ok tt, with_log self (log self ++ [r])).

(** Attribute access on [event.args]: an attribute that the event does
    not carry raises [AttributeError]. *)
Definition args_issuer (a : EventArgs) : result string :=
  match a with
  | ProblemPostedArgs _ issuer _ _ _ => Ok issuer
  | _ => Raise "AttributeError: issuer"
  end.
Definition args_problemType (a : EventArgs) : result Z :=
  match a with
  | ProblemPostedArgs _ _ problemType _ _ => Ok problemType
  | _ => Raise "AttributeError: problemType"
  end.
Definition args_timeTier (a : EventArgs) : result Z :=
  match a with
  | ProblemPostedArgs _ _ _ timeTier _ => Ok timeTier
  | _ => Raise "AttributeError: timeTier"
  end.
Definition args_reward (a : EventArgs) : result Z :=
  match a with
  | ProblemPostedArgs _ _ _ _ reward => Ok reward
  | _ => Raise "AttributeError: reward"
  end.
Definition args_solver (a : EventArgs) : result string :=
  match a with
  | OrderAcceptedArgs _ solver
  | SolutionCommittedArgs _ solver _
  | SolutionRevealedArgs _ solver _ => Ok solver
  | _ => Raise "AttributeError: solver"
  end.
Definition args_commitHash (a : EventArgs) : result string :=
  match a with
  | SolutionCommittedArgs _ _ commitHash => Ok commitHash
  | _ => Raise "AttributeError: commitHash"
  end.
Definition args_solution (a : EventArgs) : result string :=
  match a with
  | SolutionRevealedArgs _ _ solution => Ok solution
  | _ => Raise "AttributeError: solution"
  end.
Definition args_challenger (a : EventArgs) : result string :=
  match a with
  | ChallengeSubmittedArgs _ challenger _ => Ok challenger
  | _ => Raise "AttributeError: challenger"
  end.
Definition args_stake (a : EventArgs) : result Z :=
  match a with
  | ChallengeSubmittedArgs _ _ stake => Ok stake
  | _ => Raise "AttributeError: stake"
  end.

Section Listener.

Variable w : World.

Local Open Scope m_scope.

(** The handlers.  Each builds its row from the event, awaits its
    database statements and logs; the first two steps are kept apart
    under the name [<handler>_statements]. *)

Definition _handle_problem_posted_statements (event : Event) (timestamp : Z)
    (tx_hash : string) : DB unit :=
  let orderId := orderId_of (args event) in
  do issuer <- call (args_issuer (args event));
  do problemType <- call (args_problemType (args event));
  do timeTier <- call (args_timeTier (args event));
  do reward <- call (args_reward (args event));
  let order :=
    Order.mk orderId issuer "" problemType timeTier 0 (pretty reward)
      timestamp timestamp None (Some tx_hash) (Some (blockNumber event)) in
  insert_order (NOW w) order ;;
  ret tt.

(** [EventListener._handle_problem_posted] *)
Definition _handle_problem_posted (event : Event) (timestamp : Z) (tx_hash : string)
    : Task unit :=
  on_database (_handle_problem_posted_statements event timestamp tx_hash) ;;
  logger (info_indexed "ProblemPosted" (orderId_of (args event))).

Definition _handle_order_accepted_statements (event : Event) (timestamp : Z)
    (tx_hash : string) : DB unit :=
  let orderId := orderId_of (args event) in
  do solver <- call (args_solver (args event));
  update_order_status orderId 1 (Some solver).

(** [EventListener._handle_order_accepted] *)
Definition _handle_order_accepted (event : Event) (timestamp : Z) (tx_hash : string)
    : Task unit :=
  on_database (_handle_order_accepted_statements event timestamp tx_hash) ;;
  logger (info_indexed "OrderAccepted" (orderId_of (args event))).

Definition _handle_solution_committed_statements (event : Event) (timestamp : Z)
    (tx_hash : string) : DB unit :=
  let orderId := orderId_of (args event) in
  do solver <- call (args_solver (args event));
  do commitHash <- call (args_commitHash (args event));
  let solution :=
    Solution.mk orderId solver commitHash None None (Some timestamp) None
      false (Some tx_hash) in
  insert_solution solution ;;
  update_order_status orderId 2 None.

(** [EventListener._handle_solution_committed] *)
Definition _handle_solution_committed (event : Event) (timestamp : Z)
    (tx_hash : string) : Task unit :=
  on_database (_handle_solution_committed_statements event timestamp tx_hash) ;;
  logger (info_indexed "SolutionCommitted" (orderId_of (args event))).

Definition _handle_solution_revealed_statements (event : Event) (timestamp : Z)
    (tx_hash : string) : DB unit :=
  let orderId := orderId_of (args event) in
  do existing <- get_solution orderId;
  match existing with
  | Some existing =>
      do solution <- call (args_solution (args event));
      let existing :=
        Solution.mk (Solution.order_id existing) (Solution.solver existing)
          (Solution.commit_hash existing) (Some solution)
          (Solution.salt existing) (Solution.commit_time existing)
          (Some timestamp) true (Solution.tx_hash existing) in
      insert_solution existing ;; ret tt
  | None => ret tt
  end ;;
  update_order_status orderId 3 None.

(** [EventListener._handle_solution_revealed] *)
Definition _handle_solution_revealed (event : Event) (timestamp : Z)
    (tx_hash : string) : Task unit :=
  on_database (_handle_solution_revealed_statements event timestamp tx_hash) ;;
  logger (info_indexed "SolutionRevealed" (orderId_of (args event))).

Definition _handle_challenge_submitted_statements (event : Event) (timestamp : Z)
    (tx_hash : string) : DB unit :=
  let orderId := orderId_of (args event) in
  do challenger <- call (args_challenger (args event));
  do stake <- call (args_stake (args event));
  let challenge :=
    Challenge.mk orderId challenger (pretty stake) "" timestamp false false
      (Some tx_hash) in
  insert_challenge challenge ;;
  update_order_status orderId 5 None.

(** [EventListener._handle_challenge_submitted] *)
Definition _handle_challenge_submitted (event : Event) (timestamp : Z)
    (tx_hash : string) : Task unit :=
  on_database (_handle_challenge_submitted_statements event timestamp tx_hash) ;;
  logger (info_indexed "ChallengeSubmitted" (orderId_of (args event))).

(** [EventListener._handle_event] *)
Definition _handle_event (event_type : string) (event : Event) : Task unit :=
  try_except
    (do timestamp <- call (eth_get_block w (blockNumber event));
     let tx_hash := transactionHash event in
     (if String.eqb event_type "ProblemPosted" then
        _handle_problem_posted event timestamp tx_hash
      else if String.eqb event_type "OrderAccepted" then
        _handle_order_accepted event timestamp tx_hash
      else if String.eqb event_type "SolutionCommitted" then
        _handle_solution_committed event timestamp tx_hash
      else if String.eqb event_type "SolutionRevealed" then
        _handle_solution_revealed event timestamp tx_hash
      else if String.eqb event_type "ChallengeSubmitted" then
        _handle_challenge_submitted event timestamp tx_hash
      else ret tt) ;;
     match on_new_event w with
     | Some on_new_event =>
         let n := mkNotification (orderId_of (args event)) tx_hash timestamp in
         call (on_new_event event_type n) ;;
         (fun self =>
            (Ok tt, with_delivered self (delivered self ++ [(event_type, n)])))
     | None => ret tt
     end)%M
    (fun e => logger (error_handling event_type e)).

(** [EventListener._process_block_range] *)
Definition _process_block_range (from_block to_block : Z) : Task unit :=
  try_except
    (do problem_events <- call (get_logs w "ProblemPosted" from_block to_block);
     do accepted_events <- call (get_logs w "OrderAccepted" from_block to_block);
     do commit_events <- call (get_logs w "SolutionCommitted" from_block to_block);
     do reveal_events <- call (get_logs w "SolutionRevealed" from_block to_block);
     do challenge_events <- call (get_logs w "ChallengeSubmitted" from_block to_block);
     let events :=
       (map (pair "ProblemPosted") problem_events ++
        map (pair "OrderAccepted") accepted_events ++
        map (pair "SolutionCommitted") commit_events ++
        map (pair "SolutionRevealed") reveal_events ++
        map (pair "ChallengeSubmitted") challenge_events)%list in
     for_each events (fun '(event_type, event) => _handle_event event_type event))%M
    (fun e => logger (error_processing_blocks from_block to_block e)).

Definition chunk_size : Z := 1000.

(** One turn of the [while] loop of [_sync_historical_events], from
    [to_block = min(...)] to [self.last_processed_block = to_block]
    ([asyncio.sleep(0.1)] only yields). *)
Definition sync_chunk (from_block current_block : Z) : Task unit :=
  let to_block := Z.min (from_block + chunk_size) current_block in
  (_process_block_range from_block to_block ;;
   (fun self => (Ok tt, with_last_processed_block self to_block)))%M.

(** [while from_block < current_block and self.running: ...].  The gap
    [current_block - from_block] shrinks at every turn, so that many
    turns are enough ([sync_loop_for_each] below). *)
Fixpoint sync_loop (fuel : nat) (from_block current_block : Z) : Task unit :=
  fun self =>
    if (from_block <? current_block)%Z && running self then
      match fuel with
      | O => (Raise "out of fuel", self)
      | S fuel' =>
          let to_block := Z.min (from_block + chunk_size) current_block in
          (sync_chunk from_block current_block ;;
           sync_loop fuel' (to_block + 1) current_block)%M self
      end
    else (Ok tt, self).

(** [EventListener._sync_historical_events] *)
Definition _sync_historical_events : Task unit :=
  (do current_block <- call (eth_block_number w);
   fun self =>
     if (last_processed_block self >=? current_block)%Z then (Ok tt, self)
     else
       (logger (info_syncing (last_processed_block self) current_block) ;;
        sync_loop (Z.to_nat (current_block - last_processed_block self))
          (last_processed_block self) current_block ;;
        fun self' => logger (info_sync_complete (last_processed_block self')) self')
       self)%M.

(** One turn of [while self.running:] in [_listen_for_new_events]
    ([asyncio.sleep(2)] only yields). *)
Definition listen_turn : Task unit :=
  try_except
    (do current_block <- call (eth_block_number w);
     fun self =>
       if (current_block >? last_processed_block self)%Z then
         (_process_block_range (last_processed_block self + 1) current_block ;;
          fun self' => (Ok tt, with_last_processed_block self' current_block))
         self
       else (Ok tt, self))%M
    (fun e => logger (error_listening e)).

End Listener.

(** The columns of an order that no event may change once the order
    exists (specification, section 3). *)
Definition same_immutable_columns (r r' : OrderRow) : Prop :=
  Order.issuer (columns r') = Order.issuer (columns r) /\
  Order.created_at (columns r') = Order.created_at (columns r) /\
  Order.problem_hash (columns r') = Order.problem_hash (columns r).

(** Every order of [db] is still in [db'], with the same immutable
    columns. *)
Definition keeps_orders (db db' : Database) : Prop :=
  forall id r,
    orders db !! id = Some r ->
    exists r', orders db' !! id = Some r' /\ same_immutable_columns r r'.

(** The block ranges that [sync_loop] hands to [_process_block_range],
    in order, when the listener stays running. *)
Fixpoint chunks_from (fuel : nat) (from_block current_block : Z) : list (Z * Z) :=
  match fuel with
  | O => []
  | S fuel' =>
      if (from_block <? current_block)%Z then
        let to_block := Z.min (from_block + chunk_size) current_block in
        (from_block, to_block) :: chunks_from fuel' (to_block + 1) current_block
      else []
  end.

Definition chunks (from_block current_block : Z) : list (Z * Z) :=
  chunks_from (Z.to_nat (current_block - from_block)) from_block current_block.

(** What [sync_loop] does with one of these ranges. *)
Definition process_chunk (w : World) (c : Z * Z) : Task unit :=
  (_process_block_range w (fst c) (snd c) ;;
   (fun self => (Ok tt, with_last_processed_block self (snd c))))%M.

(** Ranges that follow one another from [start] on: each begins one block
    after the end of the one before, and none is empty. *)
Fixpoint contiguous (start : Z) (l : list (Z * Z)) : Prop :=
  match l with
  | [] => True
  | c :: l' => fst c = start /\ (fst c <= snd c)%Z /\ contiguous (snd c + 1) l'
  end.

(** The five event names whose logs [_process_block_range] fetches. *)
Definition fetched_events : list string :=
  ["ProblemPosted"; "OrderAccepted"; "SolutionCommitted"; "SolutionRevealed";
   "ChallengeSubmitted"].

(** [self'] differs from [self] in its tables, log and deliveries at
    most. *)
Definition same_control (self self' : EventListener) : Prop :=
  running self' = running self /\
  last_processed_block self' = last_processed_block self /\
  start_block self' = start_block self.

(** The last block of the ranges [l], or [d] when there is none: where
    the checkpoint stands after them. *)
Definition end_of (l : list (Z * Z)) (d : Z) : Z := List.last (map snd l) d.

(** Block [b] lies in the range [c]; [get_logs] takes both ends in. *)
Definition in_chunk (b : Z) (c : Z * Z) : bool :=
  (fst c <=? b)%Z && (b <=? snd c)%Z.

End Indexer.

(** ** The solver bot *)

Module Bot.

Local Open Scope m_scope.

(** *** [ominis_sdk.py] *)

(** [class OrderStatus(IntEnum)] *)
Inductive OrderStatus : Type :=
| OPEN | ACCEPTED | COMMITTED | REVEALED | VERIFIED | CHALLENGED | EXPIRED | CANCELLED.

Definition is_COMMITTED (s : OrderStatus) : bool :=
  match s with
  | COMMITTED => true
  | _ => false
  end.

(** [@dataclass Order] of the SDK; [solver] is [None] for the zero
    address. *)
Record Order : Type := mkOrder {
  id : Z;
  issuer : string;
  problem_hash : string;
  problem_type : Z;
  time_tier : Z;
  status : OrderStatus;
  reward : Z;
  created_at : Z;
  deadline : Z;
  solver : option string
}.

(** [@dataclass TxReceipt] *)
Record TxReceipt : Type := mkTxReceipt {
  tx_hash : string;
  block_number : Z;
  gas_used : Z;
  tx_status : bool
}.

(** [TxReceipt.success] *)
Definition success (r : TxReceipt) : bool := tx_status r.

(** A contract call wrapped in a transaction. *)
Inductive ContractCall : Type :=
| acceptOrder (order_id : Z)
| commitSolution (order_id : Z) (commit_hash : string)
| revealSolution (order_id : Z) (solution : string) (salt : string).

(** What the node does with one transaction: [build_transaction] (with
    its nonce and gas price queries) raises; [send_raw_transaction]
    raises; [wait_for_transaction_receipt] raises or times out; or a
    receipt comes back with its [status] field. *)
Inductive TxOutcome : Type :=
| BuildRaises (e : string)
| SendRaises (e : string)
| WaitRaises (sent_hash : string)
| Receipt (receipt_hash : string) (blockNumber gasUsed receipt_status : Z).

(** What the bot does to the outside, in the order it happens. *)
Inductive Effect : Type :=
| Slept (seconds : Z)
| GotOrder (order_id : Z)
| Called (tx : ContractCall)
| Sent (tx : ContractCall).

(** [bot_state.stats] *)
Record Stats : Type := mkStats {
  orders_accepted : Z;
  orders_solved : Z;
  total_earned : Q
}.

(** The bot and its surroundings.  The node is scripted: [order_answers]
    holds the answers to the coming [sdk.get_order] calls and
    [tx_outcomes] the fate of the coming transactions; an exhausted script
    stands for a node that no longer answers.  [time] is
    [int(time.time())]. *)
Record State : Type := mkState {
  time : Z;
  order_answers : list (result Order);
  tx_outcomes : list TxOutcome;
  trace : list Effect;
  stats : Stats;
  logs : list (string * string);
  console : list (string * string)
}.

Definition Run (A : Type) : Type := M State A.

Definition record (e : Effect) (s : State) : State :=
  mkState (time s) (order_answers s) (tx_outcomes s) (trace s ++ [e])
    (stats s) (logs s) (console s).

Definition next_answer (s : State) : State :=
  mkState (time s) (tl (order_answers s)) (tx_outcomes s) (trace s)
    (stats s) (logs s) (console s).

Definition next_outcome (s : State) : State :=
  mkState (time s) (order_answers s) (tl (tx_outcomes s)) (trace s)
    (stats s) (logs s) (console s).

Definition with_stats (s : State) (st : Stats) : State :=
  mkState (time s) (order_answers s) (tx_outcomes s) (trace s) st
    (logs s) (console s).

(** [Order.time_remaining] *)
Definition time_remaining (o : Order) : Run Z :=
  fun s => (Ok (Z.max 0 (deadline o - time s)), s).

(** [Order.reward_in_usdc] *)
Definition reward_in_usdc (o : Order) : Q := inject_Z (reward o) / 1000000.

(** [asyncio.sleep(seconds)] *)
Definition sleep (seconds : Z) : Run unit :=
  fun s =>
    (Ok tt,
     record (Slept seconds)
       (mkState (time s + seconds) (order_answers s) (tx_outcomes s) (trace s)
          (stats s) (logs s) (console s))).

(** [self.logs[-100:]] *)
Definition last_100 {A : Type} (l : list A) : list A :=
  skipn (length l - 100) l.

(** [BotState.add_log]: the entry joins the in-memory list, cut to its
    last hundred entries, and goes to the console logger.  A message is
    given by its fixed text, without the values interpolated into it. *)
Definition add_log (message level : string) : Run unit :=
  fun s =>
    (Ok tt,
     mkState (time s) (order_answers s) (tx_outcomes s) (trace s) (stats s)
       (last_100 (logs s ++ [(message, level)]))
       (console s ++ [(level, message)])).

(** [OminisSDK.get_order] *)
Definition get_order (order_id : Z) : Run Order :=
  fun s =>
    let s' := record (GotOrder order_id) (next_answer s) in
    match order_answers s with
    | answer :: _ => (answer, s')
    | [] => (Raise "ConnectionError", s')
    end.

(** [self.core.functions.<call>.build_transaction({...})]: nothing has
    left the process when it raises. *)
Definition build_transaction (tx : ContractCall) : Run ContractCall :=
  fun s =>
    match tx_outcomes s with
    | [] => (Raise "ConnectionError", s)
    | BuildRaises e :: _ => (Raise e, next_outcome s)
    | _ => (Ok tx, s)
    end.

(** [OminisSDK._send_transaction]: a receipt that cannot be fetched gives
    [TxReceipt(status=False)]; otherwise [success = receipt.status == 1]. *)
Definition _send_transaction (tx : ContractCall) : Run TxReceipt :=
  fun s =>
    let s' := record (Sent tx) (next_outcome s) in
    match tx_outcomes s with
    | WaitRaises sent_hash :: _ => (Ok (mkTxReceipt sent_hash 0 0 false), s')
    | Receipt h b g st :: _ => (Ok (mkTxReceipt h b g (st =? 1)%Z), s')
    | SendRaises e :: _ => (Raise e, s')
    | BuildRaises e :: _ => (Raise e, s')
    | [] => (Raise "ConnectionError", s')
    end.

Section WithSdk.

(** [sdk.address] and [Web3.solidity_keccak(['string', 'bytes32'], _)]. *)
Variable address : string.
Variable solidity_keccak : string -> string -> string.

(** [OminisSDK.compute_commit_hash] *)
Definition compute_commit_hash (solution salt : string) : string :=
  solidity_keccak solution salt.

(** [OminisSDK.accept_order] *)
Definition accept_order (order_id : Z) : Run TxReceipt :=
  (fun s => (Ok tt, record (Called (acceptOrder order_id)) s)) ;;
  do tx <- build_transaction (acceptOrder order_id);
  _send_transaction tx.

(** [OminisSDK.commit_solution] *)
Definition commit_solution (order_id : Z) (solution salt : string) : Run TxReceipt :=
  let commit_hash := compute_commit_hash solution salt in
  (fun s => (Ok tt, record (Called (commitSolution order_id commit_hash)) s)) ;;
  do tx <- build_transaction (commitSolution order_id commit_hash);
  _send_transaction tx.

(** [OminisSDK.reveal_solution] *)
Definition reveal_solution (order_id : Z) (solution salt : string) : Run TxReceipt :=
  (fun s => (Ok tt, record (Called (revealSolution order_id solution salt)) s)) ;;
  do tx <- build_transaction (revealSolution order_id solution salt);
  _send_transaction tx.

(** [OminisSDK.submit_solution]; [salt] is [os.urandom(32)]. *)
Definition submit_solution (order_id : Z) (solution salt : string)
    : Run (TxReceipt * TxReceipt) :=
  do commit_receipt <- commit_solution order_id solution salt;
  if negb (success commit_receipt) then
    raise ("Commit failed: " ++ tx_hash commit_receipt)
  else
    sleep 2 ;;
    do reveal_receipt <- reveal_solution order_id solution salt;
    ret (commit_receipt, reveal_receipt).

(** *** [bot_server.py] *)

(** [for retry in range(retries): sleep(3); check_order = get_order(...);
    if check_order.status.name == 'COMMITTED': ...; break], with the log
    lines of [bot_loop]; the value is whether the loop left by [break]. *)
Fixpoint bot_loop_poll (retries : nat) (order_id : Z) : Run bool :=
  match retries with
  | O => ret false
  | S retries' =>
      sleep 3 ;;
      do check_order <- get_order order_id;
      add_log "[BOT] Retry: Order status" "info" ;;
      if is_COMMITTED (status check_order) then
        add_log "[BOT] Order is COMMITTED! Proceeding to reveal..." "success" ;;
        ret true
      else bot_loop_poll retries' order_id
  end.

(** The inner [try] of step 3 of [bot_loop] (commit, check, reveal); a
    [continue] ends it. *)
Definition bot_loop_commit_reveal (order : Order) (solution salt : string) : Run unit :=
  do commit_receipt <- commit_solution (id order) solution salt;
  add_log "[BOT] Commit TX" "info" ;;
  do committed <-
    (if success commit_receipt then
       add_log "[BOT] Commit SUCCESS!" "success" ;;
       sleep 3 ;;
       ret true
     else
       add_log "[BOT] Commit receipt shows failure, waiting and checking..." "warning" ;;
       do committed <- bot_loop_poll 5 (id order);
       if committed then ret true
       else
         add_log "[BOT] Commit failed after retries. Check TX on Etherscan" "error" ;;
         ret false);
  if committed then
    add_log "[BOT] Step 2: Revealing solution..." "info" ;;
    do reveal_receipt <- reveal_solution (id order) solution salt;
    if success reveal_receipt then
      add_log "[BOT] Order SOLVED!" "success" ;;
      fun s =>
        (Ok tt,
         with_stats s
           (mkStats (orders_accepted (stats s)) (orders_solved (stats s) + 1)
              (total_earned (stats s) + reward_in_usdc order)))
    else add_log "[BOT] Reveal failed!" "error"
  else ret tt.

(** Step 3 of [bot_loop], "Submit (commit + reveal)", for one [order]
    with its computed [solution]; [salt] is [os.urandom(32)].  The
    f-string of the first log line slices [fresh_order.solver], which
    raises [TypeError] when the solver is [None]. *)
Definition bot_loop_submit (order : Order) (solution salt : string) : Run unit :=
  do fresh_order <- get_order (id order);
  match solver fresh_order with
  | None => raise "TypeError: 'NoneType' object is not subscriptable"
  | Some fresh_solver =>
      add_log "[BOT] Order status, time left, solver" "info" ;;
      do remaining <- time_remaining fresh_order;
      (if (remaining <? 30)%Z then add_log "[BOT] WARNING: Only seconds left!" "warning"
       else ret tt) ;;
      if negb (String.eqb (lower fresh_solver) (lower address)) then
        add_log "[BOT] ERROR: Someone else accepted!" "error"
      else if is_COMMITTED (status fresh_order) then
        add_log "[BOT] Order already committed, need salt to reveal (skipping)" "warning"
      else
        add_log "[BOT] Step 1: Committing solution..." "info" ;;
        try_except
          (bot_loop_commit_reveal order solution salt)
          (fun submit_err =>
             add_log "[BOT] Submit error" "error" ;;
             try_except
               (do final_order <- get_order (id order);
                add_log "[BOT] Final order status" "info")
               (fun _ => ret tt))
  end.

(** [for retry in range(retries): ... break] of
    [AutoSolver.solve_and_submit]; [false] is the [else] of the [for]. *)
Fixpoint solve_and_submit_poll (retries : nat) (order_id : Z) : Run bool :=
  match retries with
  | O => ret false
  | S retries' =>
      sleep 3 ;;
      do check_order <- get_order order_id;
      if is_COMMITTED (status check_order) then
        add_log "[AUTO-SOLVER] Commit confirmed after retry" "success" ;;
        ret true
      else solve_and_submit_poll retries' order_id
  end.

(** [AutoSolver.solve_and_submit] from "Generate salt" on; [solved] is
    the outcome of the lines before it (look-up of the problem text,
    [solve_problem], [store_solution_data]). *)
Definition solve_and_submit (order_id : Z) (solved : result string) (salt : string)
    : Run bool :=
  try_except
    (do solution <- call solved;
     add_log "[AUTO-SOLVER] Committing solution" "info" ;;
     do commit_receipt <- commit_solution order_id solution salt;
     add_log "[AUTO-SOLVER] Commit TX" "info" ;;
     do confirmed <-
       (if negb (success commit_receipt) then solve_and_submit_poll 3 order_id
        else ret true);
     if negb confirmed then
       add_log "[AUTO-SOLVER] Commit failed" "error" ;;
       ret false
     else
       sleep 3 ;;
       add_log "[AUTO-SOLVER] Revealing solution" "info" ;;
       do reveal_receipt <- reveal_solution order_id solution salt;
       if success reveal_receipt then
         add_log "[AUTO-SOLVER] Order SOLVED!" "success" ;;
         (fun s =>
            (Ok true,
             with_stats s
               (mkStats (orders_accepted (stats s)) (orders_solved (stats s) + 1)
                  (total_earned (stats s)))))
       else
         add_log "[AUTO-SOLVER] Reveal failed" "error" ;;
         ret false)
    (fun e =>
       add_log "[AUTO-SOLVER] Error solving order" "error" ;;
       ret false).

End WithSdk.

(** [n] rounds of "wait three seconds, then read the order". *)
Definition polls (n : nat) (order_id : Z) : list Effect :=
  concat (repeat [Slept 3; GotOrder order_id] n).

(** The receipt that [_send_transaction] makes of this outcome reports
    failure: no receipt could be fetched, or its [status] is not 1. *)
Definition reports_failure (o : TxOutcome) : Prop :=
  match o with
  | WaitRaises _ => True
  | Receipt _ _ _ receipt_status => receipt_status <> 1%Z
  | _ => False
  end.

(** The order is not seen as COMMITTED. *)
Definition not_committed (o : Order) : Prop := is_COMMITTED (status o) = false.

End Bot.


(** ** The read side of the indexer *)

Module Queries.
Import Indexer.

Local Open Scope Z_scope.
Local Open Scope m_scope.

(** *** [models.py]: rows into dataclasses *)

(** The keys of [dict(row)] after [SELECT * FROM <table>]: the columns
    of the [CREATE TABLE] statements of [Database.create_tables]. *)
Definition orders_columns : list string :=
  ["id"; "issuer"; "problem_hash"; "problem_type"; "time_tier"; "status";
   "reward"; "created_at"; "deadline"; "solver"; "tx_hash"; "block_number";
   "indexed_at"].

Definition solutions_columns : list string :=
  ["order_id"; "solver"; "commit_hash"; "solution"; "salt"; "commit_time";
   "reveal_time"; "is_revealed"; "tx_hash"].

Definition challenges_columns : list string :=
  ["order_id"; "challenger"; "stake"; "reason"; "challenge_time"; "resolved";
   "challenger_won"; "tx_hash"].

(** The fields of the three dataclasses. *)
Definition Order_fields : list string :=
  ["id"; "issuer"; "problem_hash"; "problem_type"; "time_tier"; "status";
   "reward"; "created_at"; "deadline"; "solver"; "tx_hash"; "block_number"].

Definition Solution_fields : list string :=
  ["order_id"; "solver"; "commit_hash"; "solution"; "salt"; "commit_time";
   "reveal_time"; "is_revealed"; "tx_hash"].

Definition Challenge_fields : list string :=
  ["order_id"; "challenger"; "stake"; "reason"; "challenge_time"; "resolved";
   "challenger_won"; "tx_hash"].

(** [cls( **kwargs)] on a dataclass: a keyword that is no field of the
    class raises [TypeError]; [value] is the instance built otherwise.
    (Every field of the three classes is a column of its table, so no
    required argument is ever missing.) *)
Definition init_dataclass {A : Type} (cls : string) (fields kwargs : list string)
    (value : A) : result A :=
  match List.find (fun k => negb (existsb (String.eqb k) fields)) kwargs with
  | Some k =>
      Raise ("TypeError: " ++ cls ++
             ".__init__() got an unexpected keyword argument '" ++ k ++ "'")
  | None => Ok value
  end.

(** [Order( **dict(row))] *)
Definition Order_of_row (row : OrderRow) : result Order.t :=
  init_dataclass "Order" Order_fields orders_columns (columns row).

(** [Solution( **dict(row))] *)
Definition Solution_of_row (row : Solution.t) : result Solution.t :=
  init_dataclass "Solution" Solution_fields solutions_columns row.

(** [Challenge( **dict(row))] *)
Definition Challenge_of_row (row : Challenge.t) : result Challenge.t :=
  init_dataclass "Challenge" Challenge_fields challenges_columns row.

(** [Database.is_connected] *)
Definition is_connected : DB bool := fun db => (Ok (pool db), db).

(** [Database.get_order] *)
Definition get_order (order_id : Z) : DB (option Order.t) := fun db =>
  if negb (pool db) then (Ok None, db)
  else
    match orders db !! order_id with
    | Some row =>
        match Order_of_row row with
        | Ok order => (Ok (Some order), db)
        | Raise e => (Raise e, db)
        end
    | None => (Ok None, db)
    end.

(** [if issuer:] on an [Optional[str]]. *)
Definition given (a : option string) : option string :=
  match a with
  | Some s => if String.eqb s "" then None else Some s
  | None => None
  end.

(** The [WHERE] clause that [get_orders] builds: [1=1], then one
    equality for each filter that is given; a [NULL] solver equals
    nothing. *)
Definition where_clause (status : option Z) (issuer solver : option string)
    (row : OrderRow) : bool :=
  match status with
  | Some st => Order.status (columns row) =? st
  | None => true
  end &&
  match given issuer with
  | Some a => String.eqb (Order.issuer (columns row)) a
  | None => true
  end &&
  match given solver with
  | Some a =>
      match Order.solver (columns row) with
      | Some s => String.eqb s a
      | None => false
      end
  | None => true
  end.

(** [[f(x) for x in xs]] where [f] may raise. *)
Fixpoint comprehension {A B : Type} (f : A -> result B) (xs : list A) : result (list B) :=
  match xs with
  | [] => Ok []
  | x :: xs' =>
      (let? y := f x in
       let? ys := comprehension f xs' in
       Ok (y :: ys))%result
  end.

Section OrderBy.

(** [ORDER BY created_at DESC] as PostgreSQL runs it on the selected
    rows; the order among rows created at the same time is the
    server's. *)
Variable order_by_created_at_desc : list OrderRow -> list OrderRow.

(** The rows that the query of [get_orders] fetches.  PostgreSQL refuses
    a negative [LIMIT] or [OFFSET]. *)
Definition fetch_orders (status : option Z) (issuer solver : option string)
    (limit offset : Z) (db : Database) : result (list OrderRow) :=
  if (limit <? 0) || (offset <? 0) then Raise "InvalidRowCountInLimitClauseError"
  else
    let selected :=
      List.filter (where_clause status issuer solver)
        (snd <$> map_to_list (orders db)) in
    Ok (take (Z.to_nat limit)
          (drop (Z.to_nat offset) (order_by_created_at_desc selected))).

(** [Database.get_orders] *)
Definition get_orders (status : option Z) (issuer solver : option string)
    (limit offset : Z) : DB (list Order.t) := fun db =>
  if negb (pool db) then (Ok [], db)
  else
    ((let? rows := fetch_orders status issuer solver limit offset db in
      comprehension Order_of_row rows)%result, db).

End OrderBy.

(** [SELECT COUNT( * ) FROM orders WHERE status = $1] *)
Definition count_status (status : Z) (db : Database) : Z :=
  Z.of_nat (size (filter (fun kv => Order.status (columns (snd kv)) = status)
                    (orders db))).

(** [Database.get_order_count] *)
Definition get_order_count (status : option Z) : DB Z := fun db =>
  if negb (pool db) then (Ok 0, db)
  else
    match status with
    | Some st => (Ok (count_status st db), db)
    | None => (Ok (Z.of_nat (size (orders db))), db)
    end.

(** [Database.get_challenge] *)
Definition get_challenge (order_id : Z) : DB (option Challenge.t) := fun db =>
  if negb (pool db) then (Ok None, db)
  else
    match challenges db !! order_id with
    | Some row =>
        match Challenge_of_row row with
        | Ok challenge => (Ok (Some challenge), db)
        | Raise e => (Raise e, db)
        end
    | None => (Ok None, db)
    end.

(** The dictionary that [get_stats] returns when connected. *)
Record Stats : Type := mkStats {
  total_orders : Z;
  open_orders : Z;
  completed_orders : Z;
  total_challenges : Z
}.

(** [Database.get_stats]; [None] is the empty dictionary. *)
Definition get_stats : DB (option Stats) := fun db =>
  if negb (pool db) then (Ok None, db)
  else
    (Ok (Some (mkStats (Z.of_nat (size (orders db))) (count_status 0 db)
                 (count_status 4 db) (Z.of_nat (size (challenges db))))),
     db).

(** *** [api/orders.py] and [api/solutions.py]

    A route returns its response model or raises [HTTPException]; any
    other exception that leaves it is an unhandled error of the
    server. *)
Inductive Reply (A : Type) : Type :=
| Reply200 (body : A)
| HTTPException (status_code : Z) (detail : string).
Arguments Reply200 {A} body.
Arguments HTTPException {A} status_code detail.

(** [class OrderResponse(BaseModel)] *)
Record OrderResponse : Type := mkOrderResponse {
  r_id : Z;
  r_issuer : string;
  r_problem_hash : string;
  r_problem_type : Z;
  r_time_tier : Z;
  r_status : Z;
  r_reward : string;
  r_created_at : Z;
  r_deadline : Z;
  r_solver : option string
}.

(** [OrderResponse( **o.__dict__)]: the model ignores the attributes it
    does not declare ([tx_hash], [block_number]). *)
Definition OrderResponse_of (o : Order.t) : OrderResponse :=
  mkOrderResponse (Order.id o) (Order.issuer o) (Order.problem_hash o)
    (Order.problem_type o) (Order.time_tier o) (Order.status o) (Order.reward o)
    (Order.created_at o) (Order.deadline o) (Order.solver o).

(** [class OrderListResponse(BaseModel)] *)
Record OrderListResponse : Type := mkOrderListResponse {
  l_orders : list OrderResponse;
  l_total : Z;
  l_page : Z;
  l_limit : Z
}.

(** [GET /orders/{order_id}] *)
Definition route_get_order (order_id : Z) : DB (Reply OrderResponse) :=
  do order <- get_order order_id;
  match order with
  | None => ret (HTTPException 404 "Order not found")
  | Some o => ret (Reply200 (OrderResponse_of o))
  end.

Section Routes.

Variable order_by_created_at_desc : list OrderRow -> list OrderRow.

(** [GET /orders]; [page] and [limit] have passed the validation of
    [Query] ([page >= 1], [1 <= limit <= 100]). *)
Definition list_orders (status : option Z) (issuer solver : option string)
    (page limit : Z) : DB (Reply OrderListResponse) :=
  let offset := (page - 1) * limit in
  do orders <- get_orders order_by_created_at_desc status issuer solver limit offset;
  do total <- get_order_count status;
  ret (Reply200 (mkOrderListResponse (map OrderResponse_of orders) total page limit)).

(** [GET /orders/by-issuer/{address}] *)
Definition get_orders_by_issuer (address : string) (page limit : Z)
    : DB (Reply OrderListResponse) :=
  let offset := (page - 1) * limit in
  do orders <- get_orders order_by_created_at_desc None (Some address) None limit offset;
  ret (Reply200 (mkOrderListResponse (map OrderResponse_of orders)
                   (Z.of_nat (length orders)) page limit)).

End Routes.

(** A run of statements keeps the property [P] of the tables. *)
Definition preserves {A : Type} (P : Database -> Prop) (m : DB A) : Prop :=
  forall db, P db -> P (snd (m db)).

(** Every solution and every challenge belongs to an indexed order: the
    two [REFERENCES orders(id)] constraints. *)
Definition references_hold (db : Database) : Prop :=
  forall id,
    (is_Some (solutions db !! id) -> is_Some (orders db !! id)) /\
    (is_Some (challenges db !! id) -> is_Some (orders db !! id)).

End Queries.

(** ** [indexer/main.py]: the broadcast to the websockets *)

Module Main.

(** A connected websocket is known by its identity. *)
Definition WebSocket : Type := nat.

(** [list.remove(x)]: the first element equal to [x] goes; [ValueError]
    when there is none. *)
Fixpoint remove (x : WebSocket) (l : list WebSocket) : result (list WebSocket) :=
  match l with
  | [] => Raise "ValueError: list.remove(x): x not in list"
  | y :: l' =>
      if Nat.eqb x y then Ok l'
      else (let? r := remove x l' in Ok (y :: r))%result
  end.

Section Broadcast.

(** [ws.send_json(message)]: whether it raises, for each socket, while
    one message is broadcast. *)
Variable Message : Type.
Variable send_json : WebSocket -> Message -> result unit.

(** The first loop of [broadcast_event]: the sockets whose send raised,
    in the order of the list. *)
Fixpoint failed_sends (message : Message) (sockets : list WebSocket) : list WebSocket :=
  match sockets with
  | [] => []
  | ws :: sockets' =>
      match send_json ws message with
      | Ok _ => failed_sends message sockets'
      | Raise _ => ws :: failed_sends message sockets'
      end
  end.

(** The second loop: [for ws in disconnected:
    connected_websockets.remove(ws)]. *)
Fixpoint remove_all (disconnected : list WebSocket) (connected : list WebSocket)
    : result (list WebSocket) :=
  match disconnected with
  | [] => Ok connected
  | ws :: disconnected' =>
      (let? connected' := remove ws connected in
       remove_all disconnected' connected')%result
  end.

(** The send to [ws] went through. *)
Definition sent (message : Message) (ws : WebSocket) : bool :=
  match send_json ws message with
  | Ok _ => true
  | Raise _ => false
  end.

(** [broadcast_event], as a function of [connected_websockets]. *)
Definition broadcast_event (message : Message) (connected_websockets : list WebSocket)
    : result (list WebSocket) :=
  remove_all (failed_sends message connected_websockets) connected_websockets.

End Broadcast.

End Main.

(** ** The rest of the SDK: orders as the contract returns them *)

Module Sdk.
Import Bot.

Local Open Scope Z_scope.

(** The tuple returned by [getOrder] and, in a list, by
    [getOpenOrders]. *)
Record RawOrder : Type := mkRawOrder {
  raw0 : Z;
  raw1 : string;
  raw2 : string;
  raw3 : Z;
  raw4 : Z;
  raw5 : Z;
  raw6 : Z;
  raw7 : Z;
  raw8 : Z;
  raw9 : string
}.

(** ["0x" + "0" * 40] *)
Definition zero_address : string := "0x0000000000000000000000000000000000000000".

(** [ProblemType(n)], [TimeTier(n)] and [OrderStatus(n)]: a number that
    is no member of the enumeration raises [ValueError]. *)
Definition ProblemType_of (n : Z) : result Z :=
  if (0 <=? n) && (n <=? 4) then Ok n
  else Raise (pretty n ++ " is not a valid ProblemType").

Definition TimeTier_of (n : Z) : result Z :=
  if (0 <=? n) && (n <=? 3) then Ok n
  else Raise (pretty n ++ " is not a valid TimeTier").

Definition OrderStatus_of (n : Z) : result OrderStatus :=
  match n with
  | 0 => Ok OPEN
  | 1 => Ok ACCEPTED
  | 2 => Ok COMMITTED
  | 3 => Ok REVEALED
  | 4 => Ok VERIFIED
  | 5 => Ok CHALLENGED
  | 6 => Ok EXPIRED
  | 7 => Ok CANCELLED
  | _ => Raise (pretty n ++ " is not a valid OrderStatus")
  end.

(** The three codes of a raw order are members of their enumerations. *)
Definition decodable (raw : RawOrder) : Prop :=
  0 <= raw3 raw <= 4 /\ 0 <= raw4 raw <= 3 /\ 0 <= raw5 raw <= 7.

(** The constructor call [Order(id=raw[0], ...)] shared by [get_order]
    and [get_open_orders]; the keyword arguments are evaluated in
    order. *)
Definition Order_of_raw (raw : RawOrder) : result Order :=
  (let? problem_type := ProblemType_of (raw3 raw) in
   let? time_tier := TimeTier_of (raw4 raw) in
   let? status := OrderStatus_of (raw5 raw) in
   Ok (mkOrder (raw0 raw) (raw1 raw) (raw2 raw) problem_type time_tier status
         (raw6 raw) (raw7 raw) (raw8 raw)
         (if String.eqb (raw9 raw) zero_address then None else Some (raw9 raw))))%result.

(** [OminisSDK.get_order], given what [getOrder(order_id).call()]
    gives. *)
Definition get_order (call : result RawOrder) : result Order :=
  (let? raw := call in Order_of_raw raw)%result.

(** The loop of [get_open_orders]: [try: orders.append(Order(...))
    except Exception: continue]. *)
Fixpoint collect_orders (raw_orders : list RawOrder) (orders : list Order) : list Order :=
  match raw_orders with
  | [] => orders
  | raw :: raw_orders' =>
      match Order_of_raw raw with
      | Ok order => collect_orders raw_orders' (orders ++ [order])
      | Raise _ => collect_orders raw_orders' orders
      end
  end.

(** [OminisSDK.get_open_orders], given what
    [getOpenOrders(0, limit).call()] gives. *)
Definition get_open_orders (call : result (list RawOrder)) : result (list Order) :=
  (let? raw_orders := call in Ok (collect_orders raw_orders []))%result.

(** [OminisSDK.get_order_bot], given what [getOrderBot(order_id).call()]
    gives. *)
Definition get_order_bot (call : result string) : option string :=
  match call with
  | Ok bot_address => if String.eqb bot_address zero_address then None else Some bot_address
  | Raise _ => None
  end.

End Sdk.

(** ** What the bot sends, in what order *)

Module Traces.
Import Bot.

(** An effect other than the sending of a transaction. *)
Definition quiet (e : Effect) : bool :=
  match e with
  | Sent _ => false
  | _ => true
  end.

(** In the effects [l], every reveal that is sent comes after a commit
    that was sent for the same order with the digest of the revealed
    solution and salt. *)
Definition reveals_follow_commits (solidity_keccak : string -> string -> string)
    (l : list Effect) : Prop :=
  forall before after order_id solution salt,
    l = (before ++ Sent (revealSolution order_id solution salt) :: after)%list ->
    In (Sent (commitSolution order_id (solidity_keccak solution salt))) before.

(** The same, checked from left to right: [committed] holds the orders
    and digests of the commits sent so far. *)
Fixpoint commits_before_reveals (solidity_keccak : string -> string -> string)
    (committed : list (Z * string)) (l : list Effect) : bool :=
  match l with
  | [] => true
  | Sent (commitSolution order_id commit_hash) :: l' =>
      commits_before_reveals solidity_keccak ((order_id, commit_hash) :: committed) l'
  | Sent (revealSolution order_id solution salt) :: l' =>
      existsb (fun c => (fst c =? order_id)%Z &&
                        String.eqb (snd c) (solidity_keccak solution salt))
        committed &&
      commits_before_reveals solidity_keccak committed l'
  | _ :: l' => commits_before_reveals solidity_keccak committed l'
  end.

(** The transactions sent, in order. *)
Fixpoint transactions (l : list Effect) : list ContractCall :=
  match l with
  | [] => []
  | Sent tx :: l' => tx :: transactions l'
  | _ :: l' => transactions l'
  end.

(** The order a call to the contract is about. *)
Definition order_of (tx : ContractCall) : Z :=
  match tx with
  | acceptOrder order_id => order_id
  | commitSolution order_id _ => order_id
  | revealSolution order_id _ _ => order_id
  end.

Definition is_commit (tx : ContractCall) : bool :=
  match tx with
  | commitSolution _ _ => true
  | _ => false
  end.

(** [txs] is nothing, a commit for [order_id], or such a commit and
    then a reveal for [order_id]. *)
Definition commit_then_reveal (order_id : Z) (txs : list ContractCall) : bool :=
  match txs with
  | [] => true
  | [commitSolution o _] => (o =? order_id)%Z
  | [commitSolution o _; revealSolution o' _ _] => (o =? order_id)%Z && (o' =? order_id)%Z
  | _ => false
  end.

(** The transactions of [l] that are about [order_id], and the commits
    among them. *)
Definition transactions_for (order_id : Z) (l : list Effect) : list ContractCall :=
  List.filter (fun tx => (order_of tx =? order_id)%Z) (transactions l).

Definition commits_for (order_id : Z) (l : list Effect) : list ContractCall :=
  List.filter is_commit (transactions_for order_id l).

End Traces.

(** ** The rest of the bot server: storage and solving *)

Module BotServer.
Import Bot.

Local Open Scope Z_scope.

(** *** Strings *)

(** [s] without the leading [p], when [s] starts with [p]. *)
Fixpoint strip_prefix (p s : string) : option string :=
  match p, s with
  | EmptyString, _ => Some s
  | String a p', String b s' => if Ascii.eqb a b then strip_prefix p' s' else None
  | String _ _, EmptyString => None
  end.

(** [s.replace(old, new)] for a non-empty [old]: the occurrences of
    [old] are replaced from left to right, without overlap.  Each turn
    consumes at least one character of [s], so [length s] turns are
    enough. *)
Fixpoint replace_fuel (fuel : nat) (old new s : string) : string :=
  match fuel with
  | O => s
  | S fuel' =>
      match strip_prefix old s with
      | Some rest => new ++ replace_fuel fuel' old new rest
      | None =>
          match s with
          | EmptyString => EmptyString
          | String c s' => String c (replace_fuel fuel' old new s')
          end
      end
  end.

Definition replace (old new s : string) : string :=
  replace_fuel (String.length s) old new s.

(** A hexadecimal digit, in either case. *)
Definition hex_digit (c : ascii) : bool :=
  let n := nat_of_ascii c in
  ((48 <=? n) && (n <=? 57) || (65 <=? n) && (n <=? 70) ||
   (97 <=? n) && (n <=? 102))%nat.

(** [s] is a string of hexadecimal digits, as [bytes.hex()] gives. *)
Fixpoint hex (s : string) : bool :=
  match s with
  | EmptyString => true
  | String c s' => hex_digit c && hex s'
  end.

(** *** The keys of [problem_storage] *)

(** The key under which [store_problem] files a hash and under which
    [get_problem] looks one up: [raw_hash = hash.lower()], then
    ['0x' + raw_hash.replace('0x', '') if not raw_hash.startswith('0x')
    else raw_hash]. *)
Definition stored_key (hash : string) : string :=
  let raw_hash := lower hash in
  if String.prefix "0x" raw_hash then raw_hash
  else "0x" ++ replace "0x" "" raw_hash.

(** The key used by [receive_problem_webhook] and, for a non-empty
    hash, by [solve_endpoint]:
    ['0x' + problem_hash.lower().replace('0x', '')]. *)
Definition pushed_key (hash : string) : string :=
  "0x" ++ replace "0x" "" (lower hash).

(** The key that [bot_loop] and [AutoSolver.solve_and_submit] look up
    for an order: [raw_hash = order.problem_hash.hex().lower()], then
    ['0x' + raw_hash if not raw_hash.startswith('0x') else raw_hash]. *)
Definition looked_up_key (problem_hash_hex : string) : string :=
  let raw_hash := lower problem_hash_hex in
  if String.prefix "0x" raw_hash then raw_hash else "0x" ++ raw_hash.

(** A digest as clients write it: with or without the prefix. *)
Definition written (prefixed : bool) (digest : string) : string :=
  if prefixed then "0x" ++ digest else digest.

(** An entry of [problem_storage]; [timestamp] is
    [datetime.now().isoformat()]. *)
Record Problem : Type := mkProblem {
  text : string;
  type : Z;
  timestamp : string
}.

(** The JSON body of [POST /problems], by the keys the route reads
    ([None]: the key is absent). *)
Record StoreRequest : Type := mkStoreRequest {
  q_hash : option string;
  q_text : option string;
  q_type : option Z
}.

Inductive StoreReply : Type :=
| Stored (hash : string)
| MissingHashOrText.

(** [store_problem]; [data] is [request.get_json()], [now] the time of
    the call.  Writing the file never raises ([save_problem_storage]
    catches). *)
Definition store_problem (now : string) (data : option StoreRequest)
    (problem_storage : gmap string Problem) : StoreReply * gmap string Problem :=
  match data with
  | Some (mkStoreRequest (Some hash) (Some text) type) =>
      let problem_hash := stored_key hash in
      (Stored problem_hash,
       <[problem_hash := mkProblem text (default 0 type) now]> problem_storage)
  | _ => (MissingHashOrText, problem_storage)
  end.

(** [get_problem]: the stored problem, or "Problem not found". *)
Definition get_problem (problem_hash : string) (problem_storage : gmap string Problem)
    : option Problem :=
  problem_storage !! stored_key problem_hash.

(** The look-up of step 2 of [bot_loop] and of
    [AutoSolver.solve_and_submit]:
    [problem_storage[problem_hash].get('text')] if the key is there. *)
Definition problem_text_of (problem_hash_hex : string)
    (problem_storage : gmap string Problem) : option string :=
  text <$> problem_storage !! looked_up_key problem_hash_hex.

(** *** Solving *)

(** One step of a worked solution. *)
Record Step : Type := mkStep {
  step : Z;
  content : string;
  step_result : string
}.

(** The value under ['answer']: a text, or (see [solve_with_gpt]) a
    whole dictionary with its own ['answer'] and ['steps']. *)
Inductive Answer : Type :=
| Text (s : string)
| Dict (answer : Answer) (steps : list Step).

(** A dictionary with the keys ['answer'] and ['steps']. *)
Record SolutionData : Type := mkSolutionData {
  answer : Answer;
  steps : list Step
}.

(** [PROBLEM_TYPE_NAMES.get(problem_type, "calculus")] *)
Definition PROBLEM_TYPE_NAMES (problem_type : Z) : string :=
  match problem_type with
  | 0 => "derivative"
  | 1 => "integral"
  | 2 => "limit"
  | 3 => "differential equation"
  | 4 => "series/summation"
  | _ => "calculus"
  end.

(** [solve_problem_fallback] *)
Definition solve_problem_fallback (problem_type : Z) : SolutionData :=
  match problem_type with
  | 0 =>
      mkSolutionData (Text "f'(x) = 2x + 3")
        [mkStep 1 "Apply power rule to x²" "2x";
         mkStep 2 "Apply constant rule to 3x" "3";
         mkStep 3 "Combine terms" "2x + 3"]
  | 1 =>
      mkSolutionData (Text "F(x) = x^2/2 + C")
        [mkStep 1 "Apply power rule: ∫x dx = x²/2" "x²/2";
         mkStep 2 "Add constant of integration" "+ C"]
  | 2 => mkSolutionData (Text "lim = 1") [mkStep 1 "Direct substitution" "1"]
  | 3 =>
      mkSolutionData (Text "y = Ce^x + x")
        [mkStep 1 "Find homogeneous solution" "Ce^x";
         mkStep 2 "Find particular solution" "x";
         mkStep 3 "Combine solutions" "Ce^x + x"]
  | 4 =>
      mkSolutionData (Text "Sum = n(n+1)/2")
        [mkStep 1 "Apply arithmetic series formula" "n(n+1)/2"]
  | _ => mkSolutionData (Text ("Solution for type " ++ pretty problem_type)) []
  end.

(** The two prompts of [solve_with_gpt], by the values interpolated. *)
Inductive Prompt : Type :=
| SolveThis (type_name problem_text : string)
| SolveTypical (type_name : string).

Section Solving.

(** What [solve_with_gpt] reaches outside itself: the client that
    [get_openai_client] returns ([None] without key, without the
    [openai] package or when its creation fails), whose call gives
    [response.choices[0].message.content.strip()] or raises; and
    [parse_gpt_solution], which reads an answer text and steps out of
    the content with regular expressions. *)
Variable get_openai_client : option (Prompt -> result string).
Variable parse_gpt_solution : string -> string * list Step.

(** [solve_with_gpt] *)
Definition solve_with_gpt (problem_type : Z) (problem_text : option string)
    : SolutionData :=
  match get_openai_client with
  | None =>
      let fallback := solve_problem_fallback problem_type in
      mkSolutionData (Dict (answer fallback) (steps fallback)) []
  | Some create =>
      let type_name := PROBLEM_TYPE_NAMES problem_type in
      let prompt :=
        match problem_text with
        | Some t => if String.eqb t "" then SolveTypical type_name
                    else SolveThis type_name t
        | None => SolveTypical type_name
        end in
      match create prompt with
      | Ok content =>
          let '(parsed_answer, parsed_steps) := parse_gpt_solution content in
          mkSolutionData (Text parsed_answer) parsed_steps
      | Raise e =>
          let fallback := solve_problem_fallback problem_type in
          mkSolutionData (Dict (answer fallback) (steps fallback)) []
      end
  end.

(** [solve_problem]; [OPENAI_API_KEY] tells whether
    [os.getenv('OPENAI_API_KEY')] is set and not empty. *)
Definition solve_problem (OPENAI_API_KEY : bool) (problem_type : Z)
    (problem_hash : string) (problem_text : option string) : SolutionData :=
  if OPENAI_API_KEY then solve_with_gpt problem_type problem_text
  else solve_problem_fallback problem_type.

(** An entry of [solution_storage]. *)
Record StoredSolution : Type := mkStoredSolution {
  s_order_id : Z;
  s_problem_hash : string;
  s_answer : Answer;
  s_steps : list Step;
  s_steps_hash : string;
  s_timestamp : string;
  verified : bool;
  verification_status : string
}.

(** ['0x' + sha256(json.dumps(steps, sort_keys=True))]. *)
Variable steps_hash_of : list Step -> string.

(** [answer[:30]] in the last line of [store_solution_data]: a text can
    be sliced, a dictionary cannot ([TypeError]; [KeyError] from Python
    3.12 on). *)
Definition slice_answer (a : Answer) : result string :=
  match a with
  | Text s => Ok (String.substring 0 30 s)
  | Dict _ _ => Raise "TypeError: unhashable type: 'slice'"
  end.

(** [store_solution_data]: the entry is written, then the answer is
    logged. *)
Definition store_solution_data (now : string) (order_id : Z) (problem_hash : string)
    (solution_data : SolutionData) : M (gmap string StoredSolution) unit :=
  fun solution_storage =>
    let stored :=
      <[pretty order_id :=
          mkStoredSolution order_id problem_hash (answer solution_data)
            (steps solution_data) (steps_hash_of (steps solution_data)) now
            false "pending"]> solution_storage in
    match slice_answer (answer solution_data) with
    | Ok _ => (Ok tt, stored)
    | Raise e => (Raise e, stored)
    end.

(** The solution as [commit_solution] takes it:
    [Web3.solidity_keccak(['string', 'bytes32'], [solution, salt])]
    encodes a text, not a dictionary. *)
Definition solution_text (a : Answer) : result string :=
  match a with
  | Text s => Ok s
  | Dict _ _ => Raise "TypeError: not a string"
  end.

(** The lines of [AutoSolver.solve_and_submit] before "Generate salt":
    the problem text is looked up, the problem solved and the solution
    stored; the value is [solution = solution_data['answer']], as the
    commit takes it.  [bot_loop] has the same lines in its step 2. *)
Definition solve_and_submit_solved (OPENAI_API_KEY : bool) (now : string)
    (problem_storage : gmap string Problem) (order_id : Z) (order : Order)
    : M (gmap string StoredSolution) string :=
  let key := looked_up_key (Bot.problem_hash order) in
  let problem_text := problem_text_of (Bot.problem_hash order) problem_storage in
  let solution_data :=
    solve_problem OPENAI_API_KEY (Bot.problem_type order) key problem_text in
  (store_solution_data now order_id key solution_data ;;
   call (solution_text (answer solution_data)))%M.

(** The JSON body of [POST /solve], by the keys the route reads
    ([None]: the key is absent). *)
Record SolveRequest : Type := mkSolveRequest {
  r_problem_type : option Z;
  r_problem_text : option string;
  r_problem_hash : option string;
  r_order_id : option Z
}.

Inductive SolveReply : Type :=
| SolveSuccess (solution : Answer) (steps : list Step) (used_gpt : bool)
| SolveFailure (error : string) (solution : Answer) (steps : list Step).

(** The truth value of an optional text. *)
Definition truthy (s : option string) : bool :=
  match s with
  | Some t => negb (String.eqb t "")
  | None => false
  end.

(** [solve_endpoint]; [data] is [request.get_json()]. *)
Definition solve_endpoint (OPENAI_API_KEY : bool) (now : string)
    (problem_storage : gmap string Problem) (data : option SolveRequest)
    : M (gmap string StoredSolution) SolveReply :=
  let data := default (mkSolveRequest None None None None) data in
  let problem_type := default 0 (r_problem_type data) in
  let problem_hash := default "" (r_problem_hash data) in
  let problem_hash_normalized :=
    if String.eqb problem_hash "" then "" else pushed_key problem_hash in
  let problem_text :=
    if negb (truthy (r_problem_text data)) &&
       negb (String.eqb problem_hash_normalized "")
    then match problem_storage !! problem_hash_normalized with
         | Some p => Some (text p)
         | None => r_problem_text data
         end
    else r_problem_text data in
  try_except
    (let result :=
       solve_problem OPENAI_API_KEY problem_type problem_hash_normalized problem_text in
     (match r_order_id data with
      | Some order_id =>
          store_solution_data now order_id problem_hash_normalized result
      | None => ret tt
      end ;;
      ret (SolveSuccess (answer result) (steps result) OPENAI_API_KEY))%M)
    (fun e =>
       let fallback := solve_problem_fallback problem_type in
       ret (SolveFailure e (answer fallback) (steps fallback))).

(** The model cannot be reached: there is no client, or its call
    raises. *)
Definition unreachable : Prop :=
  match get_openai_client with
  | None => True
  | Some create => forall prompt, exists e, create prompt = Raise e
  end.

End Solving.

End BotServer.

(** ** The auto-solver of the subscription mode *)

Module AutoSolver.
Import Bot BotServer Traces.

Local Open Scope Z_scope.
Local Open Scope m_scope.

(** [class AutoSolver], with what it shares with the rest of the
    server: [bot_state.active_orders], [solution_storage] and the SDK
    with its node ([bot]). *)
Record State : Type := mkState {
  processed_orders : gset Z;
  running : bool;
  active_orders : gset Z;
  solution_storage : gmap string StoredSolution;
  bot : Bot.State
}.

Definition Run (A : Type) : Type := M State A.

(** A call of the SDK or of [bot_state]. *)
Definition on_bot {A : Type} (m : Bot.Run A) : Run A :=
  fun s =>
    let '(r, b) := m (bot s) in
    (r, mkState (processed_orders s) (running s) (active_orders s)
          (solution_storage s) b).

(** [try: body finally: final] *)
Definition try_finally {A : Type} (body : Run A) (final : Run unit) : Run A :=
  fun s =>
    let '(r, s') := body s in
    match final s' with
    | (Ok _, s'') => (r, s'')
    | (Raise e, s'') => (Raise e, s'')
    end.

Section WithSdk.

(** [self.bot_address] and [Web3.solidity_keccak]. *)
Variable bot_address : string.
Variable solidity_keccak : string -> string -> string.

(** [self.core_contract] is set; [getOrderBot(order_id).call()]. *)
Variable core_contract : bool.
Variable getOrderBot : Z -> result string.

(** What solving reaches: see [BotServer]. *)
Variable get_openai_client : option (Prompt -> result string).
Variable parse_gpt_solution : string -> string * list Step.
Variable steps_hash_of : list Step -> string.
Variable OPENAI_API_KEY : bool.
Variable problem_storage : gmap string Problem.

(** [datetime.fromtimestamp(t).isoformat()], and the salt that
    [os.urandom(32)] gives for an order. *)
Variable isoformat : Z -> string.
Variable urandom : Z -> string.

(** [AutoSolver.log] *)
Definition log (message level : string) : Run unit :=
  on_bot (add_log ("[AUTO-SOLVER] " ++ message) level).

(** [AutoSolver.get_order_bot] *)
Definition get_order_bot (order_id : Z) : Run (option string) :=
  if negb core_contract then ret None
  else
    match getOrderBot order_id with
    | Ok assigned_bot => ret (Some assigned_bot)
    | Raise e => log "Error getting order bot" "error" ;; ret None
    end.

(** [order.status.name in ['OPEN', 'ACCEPTED']] *)
Definition is_OPEN_or_ACCEPTED (s : OrderStatus) : bool :=
  match s with
  | OPEN | ACCEPTED => true
  | _ => false
  end.

(** [AutoSolver.check_order_needs_solving]: the order, if this bot is
    to solve it. *)
Definition check_order_needs_solving (order_id : Z) : Run (option (Order * string)) :=
  try_except
    (do processed <- (fun s => (Ok (processed_orders s), s));
     if bool_decide (order_id ∈ (processed : gset Z)) then ret None
     else
       do order <- on_bot (Bot.get_order order_id);
       do assigned_bot <- get_order_bot order_id;
       match assigned_bot with
       | None => ret None
       | Some assigned =>
           if String.eqb assigned "" ||
              negb (String.eqb (lower assigned) (lower bot_address))
           then ret None
           else if negb (is_OPEN_or_ACCEPTED (status order)) then
             log "Order status, skipping" "info" ;;
             ret None
           else
             do remaining <- on_bot (time_remaining order);
             if remaining <? 30 then
               log "Order has only seconds remaining, skipping" "warning" ;;
               ret None
             else ret (Some (order, assigned))
       end)
    (fun e =>
       log "Error checking order" "error" ;;
       ret None).

(** [AutoSolver.solve_and_submit]: the solving of [BotServer], then the
    commit and reveal of [Bot]. *)
Definition solve_and_submit (order_id : Z) (order : Order) : Run bool :=
  fun s =>
    let '(solved, stored) :=
      solve_and_submit_solved get_openai_client parse_gpt_solution steps_hash_of
        OPENAI_API_KEY (isoformat (time (bot s))) problem_storage order_id order
        (solution_storage s) in
    let '(r, b) :=
      Bot.solve_and_submit solidity_keccak order_id solved (urandom order_id) (bot s) in
    (r, mkState (processed_orders s) (running s) (active_orders s) stored b).

(** [AutoSolver.get_assigned_orders_from_events], given what the event
    filter yields. *)
Definition get_assigned_orders_from_events (entries : result (list Z)) : Run (list Z) :=
  if negb core_contract then ret []
  else
    match entries with
    | Ok order_ids =>
        (match order_ids with
         | [] => ret tt
         | _ => log "Found assigned orders from events" "info"
         end) ;;
        ret order_ids
    | Raise e =>
        log "Error getting assigned orders from events" "error" ;;
        ret []
    end.

(** The [for order_id in order_ids] of [run_once]. *)
Fixpoint run_once_for (order_ids : list Z) : Run unit :=
  match order_ids with
  | [] => ret tt
  | order_id :: order_ids' =>
      do still_running <- (fun s => (Ok (running s), s));
      if negb still_running then ret tt
      else
        do order_info <- check_order_needs_solving order_id;
        match order_info with
        | None => run_once_for order_ids'
        | Some (order, _) =>
            (fun s =>
               (Ok tt,
                mkState ({[order_id]} ∪ processed_orders s) (running s)
                  ({[order_id]} ∪ active_orders s) (solution_storage s) (bot s))) ;;
            try_finally
              (do success <- solve_and_submit order_id order;
               if success then log "Successfully solved order" "success" else ret tt)
              (fun s =>
                 (Ok tt,
                  mkState (processed_orders s) (running s)
                    (active_orders s ∖ {[order_id]}) (solution_storage s) (bot s))) ;;
            run_once_for order_ids'
        end
  end.

(** [AutoSolver.run_once] *)
Definition run_once (entries : result (list Z)) : Run unit :=
  if negb core_contract then log "Core contract not initialized" "error"
  else
    try_except
      (do order_ids <- get_assigned_orders_from_events entries;
       run_once_for order_ids)
      (fun e => log "Error in auto-solver run" "error").

End WithSdk.

(** A step that sends nothing and leaves the sets alone. *)
Definition silent (s s' : State) : Prop :=
  processed_orders s' = processed_orders s /\
  active_orders s' = active_orders s /\
  running s' = running s /\
  exists l,
    trace (bot s') = (trace (bot s) ++ l)%list /\
    transactions l = [].

(** From [s] to [s'] no processed order is forgotten and, of the
    transactions sent in between, at most one is a commit for
    [order_id], none is about [order_id] if it was processed in [s], and
    if one is about [order_id] then it is processed in [s']. *)
Definition at_most_once (order_id : Z) (s s' : State) : Prop :=
  processed_orders s ⊆ processed_orders s' /\
  exists l,
    trace (bot s') = (trace (bot s) ++ l)%list /\
    (length (commits_for order_id l) <= 1)%nat /\
    (order_id ∈ processed_orders s -> transactions_for order_id l = []) /\
    (transactions_for order_id l <> [] -> order_id ∈ processed_orders s').

End AutoSolver.

(** ** The oracle service *)

Module Oracle.

Local Open Scope Z_scope.

(** What [getVerificationRequest(order_id).call()] gives, by the keys
    of [get_verification_request]. *)
Record Request : Type := mkRequest {
  solution : string;
  problem_type : Z;
  request_time : Z;
  is_processed : bool;
  is_correct : bool;
  verification_reason : string
}.

(** [class OracleService], and the verdicts it has handed to
    [submit_verification], in order. *)
Record State : Type := mkState {
  processed_orders : gset Z;
  submitted : list (Z * bool * string)
}.

Section WithNode.

(** [OPENAI_API_KEY = os.getenv('OPENAI_API_KEY')] *)
Variable OPENAI_API_KEY : option string.

(** [verify_with_sympy], which reads the function and the answer out of
    the texts with regular expressions and compares them in SymPy: a
    verdict ([None]: inconclusive) and a reason. *)
Variable verify_with_sympy : Z -> string -> string -> option bool * string.

(** The model's reply to the verification prompt,
    [response.choices[0].message.content.strip()], or what the call
    raises; the verdict word that the first regular expression finds in
    a reply ([true] for CORRECT, in any letter case), and the reason
    that the second finds. *)
Variable create : Z -> string -> string -> result string.
Variable verdict_match : string -> option bool.
Variable reason_match : string -> option string.

(** [verify_with_gpt] *)
Definition verify_with_gpt (problem_type : Z) (problem_text solution : string)
    : option bool * string :=
  if negb (BotServer.truthy OPENAI_API_KEY) then (None, "OpenAI API key not configured")
  else
    match create problem_type problem_text solution with
    | Ok content =>
        match verdict_match content with
        | Some is_correct =>
            (Some is_correct,
             "GPT: " ++ default "GPT verification" (reason_match content))
        | None => (None, "GPT response format error")
        end
    | Raise e => (None, "GPT error: " ++ e)
    end.

(** [str(b)] *)
Definition str_bool (b : bool) : string := if b then "True" else "False".

(** [verify_solution] *)
Definition verify_solution (problem_type : Z) (problem_text solution : string)
    : bool * string :=
  let '(sympy_result, sympy_reason) :=
    verify_with_sympy problem_type problem_text solution in
  let '(gpt_result, gpt_reason) := verify_with_gpt problem_type problem_text solution in
  match sympy_result, gpt_result with
  | Some s, Some g =>
      if Bool.eqb s g then (s, "Verified (SymPy + GPT agree): " ++ sympy_reason)
      else if s then (true, "SymPy correct, GPT disagrees: " ++ sympy_reason)
      else
        (false,
         "Conflict: SymPy=" ++ str_bool s ++ ", GPT=" ++ str_bool g ++
         ". Using SymPy result.")
  | Some s, None => (s, sympy_reason)
  | None, Some g => (g, gpt_reason)
  | None, None => (true, "Verification inconclusive, defaulting to correct (optimistic)")
  end.

(** [get_verification_request] ([None]: the call raised), and whether
    the transaction of [submit_verification] went through. *)
Variable get_verification_request : Z -> option Request.
Variable submit_verification : Z -> bool -> string -> bool.

(** [OracleService.process_order] *)
Definition process_order (order_id : Z) (problem_text : option string) (s : State)
    : State :=
  if bool_decide (order_id ∈ processed_orders s) then s
  else
    match get_verification_request order_id with
    | None => s
    | Some request =>
        if is_processed request then
          mkState ({[order_id]} ∪ processed_orders s) (submitted s)
        else
          let '(is_correct, reason) :=
            verify_solution (problem_type request) (default "" problem_text)
              (solution request) in
          let success := submit_verification order_id is_correct reason in
          mkState
            (if success then {[order_id]} ∪ processed_orders s else processed_orders s)
            (submitted s ++ [(order_id, is_correct, reason)])
    end.

End WithNode.

End Oracle.

(** ** The webhook of the bot server *)

Module Webhook.
Import Bot.

Local Open Scope Z_scope.
Local Open Scope m_scope.

(** What [receive_problem_webhook] records of the submission: the keys
    [commit_tx], [reveal_tx] and [chain_error] of [result] ([None]: not
    set), and [webhook_solution_status[order_id]] with its keys [status]
    and [reveal_tx]. *)
Record Chain : Type := mkChain {
  commit_tx : option string;
  reveal_tx : option string;
  chain_error : option string;
  status : string;
  status_reveal_tx : option string
}.

(** The bot with its SDK and node, and the record of the submission. *)
Record State : Type := mkState {
  bot : Bot.State;
  chain : Chain
}.

Definition Run (A : Type) : Type := M State A.

(** A call of the SDK. *)
Definition on_bot {A : Type} (m : Bot.Run A) : Run A :=
  fun s =>
    let '(r, b) := m (bot s) in
    (r, mkState b (chain s)).

Definition on_chain (f : Chain -> Chain) : Run unit :=
  fun s => (Ok tt, mkState (bot s) (f (chain s))).

(** [webhook_solution_status[order_id]['status'] = status] *)
Definition set_status (new_status : string) : Run unit :=
  on_chain (fun c =>
    mkChain (commit_tx c) (reveal_tx c) (chain_error c) new_status
      (status_reveal_tx c)).

(** [result['chain_error'] = e] *)
Definition set_chain_error (e : string) : Run unit :=
  on_chain (fun c =>
    mkChain (commit_tx c) (reveal_tx c) (Some e) (status c) (status_reveal_tx c)).

(** [logger.info(message)] and [logger.error(message)]: the console
    only. *)
Definition logger (level message : string) : Run unit :=
  on_bot (fun b =>
    (Ok tt,
     Bot.mkState (time b) (order_answers b) (tx_outcomes b) (trace b) (stats b)
       (logs b) (console b ++ [(level, message)]))).

(** [for retry in range(retries): ... break]; [false] is the [else] of
    the [for]. *)
Fixpoint poll (retries : nat) (order_id : Z) : Run bool :=
  match retries with
  | O => ret false
  | S retries' =>
      on_bot (sleep 3) ;;
      do check_order <- on_bot (get_order order_id);
      if is_COMMITTED (Bot.status check_order) then
        logger "info" "[WEBHOOK] Commit confirmed after retry" ;;
        ret true
      else poll retries' order_id
  end.

Section WithSdk.

Variable solidity_keccak : string -> string -> string.

(** The block [try: # Generate salt ... except Exception as chain_err]
    of [receive_problem_webhook], run when [submit_to_chain] is set and
    the SDK is there; [salt] is [os.urandom(32)]. *)
Definition submit_to_chain (order_id : Z) (solution salt : string) : Run unit :=
  try_except
    (set_status "committing" ;;
     logger "info" "[WEBHOOK] Committing solution" ;;
     do commit_receipt <- on_bot (commit_solution solidity_keccak order_id solution salt);
     on_chain (fun c =>
       mkChain (Some (tx_hash commit_receipt)) (reveal_tx c) (chain_error c) (status c)
         (status_reveal_tx c)) ;;
     logger "info" "[WEBHOOK] Commit TX" ;;
     do confirmed <-
       (if negb (success commit_receipt) then poll 3 order_id else ret true);
     if negb confirmed then
       set_chain_error "Commit may have failed" ;;
       set_status "commit_failed"
     else
       on_bot (sleep 2) ;;
       set_status "revealing" ;;
       logger "info" "[WEBHOOK] Revealing solution" ;;
       do reveal_receipt <- on_bot (reveal_solution order_id solution salt);
       on_chain (fun c =>
         mkChain (commit_tx c) (Some (tx_hash reveal_receipt)) (chain_error c)
           (status c) (status_reveal_tx c)) ;;
       logger "info" "[WEBHOOK] Reveal TX" ;;
       if success reveal_receipt then
         set_status "completed" ;;
         on_chain (fun c =>
           mkChain (commit_tx c) (reveal_tx c) (chain_error c) (status c)
             (Some (tx_hash reveal_receipt))) ;;
         logger "info" "[WEBHOOK] Order COMPLETED!" ;;
         on_bot (fun b =>
           (Ok tt,
            with_stats b
              (mkStats (orders_accepted (stats b)) (orders_solved (stats b) + 1)
                 (total_earned (stats b)))))
       else
         set_status "reveal_failed" ;;
         set_chain_error "Reveal may have failed")
    (fun chain_err =>
       logger "error" "[WEBHOOK] Chain submission error" ;;
       set_chain_error chain_err ;;
       set_status "chain_error").

End WithSdk.

End Webhook.
(** ** Concrete scenarios

    The inputs at which the properties below are exercised. *)

Module Scenarios.

Local Open Scope Z_scope.

(** Verifiers that answer with fixed judgments. *)
Definition fixed_solvers (a h : Verifier.VerificationResult)
    (e : Verifier.ChallengeEvaluation) : Verifier.Solvers :=
  Verifier.mkSolvers (fun _ _ _ => Ok a) (fun _ _ _ => Ok h) (fun _ _ _ _ => Ok e).

Definition judgment (correct : bool) (confidence : Q) : Verifier.VerificationResult :=
  Verifier.mkVerificationResult correct confidence None None.

Definition verify_request : Verifier.VerifyRequest :=
  Verifier.mkVerifyRequest 123 "Find the derivative of f(x) = x^2 + 3x" "2x + 3"
    Verifier.DERIVATIVE.

Definition challenge_request : Verifier.ChallengeRequest :=
  Verifier.mkChallengeRequest 123 "Find the limit of sin(x)/x as x approaches 0" "0"
    Verifier.LIMIT "The correct answer is 1, not 0".

(** Scenario D of the specification: both verifiers inconclusive, the
    challenger's argument not valid. *)
Definition scenario_D : Verifier.Solvers :=
  fixed_solvers (judgment false 0) (judgment false 0)
    (Verifier.mkChallengeEvaluation false "not convincing").

(** A SymPy that parses the problem and computes the expected solution
    but cannot parse the submitted one. *)
Definition sympy_submission_unparsed : Verifier.SympySolver.Sympy string :=
  Verifier.SympySolver.mkSympy
    (fun _ => Ok (Some "x**2 + 3*x"))
    (fun _ _ _ => Ok (Some "2*x + 3"))
    (fun _ => Ok None)
    (fun _ _ _ => Ok true)
    (fun e => e).


(** A runtime whose response models convert nothing: a value that has
    not the type of its field is refused. *)
Definition strict_python : Untyped.Python :=
  Untyped.mkPython (fun _ => "<value>")
    (fun _ => Raise "Input should be a valid boolean")
    (fun _ => Raise "Input should be a valid string").

(** The same model as [gpt_correct_0_4], its reply read field by field:
    the JSON object [{"is_correct": true, "confidence": 0.4,
    "expected_solution": "2x + 3", "reason": ...}]. *)
Definition gpt_replies_correct_0_4 : Untyped.GPTSolver.GPT :=
  Untyped.GPTSolver.mkGPT true (Some "sk-test")
    (fun _ => Ok (Some "reply"))
    (fun _ =>
       Untyped.GPTSolver.Document
         (Untyped.JObject
            [("is_correct", Untyped.JBool true);
             ("confidence", Untyped.JFloat (Verifier.GPTSolver.JFinite 0.4));
             ("expected_solution", Untyped.JString "2x + 3");
             ("reason", Untyped.JString "the derivative is 2x + 3")])).

(** A model that gives the expected solution as a number and finds the
    submission correct, confidence 0.9: the JSON object
    [{"is_correct": true, "confidence": 0.9, "expected_solution": 1}]. *)
Definition gpt_number_for_text : Untyped.GPTSolver.GPT :=
  Untyped.GPTSolver.mkGPT true (Some "sk-test")
    (fun _ => Ok (Some "reply"))
    (fun _ =>
       Untyped.GPTSolver.Document
         (Untyped.JObject
            [("is_correct", Untyped.JBool true);
             ("confidence", Untyped.JFloat (Verifier.GPTSolver.JFinite 0.9));
             ("expected_solution", Untyped.JInt 1)])).

(** A model unreachable for lack of a key. *)
Definition gpt_without_key : Untyped.GPTSolver.GPT :=
  Untyped.GPTSolver.mkGPT true None (fun _ => Ok (Some "reply"))
    (fun _ => Untyped.GPTSolver.JSONDecodeError "").

(** A node whose blocks carry no event; block [n] is stamped
    [12 * n]. *)
Definition quiet_node (head : Z) : Indexer.World :=
  Indexer.mkWorld (Ok head) (fun n => Ok (12 * n)) (fun _ _ _ => Ok []) 1700000000 None.

Definition empty_database : Indexer.Database := Indexer.mkDatabase true ∅ ∅ ∅.

(** A listener created with [start_block] and started. *)
Definition listener (start_block : Z) (db : Indexer.Database) : Indexer.EventListener :=
  Indexer.mkEventListener db start_block true start_block [] [].

Definition posted : Indexer.Event :=
  Indexer.mkEvent (Indexer.ProblemPostedArgs 1 "0xA11CE" 0 1 5000000) 5 "0xdead".

Definition accepted : Indexer.Event :=
  Indexer.mkEvent (Indexer.OrderAcceptedArgs 1 "0xB0B") 6 "0xbeef".

(** The store after [posted] has been indexed. *)
Definition one_order : Indexer.Database :=
  Indexer.database
    (snd (Indexer._handle_event (quiet_node 10) "ProblemPosted" posted
            (listener 0 empty_database))).

(** A node that holds [posted] in block 5 and times out when asked for
    the [OrderAccepted] logs of a range starting at block 0. *)
Definition flaky_node (head : Z) : Indexer.World :=
  Indexer.mkWorld (Ok head) (fun n => Ok (12 * n))
    (fun kind from_block to_block =>
       if (from_block =? 0) && String.eqb kind "OrderAccepted" then Raise "timeout"
       else if (from_block <=? 5) && (5 <=? to_block) && String.eqb kind "ProblemPosted"
            then Ok [posted]
            else Ok [])
    1700000000 None.

(** The bot, its address, and a stand-in for the digest. *)
Definition bot_address : string := "0xB07".

Definition digest (solution salt : string) : string :=
  ("keccak(" ++ solution ++ "," ++ salt ++ ")")%string.

(** Order 7 as the ledger reports it, with deadline 160. *)
Definition order_7 (status : Bot.OrderStatus) (solver : option string) : Bot.Order :=
  Bot.mkOrder 7 "0x155UER" "0xfeed" 0 1 status 5000000 100 160 solver.

(** The bot at time [time], facing a node that will answer [answers] to
    the order queries and deal with the transactions as [outcomes]. *)
Definition bot_state (time : Z) (answers : list (result Bot.Order))
    (outcomes : list Bot.TxOutcome) : Bot.State :=
  Bot.mkState time answers outcomes [] (Bot.mkStats 0 0 0) [] [].

(** The commit receipt cannot be fetched; the second reading of the
    order shows it COMMITTED. *)
Definition ambiguous_commit : Bot.State :=
  bot_state 120
    [Ok (order_7 Bot.ACCEPTED (Some "0xb07")); Ok (order_7 Bot.COMMITTED (Some "0xb07"))]
    [Bot.WaitRaises "0x01"; Bot.Receipt "0x02" 9 300000 1].

(** The webhook has solved order 7 and is about to submit, facing the
    node of [ambiguous_commit]. *)
Definition webhook_ambiguous_commit : Webhook.State :=
  Webhook.mkState ambiguous_commit (Webhook.mkChain None None None "solved" None).

(** The deadline has passed (time 200) and the order, which the ledger
    shows ACCEPTED, is never read again; both transactions are mined. *)
Definition past_deadline : Bot.State :=
  bot_state 200
    [Ok (order_7 Bot.ACCEPTED (Some "0xb07"))]
    [Bot.Receipt "0x01" 8 170000 1; Bot.Receipt "0x02" 9 300000 1].

(** The ledger shows the order OPEN, without solver, deadline passed. *)
Definition open_order : Bot.State :=
  bot_state 200 [Ok (order_7 Bot.OPEN None)] [Bot.Receipt "0x02" 9 300000 0].

(** Another solver was accepted in the meantime. *)
Definition other_solver : Bot.State :=
  bot_state 120
    [Ok (order_7 Bot.ACCEPTED (Some "0x0771E12"))]
    [Bot.Receipt "0x01" 8 170000 1; Bot.Receipt "0x02" 9 300000 1].

End Scenarios.

(** * Properties of the verifier *)

Module VerifierProps.
Import Verifier.

Local Open Scope Q_scope.

Lemma Qlt_bool_iff (x y : Q) : Qlt_bool x y = true <-> x < y.
Proof.
  unfold Qlt_bool. rewrite negb_true_iff, <- not_true_iff_false, Qle_bool_iff.
  split; [apply Qnot_le_lt | apply Qlt_not_le].
Qed.

Lemma Qlt_bool_false_iff (x y : Q) : Qlt_bool x y = false <-> y <= x.
Proof.
  unfold Qlt_bool. rewrite negb_false_iff. apply Qle_bool_iff.
Qed.

Lemma Qle_bool_false_iff (x y : Q) : Qle_bool x y = false <-> y < x.
Proof.
  rewrite <- not_true_iff_false, Qle_bool_iff.
  split; [apply Qnot_le_lt | apply Qlt_not_le].
Qed.

(** Python's [min] and [max] agree with the mathematical ones. *)
Lemma py_min_Qmin (a b : Q) : py_min a b == Qmin a b.
Proof.
  unfold py_min. destruct (Qlt_bool b a) eqn:E.
  - apply Qlt_bool_iff in E. symmetry. apply Q.min_r. lra.
  - apply Qlt_bool_false_iff in E. symmetry. apply Q.min_l. exact E.
Qed.

Lemma py_max_Qmax (a b : Q) : py_max a b == Qmax a b.
Proof.
  unfold py_max. destruct (Qlt_bool a b) eqn:E.
  - apply Qlt_bool_iff in E. symmetry. apply Q.max_r. lra.
  - apply Qlt_bool_false_iff in E. symmetry. apply Q.max_l. exact E.
Qed.

Lemma py_min_cases (a b : Q) :
  (b < a /\ py_min a b = b) \/ (a <= b /\ py_min a b = a).
Proof.
  unfold py_min. destruct (Qlt_bool b a) eqn:E.
  - left. split; [now apply Qlt_bool_iff | reflexivity].
  - right. split; [now apply Qlt_bool_false_iff | reflexivity].
Qed.

Lemma py_max_cases (a b : Q) :
  (a < b /\ py_max a b = b) \/ (b <= a /\ py_max a b = a).
Proof.
  unfold py_max. destruct (Qlt_bool a b) eqn:E.
  - left. split; [now apply Qlt_bool_iff | reflexivity].
  - right. split; [now apply Qlt_bool_false_iff | reflexivity].
Qed.

(** Turns the boolean tests on confidences met in a goal or its
    hypotheses into inequalities. *)
Ltac tests_to_Q :=
  repeat match goal with
  | H : Qlt_bool _ _ = true |- _ => apply Qlt_bool_iff in H
  | H : Qlt_bool _ _ = false |- _ => apply Qlt_bool_false_iff in H
  | H : Qle_bool _ _ = true |- _ => apply Qle_bool_iff in H
  | H : Qle_bool _ _ = false |- _ => apply Qle_bool_false_iff in H
  end.

(** *** The chain of [determine_outcome] is the decision table *)

Lemma determine_outcome_first_match
    (a h : VerificationResult) (e : ChallengeEvaluation) :
  fst (fst (determine_outcome a h e)) = fst (first_match spec_decision_table a h e) /\
  snd (fst (determine_outcome a h e)) == snd (first_match spec_decision_table a h e).
Proof.
  unfold determine_outcome, spec_decision_table, first_match, spec_default_row,
    both_confident, condition, outcome.
  destruct (is_correct a), (is_correct h),
    (Qlt_bool 0.8 (confidence a)), (Qlt_bool 0.8 (confidence h)),
    (Qlt_bool 0.9 (confidence a)), (Qlt_bool 0.9 (confidence h)),
    (is_valid e); cbn; split; reflexivity.
Qed.

(** C1.  For every challenge request whose three judgments are returned,
    [process_challenge] answers with a verdict, and its [challenger_wins]
    and [confidence] are those of the first matching row, read top to
    bottom, of the six-row decision table of the specification: both
    above 0.8 and incorrect, challenger wins at 0.95; both above 0.8 and
    correct, challenger loses at 0.95; Analytic above 0.9, follow it at
    its confidence times 0.9; Heuristic above 0.9, follow it at its
    confidence times 0.85; the challenger's argument valid, challenger
    wins at 0.70; otherwise challenger loses at 0.60. *)
Theorem process_challenge_first_matching_row
    (solvers : Solvers) (request : ChallengeRequest) (calls : list Call)
    (a h : VerificationResult) (e : ChallengeEvaluation)
    (Ha : sympy_verify solvers (c_problem request) (submitted_solution request)
            (c_problem_type request) = Ok a)
    (Hh : gpt_verify solvers (c_problem request) (submitted_solution request)
            (c_problem_type request) = Ok h)
    (He : gpt_evaluate_challenge solvers (c_problem request)
            (submitted_solution request) (challenger_reason request)
            (c_problem_type request) = Ok e) :
  exists response,
    fst (process_challenge solvers request calls) = Http200 response /\
    challenger_wins response = fst (first_match spec_decision_table a h e) /\
    r_confidence response == snd (first_match spec_decision_table a h e).
Proof.
  unfold process_challenge, process_challenge_body, bind, await, ret.
  rewrite Ha, Hh, He.
  destruct (determine_outcome_first_match a h e) as [Hw Hc].
  destruct (determine_outcome a h e) as [[wins conf] extra]. cbn in *.
  eexists. split; [reflexivity |]. cbn. split; assumption.
Qed.

Lemma process_challenge_first_matching_row_witness :
  exists response,
    fst (process_challenge Scenarios.scenario_D Scenarios.challenge_request []) =
      Http200 response /\
    challenger_wins response = false /\
    r_confidence response == 0.60.
Proof.
  exact (process_challenge_first_matching_row Scenarios.scenario_D
           Scenarios.challenge_request [] (Scenarios.judgment false 0)
           (Scenarios.judgment false 0)
           (mkChallengeEvaluation false "not convincing")
           eq_refl eq_refl eq_refl).
Defined.

(** C2.  When the Analytic (SymPy) verifier answers with a confidence of
    at least 0.9, [verify_solution] returns that judgment verbatim (its
    correctness, confidence, expected solution and reason) under the
    analytic method tag, which the code spells ["sympy"], and the only call
    it makes is the one to the Analytic verifier: the Heuristic (GPT)
    verifier is not consulted.  In particular (scenario A) Analytic
    (correct, 0.95) with a Heuristic verifier that would say
    (correct, 0.3) gives (correct, 0.95) under the analytic tag. *)
Theorem verify_solution_analytic_verbatim
    (solvers : Solvers) (request : VerifyRequest) (calls : list Call)
    (a : VerificationResult)
    (Ha : sympy_verify solvers (problem request) (solution request)
            (problem_type request) = Ok a)
    (Hc : 0.9 <= confidence a) :
  verify_solution solvers request calls =
    (Http200 (mkVerifyResponse (order_id request) (is_correct a) (confidence a)
                "sympy" (expected_solution a) (reason a)),
     (calls ++ [SympyVerify])%list) /\
  (forall h : VerificationResult,
      gpt_verify solvers (problem request) (solution request)
        (problem_type request) = Ok h ->
      is_correct a = true -> confidence a = 0.95 ->
      is_correct h = true -> confidence h = 0.3 ->
      exists response,
        fst (verify_solution solvers request calls) = Http200 response /\
        v_is_correct response = true /\
        v_confidence response = 0.95 /\
        method response = "sympy").
Proof.
  assert (E : verify_solution solvers request calls =
    (Http200 (mkVerifyResponse (order_id request) (is_correct a) (confidence a)
                "sympy" (expected_solution a) (reason a)),
     (calls ++ [SympyVerify])%list)).
  { unfold verify_solution, verify_solution_body, bind, await, ret.
    rewrite Ha. apply Qle_bool_iff in Hc. rewrite Hc. reflexivity. }
  split; [exact E |].
  intros h _ Hca Hqa _ _. rewrite E. cbn.
  eexists. split; [reflexivity |]. cbn. auto.
Qed.

Lemma verify_solution_analytic_verbatim_witness :
  verify_solution
    (Scenarios.fixed_solvers (Scenarios.judgment true 0.95)
       (Scenarios.judgment true 0.3) (mkChallengeEvaluation false ""))
    Scenarios.verify_request [] =
  (Http200 (mkVerifyResponse 123 true 0.95 "sympy" None None), [SympyVerify]).
Proof.
  refine (proj1 (verify_solution_analytic_verbatim
           (Scenarios.fixed_solvers (Scenarios.judgment true 0.95)
              (Scenarios.judgment true 0.3) (mkChallengeEvaluation false ""))
           Scenarios.verify_request [] (Scenarios.judgment true 0.95)
           eq_refl _)).
  cbn. unfold Qle. cbn. lia.
Defined.

(** C3.  When the Analytic confidence is below 0.9 and both confidences
    are strictly positive, [verify_solution] answers as follows.  If the
    two verifiers agree on correctness: that correctness, confidence
    min(1, (cA + cH) / 1.5), the combined method tag ["sympy+gpt"].  If
    they disagree: the judgment of the verifier with the higher
    confidence, that confidence times 0.8, the method tagged
    ["(disputed)"]; with equal confidences the Heuristic one is taken. *)
Theorem verify_solution_merge
    (solvers : Solvers) (request : VerifyRequest) (calls : list Call)
    (a h : VerificationResult)
    (Ha : sympy_verify solvers (problem request) (solution request)
            (problem_type request) = Ok a)
    (Hh : gpt_verify solvers (problem request) (solution request)
            (problem_type request) = Ok h)
    (Hlow : confidence a < 0.9)
    (Hposa : 0 < confidence a)
    (Hposh : 0 < confidence h) :
  exists response,
    fst (verify_solution solvers request calls) = Http200 response /\
    (is_correct a = is_correct h ->
       v_is_correct response = is_correct a /\
       v_is_correct response = is_correct h /\
       v_confidence response == Qmin 1 ((confidence a + confidence h) / 1.5) /\
       method response = "sympy+gpt") /\
    (is_correct a <> is_correct h ->
       (confidence h < confidence a ->
          v_is_correct response = is_correct a /\
          v_confidence response == confidence a * 0.8 /\
          method response = "sympy (disputed)") /\
       (confidence a <= confidence h ->
          v_is_correct response = is_correct h /\
          v_confidence response == confidence h * 0.8 /\
          method response = "gpt (disputed)")).
Proof.
  unfold verify_solution, verify_solution_body, bind, await, ret.
  rewrite Ha. cbn.
  apply Qle_bool_false_iff in Hlow. rewrite Hlow.
  rewrite Hh. cbn.
  apply Qlt_bool_iff in Hposa, Hposh. rewrite Hposa, Hposh. cbn.
  destruct (Bool.eqb (is_correct a) (is_correct h)) eqn:Eagree.
  - apply eqb_prop in Eagree.
    eexists. split; [reflexivity |]. cbn. split.
    + intros _. repeat split; auto.
      rewrite py_min_Qmin.
      destruct (Q.min_spec 1.0 ((confidence a + confidence h) / 1.5)) as [[? E1]|[? E1]],
        (Q.min_spec 1 ((confidence a + confidence h) / 1.5)) as [[? E2]|[? E2]];
        rewrite E1, E2; lra.
    + intros Hne. contradiction.
  - apply eqb_false_iff in Eagree.
    destruct (Qlt_bool (confidence h) (confidence a)) eqn:Ehigher.
    + eexists. split; [reflexivity |]. cbn. split; [intros; contradiction |].
      intros _. split.
      * intros _. repeat split; reflexivity.
      * intros Hle. apply Qlt_bool_iff in Ehigher. lra.
    + eexists. split; [reflexivity |]. cbn. split; [intros; contradiction |].
      intros _. split.
      * intros Hlt. apply Qlt_bool_false_iff in Ehigher. lra.
      * intros _. repeat split; reflexivity.
Qed.

Lemma verify_solution_merge_witness :
  exists response,
    fst (verify_solution
           (Scenarios.fixed_solvers (Scenarios.judgment false 0.5)
              (Scenarios.judgment true 0.4) (mkChallengeEvaluation false ""))
           Scenarios.verify_request []) = Http200 response /\
    v_is_correct response = false /\
    v_confidence response == 0.4 /\
    method response = "sympy (disputed)".
Proof.
  destruct (verify_solution_merge
              (Scenarios.fixed_solvers (Scenarios.judgment false 0.5)
                 (Scenarios.judgment true 0.4) (mkChallengeEvaluation false ""))
              Scenarios.verify_request [] (Scenarios.judgment false 0.5)
              (Scenarios.judgment true 0.4) eq_refl eq_refl
              ltac:(cbn; unfold Qlt; cbn; lia)
              ltac:(cbn; unfold Qlt; cbn; lia)
              ltac:(cbn; unfold Qlt; cbn; lia))
    as (response & Hresp & _ & Hdis).
  exists response. split; [exact Hresp |].
  destruct Hdis as [Hhigh _]; [cbn; discriminate |].
  destruct Hhigh as (Hc & Hq & Hm); [cbn; unfold Qlt; cbn; lia |].
  repeat split; [exact Hc | | exact Hm].
  rewrite Hq. reflexivity.
Defined.

(** *** Confidences stay in the unit interval *)

Lemma determine_outcome_confidence (a h : VerificationResult)
    (e : ChallengeEvaluation) :
  0 <= confidence a <= 1 -> 0 <= confidence h <= 1 ->
  0 <= snd (fst (determine_outcome a h e)) <= 1.
Proof.
  intros Hca Hch. unfold determine_outcome.
  repeat match goal with
  | |- context [if ?b then _ else _] => destruct b eqn:?
  end; cbn; lra.
Qed.

(** Both engines keep the confidence in the unit interval when the
    verifiers do. *)
Lemma merged_confidence_bounds
    (solvers : Solvers)
    (Hsympy : forall p s t r, sympy_verify solvers p s t = Ok r ->
                0 <= confidence r <= 1)
    (Hgpt : forall p s t r, gpt_verify solvers p s t = Ok r ->
              0 <= confidence r <= 1) :
  (forall request calls response,
      fst (verify_solution solvers request calls) = Http200 response ->
      0 <= v_confidence response <= 1) /\
  (forall request calls response,
      fst (process_challenge solvers request calls) = Http200 response ->
      0 <= r_confidence response <= 1).
Proof.
  split; intros request calls response.
  - unfold verify_solution, verify_solution_body, bind, await, ret.
    destruct (sympy_verify solvers _ _ _) as [a|] eqn:Ha; [| discriminate].
    apply Hsympy in Ha.
    destruct (Qle_bool 0.9 (confidence a)).
    { cbn. intros [= <-]. exact Ha. }
    destruct (gpt_verify solvers _ _ _) as [h|] eqn:Hh; [| discriminate].
    apply Hgpt in Hh.
    destruct (Qlt_bool 0 (confidence a) && Qlt_bool 0 (confidence h)).
    + destruct (Bool.eqb (is_correct a) (is_correct h)).
      * cbn. intros [= <-]. cbn [v_confidence].
        destruct (py_min_cases 1.0 ((confidence a + confidence h) / 1.5))
          as [[Hlt ->]|[Hle ->]];
          unfold Qdiv in *; change (/ 1.5) with (10 # 15) in *; lra.
      * destruct (Qlt_bool (confidence h) (confidence a));
          cbn; intros [= <-]; cbn; lra.
    + cbn. intros [= <-]. exact Hh.
  - unfold process_challenge, process_challenge_body, bind, await, ret.
    destruct (sympy_verify solvers _ _ _) as [a|] eqn:Ha; [| discriminate].
    destruct (gpt_verify solvers _ _ _) as [h|] eqn:Hh; [| discriminate].
    destruct (gpt_evaluate_challenge solvers _ _ _ _) as [e|]; [| discriminate].
    apply Hsympy in Ha. apply Hgpt in Hh.
    pose proof (determine_outcome_confidence a h e Ha Hh) as Hd.
    destruct (determine_outcome a h e) as [[wins conf] extra].
    cbn in *. intros [= <-]. exact Hd.
Qed.


(** C4.  Provided every judgment of the two verifiers carries a
    confidence in [0, 1], the confidence in the answer of the verification
    consensus engine ([verify_solution]) and in the answer of the
    challenge resolution engine ([process_challenge]) lies in [0, 1], for
    every request. *)
Theorem consensus_confidence_in_unit_interval
    (solvers : Solvers)
    (Hsympy : forall p s t r, sympy_verify solvers p s t = Ok r ->
                0 <= confidence r <= 1)
    (Hgpt : forall p s t r, gpt_verify solvers p s t = Ok r ->
              0 <= confidence r <= 1) :
  (forall request calls response,
      fst (verify_solution solvers request calls) = Http200 response ->
      0 <= v_confidence response <= 1) /\
  (forall request calls response,
      fst (process_challenge solvers request calls) = Http200 response ->
      0 <= r_confidence response <= 1).
Proof. exact (merged_confidence_bounds solvers Hsympy Hgpt). Qed.

Lemma consensus_confidence_in_unit_interval_witness :
  0 <= 0.5 * 0.8 <= 1 /\
  (forall response,
      fst (verify_solution
             (Scenarios.fixed_solvers (Scenarios.judgment false 0.5)
                (Scenarios.judgment true 0.4) (mkChallengeEvaluation false ""))
             Scenarios.verify_request []) = Http200 response ->
      0 <= v_confidence response <= 1).
Proof.
  split; [split; unfold Qle; cbn; lia |].
  refine (proj1 (consensus_confidence_in_unit_interval
                   (Scenarios.fixed_solvers (Scenarios.judgment false 0.5)
                      (Scenarios.judgment true 0.4) (mkChallengeEvaluation false ""))
                   _ _) Scenarios.verify_request []).
  - intros p s t r [= <-]. split; unfold Qle; cbn; lia.
  - intros p s t r [= <-]. split; unfold Qle; cbn; lia.
Defined.

(** The verifiers of the service meet the proviso of C4. *)
Lemma SympySolver_verify_confidence {Expr : Type}
    (sympy : SympySolver.Sympy Expr) (p s : string) (t : ProblemType) :
  0 <= confidence (SympySolver.verify sympy p s t) <= 1.
Proof.
  unfold SympySolver.verify, SympySolver.verify_body, bind_result.
  destruct (SympySolver._parse_problem sympy p) as [[expr|]|]; cbn; try lra.
  destruct (SympySolver._compute_solution sympy expr t p) as [[expected|]|];
    cbn; try lra.
  destruct (SympySolver._parse_expression sympy s) as [[submitted|]|]; cbn; try lra.
  destruct (SympySolver._compare_expressions sympy submitted expected t) as [[|]|];
    cbn; lra.
Qed.

Lemma clamp_unit_interval (x : GPTSolver.JsonNumber) :
  0 <= GPTSolver.clamp x <= 1.
Proof.
  destruct x as [q| | |]; cbn; try lra.
  destruct (py_max_cases 0.0 q) as [[? ->]|[? ->]];
    [destruct (py_min_cases 1.0 q) as [[? ->]|[? ->]] |
     destruct (py_min_cases 1.0 0.0) as [[? ->]|[? ->]]]; lra.
Qed.

Lemma GPTSolver_verify_confidence
    (gpt : GPTSolver.GPT) (p s : string) (t : ProblemType) :
  0 <= confidence (GPTSolver.verify gpt p s t) <= 1.
Proof.
  unfold GPTSolver.verify.
  destruct (negb (GPTSolver.available gpt)); [cbn; lra |].
  destruct (GPTSolver._call_gpt gpt _) as [response|]; [| cbn; lra].
  destruct (GPTSolver.loads_verify gpt response) as [|result|]; try (cbn; lra).
  destruct (GPTSolver.j_confidence result) as [|x|]; cbn; try lra.
  - vm_compute. split; discriminate.
  - apply clamp_unit_interval.
Qed.

(** With the verifiers of the service, both engines always answer, and
    with a confidence in [0, 1]. *)
Corollary production_confidence_in_unit_interval {Expr : Type}
    (sympy : SympySolver.Sympy Expr) (gpt : GPTSolver.GPT) :
  (forall request calls,
      exists response,
        fst (verify_solution (production sympy gpt) request calls) = Http200 response /\
        0 <= v_confidence response <= 1) /\
  (forall request calls,
      exists response,
        fst (process_challenge (production sympy gpt) request calls) = Http200 response /\
        0 <= r_confidence response <= 1).
Proof.
  destruct (merged_confidence_bounds (production sympy gpt)) as [Hv Hc].
  - intros p s t r [= <-]. apply SympySolver_verify_confidence.
  - intros p s t r [= <-]. apply GPTSolver_verify_confidence.
  - split; intros request calls.
    + specialize (Hv request calls).
      destruct (fst (verify_solution (production sympy gpt) request calls))
        as [response|detail] eqn:E.
      * exists response. split; [reflexivity | apply Hv; reflexivity].
      * exfalso. revert E.
        unfold verify_solution, verify_solution_body, bind, await, ret. cbn.
        repeat match goal with
        | |- context [if ?b then _ else _] => destruct b
        end; discriminate.
    + specialize (Hc request calls).
      destruct (fst (process_challenge (production sympy gpt) request calls))
        as [response|detail] eqn:E.
      * exists response. split; [reflexivity | apply Hc; reflexivity].
      * exfalso. revert E.
        unfold process_challenge, process_challenge_body, bind, await, ret. cbn.
        destruct (determine_outcome _ _ _) as [[? ?] ?]. discriminate.
Qed.

(** *** A failing verifier *)


(** *** The service with replies of any type *)





Section Service.

Context {Expr : Type}.
Variable py : Untyped.Python.
Variable sympy : SympySolver.Sympy Expr.
Variable gpt : Untyped.GPTSolver.GPT.



End Service.




(** A reply that is a JSON object with a field of another type is no
    failure of the Heuristic verifier, which passes the value on; here
    the expected solution is the number 1, the Heuristic judgment
    prevails over a failed Analytic one, and the response model, which
    wants a text, refuses it: the request fails. *)
Example ill_typed_reply_fails_the_route :
  Untyped.GPTSolver.failure Scenarios.gpt_number_for_text
    (problem Scenarios.verify_request) (solution Scenarios.verify_request)
    (problem_type Scenarios.verify_request) = None /\
  Untyped.GPTSolver.verify Scenarios.gpt_number_for_text
    (problem Scenarios.verify_request) (solution Scenarios.verify_request)
    (problem_type Scenarios.verify_request) =
  Untyped.GPTSolver.mkVerificationResult (Untyped.JBool true) 0.9 (Untyped.JInt 1)
    Untyped.JNull /\
  Untyped.verify_solution Scenarios.strict_python Scenarios.sympy_submission_unparsed
    Scenarios.gpt_number_for_text Scenarios.verify_request [] =
  (Http500 "Verification failed: Input should be a valid string",
   [SympyVerify; GptVerify]).
Proof. repeat split. Qed.

(** A reply that is a JSON object without any of the fields is no
    failure either: the judgment is "incorrect" with confidence 0.5. *)
Example empty_reply_is_no_failure :
  let gpt :=
    Untyped.GPTSolver.mkGPT true (Some "sk-test") (fun _ => Ok (Some "{}"))
      (fun _ => Untyped.GPTSolver.Document (Untyped.JObject [])) in
  Untyped.GPTSolver.failure gpt "p" "s" DERIVATIVE = None /\
  Untyped.GPTSolver.is_correct (Untyped.GPTSolver.verify gpt "p" "s" DERIVATIVE) =
    Untyped.JBool false /\
  Untyped.GPTSolver.confidence (Untyped.GPTSolver.verify gpt "p" "s" DERIVATIVE) == 0.5.
Proof. repeat split. Qed.

End VerifierProps.

(** * Properties of the indexer *)

Module IndexerProps.
Import Indexer.

(** ** Idempotent replay *)

Lemma alter_idem {A : Type} (f : A -> A) (k : Z) (m : gmap Z A) :
  (forall x, f (f x) = f x) -> alter f k (alter f k m) = alter f k m.
Proof.
  intros Hf. apply map_eq. intros i. destruct (decide (k = i)) as [->|Hne].
  - rewrite !lookup_alter_eq. destruct (m !! i); cbn; [rewrite Hf |]; reflexivity.
  - rewrite !lookup_alter_ne by done. reflexivity.
Qed.

Lemma lookup_alter_None {A : Type} (f : A -> A) (k i : Z) (m : gmap Z A) :
  m !! i = None -> alter f k m !! i = None.
Proof.
  intros H. destruct (decide (k = i)) as [->|Hne].
  - rewrite lookup_alter_eq, H. reflexivity.
  - rewrite lookup_alter_ne by done. exact H.
Qed.

Lemma lookup_alter_Some {A : Type} (f : A -> A) (k i : Z) (m : gmap Z A) (x : A) :
  m !! i = Some x -> exists y, alter f k m !! i = Some y.
Proof.
  intros H. destruct (decide (k = i)) as [->|Hne].
  - rewrite lookup_alter_eq, H. eauto.
  - rewrite lookup_alter_ne by done. eauto.
Qed.

(** Unfolds the database statements of the handlers down to the tables. *)
Ltac run_statements :=
  unfold _handle_problem_posted_statements, _handle_order_accepted_statements,
    _handle_solution_committed_statements, _handle_solution_revealed_statements,
    _handle_challenge_submitted_statements, bind, call, ret,
    insert_order, update_order_status, insert_solution, insert_challenge,
    get_solution, with_orders, with_solutions, with_challenges, selected in *.

Ltac reduce_tables :=
  cbn [fst snd pool orders solutions challenges negb fmap option_fmap option_map
       Solution.order_id Challenge.order_id Order.id] in *.

(** One step through a run of statements: reduce, use what is known of
    the tables, or split on the next test the statements make. *)
Ltac table_step :=
  first
  [ progress reduce_tables
  | rewrite lookup_insert_eq
  | rewrite lookup_alter_eq
  | rewrite insert_insert_eq
  | rewrite alter_idem by reflexivity
  | match goal with
    | H : pool ?d = _ |- context [pool ?d] => rewrite H
    | H : ?m !! ?k = _ |- context [?m !! ?k] => rewrite H
    | H : ?m !! ?k = None |- context [alter ?f ?j ?m !! ?k] =>
        rewrite (lookup_alter_None f j k m H)
    | H : ?m !! ?k = Some ?x |- context [alter ?f ?j ?m !! ?k] =>
        let y := fresh "y" in
        let Hy := fresh "Hy" in
        destruct (lookup_alter_Some f j k m x H) as [y Hy]; rewrite Hy
    | |- context [match args_solution ?a with _ => _ end] =>
        destruct (args_solution a) eqn:?
    | |- context [match args_solver ?a with _ => _ end] =>
        destruct (args_solver a) eqn:?
    | |- context [match args_commitHash ?a with _ => _ end] =>
        destruct (args_commitHash a) eqn:?
    | |- context [match args_challenger ?a with _ => _ end] =>
        destruct (args_challenger a) eqn:?
    | |- context [match args_stake ?a with _ => _ end] =>
        destruct (args_stake a) eqn:?
    | |- context [match args_issuer ?a with _ => _ end] =>
        destruct (args_issuer a) eqn:?
    | |- context [match args_problemType ?a with _ => _ end] =>
        destruct (args_problemType a) eqn:?
    | |- context [match args_timeTier ?a with _ => _ end] =>
        destruct (args_timeTier a) eqn:?
    | |- context [match args_reward ?a with _ => _ end] =>
        destruct (args_reward a) eqn:?
    | |- context [if String.eqb ?a ?b then _ else _] =>
        destruct (String.eqb a b) eqn:?
    | |- context [pool ?d] => is_var d; destruct (pool d) eqn:?
    | |- context [_ <$> (?m ?d !! ?k)] => is_var d; destruct (m d !! k) eqn:?
    | |- context [match ?m ?d !! ?k with _ => _ end] =>
        is_var d; destruct (m d !! k) eqn:?
    end ].

Lemma problem_posted_twice (w w' : World) (ev : Event) (ts : Z) (tx : string)
    (db : Database) :
  snd (_handle_problem_posted_statements w' ev ts tx
         (snd (_handle_problem_posted_statements w ev ts tx db))) =
  snd (_handle_problem_posted_statements w ev ts tx db).
Proof. run_statements. repeat table_step; reflexivity. Qed.

Lemma order_accepted_twice (ev : Event) (ts : Z) (tx : string) (db : Database) :
  snd (_handle_order_accepted_statements ev ts tx
         (snd (_handle_order_accepted_statements ev ts tx db))) =
  snd (_handle_order_accepted_statements ev ts tx db).
Proof. run_statements. repeat table_step; reflexivity. Qed.

Lemma solution_committed_twice (ev : Event) (ts : Z) (tx : string) (db : Database) :
  snd (_handle_solution_committed_statements ev ts tx
         (snd (_handle_solution_committed_statements ev ts tx db))) =
  snd (_handle_solution_committed_statements ev ts tx db).
Proof. run_statements. repeat table_step; reflexivity. Qed.

Lemma solution_revealed_twice (ev : Event) (ts : Z) (tx : string) (db : Database) :
  snd (_handle_solution_revealed_statements ev ts tx
         (snd (_handle_solution_revealed_statements ev ts tx db))) =
  snd (_handle_solution_revealed_statements ev ts tx db).
Proof. run_statements. repeat table_step; reflexivity. Qed.

Lemma challenge_submitted_twice (ev : Event) (ts : Z) (tx : string) (db : Database) :
  snd (_handle_challenge_submitted_statements ev ts tx
         (snd (_handle_challenge_submitted_statements ev ts tx db))) =
  snd (_handle_challenge_submitted_statements ev ts tx db).
Proof. run_statements. repeat table_step; reflexivity. Qed.

(** The tables after [_handle_event]: those after the statements of the
    handler chosen by [event_type]; logging and the broadcast leave them
    alone, and so does a failure to fetch the block. *)
Lemma handle_event_database (w : World) (event_type : string) (ev : Event)
    (self : EventListener) :
  database (snd (_handle_event w event_type ev self)) =
  match eth_get_block w (blockNumber ev) with
  | Raise _ => database self
  | Ok ts =>
      let tx := transactionHash ev in
      snd ((if String.eqb event_type "ProblemPosted" then
              _handle_problem_posted_statements w ev ts tx
            else if String.eqb event_type "OrderAccepted" then
              _handle_order_accepted_statements ev ts tx
            else if String.eqb event_type "SolutionCommitted" then
              _handle_solution_committed_statements ev ts tx
            else if String.eqb event_type "SolutionRevealed" then
              _handle_solution_revealed_statements ev ts tx
            else if String.eqb event_type "ChallengeSubmitted" then
              _handle_challenge_submitted_statements ev ts tx
            else ret tt) (database self))
  end.
Proof.
  unfold _handle_event, try_except, bind, call.
  destruct (eth_get_block w (blockNumber ev)) as [ts|e]; [| reflexivity].
  cbn zeta.
  repeat match goal with
  | |- context [if String.eqb ?a ?b then _ else _] => destruct (String.eqb a b)
  end;
  unfold _handle_problem_posted, _handle_order_accepted, _handle_solution_committed,
    _handle_solution_revealed, _handle_challenge_submitted, on_database, bind,
    logger, ret;
  try match goal with
  | |- context [_handle_problem_posted_statements ?a ?b ?c ?d (database self)] =>
      destruct (_handle_problem_posted_statements a b c d (database self))
        as [[[]|e] db']
  | |- context [_handle_order_accepted_statements ?b ?c ?d (database self)] =>
      destruct (_handle_order_accepted_statements b c d (database self))
        as [[[]|e] db']
  | |- context [_handle_solution_committed_statements ?b ?c ?d (database self)] =>
      destruct (_handle_solution_committed_statements b c d (database self))
        as [[[]|e] db']
  | |- context [_handle_solution_revealed_statements ?b ?c ?d (database self)] =>
      destruct (_handle_solution_revealed_statements b c d (database self))
        as [[[]|e] db']
  | |- context [_handle_challenge_submitted_statements ?b ?c ?d (database self)] =>
      destruct (_handle_challenge_submitted_statements b c d (database self))
        as [[[]|e] db']
  end;
  cbn; destruct (on_new_event w) as [cb|]; cbn;
  try match goal with
  | |- context [cb ?t ?n] => destruct (cb t n)
  end; reflexivity.
Qed.

(** ** Immutable columns *)

Lemma keeps_orders_refl (db : Database) : keeps_orders db db.
Proof. intros id r H. exists r. repeat split; auto. Qed.

Lemma keeps_orders_trans (db1 db2 db3 : Database) :
  keeps_orders db1 db2 -> keeps_orders db2 db3 -> keeps_orders db1 db3.
Proof.
  intros H12 H23 id r Hr.
  destruct (H12 id r Hr) as (r2 & Hr2 & Hi2 & Hc2 & Hp2).
  destruct (H23 id r2 Hr2) as (r3 & Hr3 & Hi3 & Hc3 & Hp3).
  exists r3. repeat split; congruence.
Qed.

Lemma keeps_orders_same (db db' : Database) :
  orders db' = orders db -> keeps_orders db db'.
Proof. intros E id r H. exists r. rewrite E. repeat split; auto. Qed.

Lemma insert_order_keeps (now : Z) (o : Order.t) (db : Database) :
  keeps_orders db (snd (insert_order now o db)).
Proof.
  unfold insert_order. destruct (negb (pool db)); [apply keeps_orders_refl |].
  destruct (orders db !! Order.id o) as [existing|] eqn:E;
    cbn [snd]; unfold with_orders; intros id r Hr; cbn [orders].
  - destruct (decide (Order.id o = id)) as [<-|Hne].
    + rewrite lookup_insert_eq. eexists. split; [reflexivity |].
      rewrite E in Hr. injection Hr as <-. repeat split.
    + rewrite lookup_insert_ne by done. exists r. repeat split; auto.
  - destruct (decide (Order.id o = id)) as [<-|Hne]; [congruence |].
    rewrite lookup_insert_ne by done. exists r. repeat split; auto.
Qed.

Lemma alter_keeps (f : OrderRow -> OrderRow) (k : Z) (db : Database) :
  (forall r, same_immutable_columns r (f r)) ->
  keeps_orders db (with_orders db (alter f k (orders db))).
Proof.
  intros Hf id r Hr. unfold with_orders. cbn [orders].
  destruct (decide (k = id)) as [<-|Hne].
  - rewrite lookup_alter_eq, Hr. cbn. exists (f r). split; [reflexivity | apply Hf].
  - rewrite lookup_alter_ne by done. exists r. repeat split; auto.
Qed.

Lemma update_order_status_keeps (id status : Z) (solver : option string)
    (db : Database) :
  keeps_orders db (snd (update_order_status id status solver db)).
Proof.
  unfold update_order_status. destruct (negb (pool db)); [apply keeps_orders_refl |].
  destruct solver as [s|]; [destruct (String.eqb s "") |]; cbn [snd];
    apply alter_keeps; intros r; repeat split.
Qed.

Lemma insert_solution_keeps (s : Solution.t) (db : Database) :
  keeps_orders db (snd (insert_solution s db)).
Proof.
  unfold insert_solution. destruct (negb (pool db)); [apply keeps_orders_refl |].
  destruct (solutions db !! _); [apply keeps_orders_same; reflexivity |].
  destruct (orders db !! _); apply keeps_orders_same; reflexivity.
Qed.

Lemma insert_challenge_keeps (c : Challenge.t) (db : Database) :
  keeps_orders db (snd (insert_challenge c db)).
Proof.
  unfold insert_challenge. destruct (negb (pool db)); [apply keeps_orders_refl |].
  destruct (challenges db !! _); [apply keeps_orders_same; reflexivity |].
  destruct (orders db !! _); apply keeps_orders_same; reflexivity.
Qed.

Lemma get_solution_keeps (id : Z) (db : Database) :
  keeps_orders db (snd (get_solution id db)).
Proof.
  unfold get_solution. destruct (negb (pool db)); apply keeps_orders_refl.
Qed.

Lemma bind_keeps {A B : Type} (m : DB A) (k : A -> DB B) :
  (forall db, keeps_orders db (snd (m db))) ->
  (forall a db, keeps_orders db (snd (k a db))) ->
  forall db, keeps_orders db (snd (bind m k db)).
Proof.
  intros Hm Hk db. unfold bind. specialize (Hm db).
  destruct (m db) as [[a|e] db1]; cbn in *; [| exact Hm].
  eapply keeps_orders_trans; [exact Hm | apply Hk].
Qed.

Lemma call_keeps {A : Type} (r : result A) (db : Database) :
  keeps_orders db (snd (call r db)).
Proof. apply keeps_orders_refl. Qed.

Lemma ret_keeps {A : Type} (a : A) (db : Database) :
  keeps_orders db (snd (ret a db)).
Proof. apply keeps_orders_refl. Qed.

(** Walks through a run of statements with the lemmas above. *)
Ltac keeps :=
  repeat first
  [ apply bind_keeps; [| intros ? ]; intros
  | apply call_keeps | apply ret_keeps | apply insert_order_keeps
  | apply update_order_status_keeps | apply insert_solution_keeps
  | apply insert_challenge_keeps | apply get_solution_keeps
  | match goal with |- context [match ?x with _ => _ end] => destruct x end ].

Lemma handle_event_keeps (w : World) (event_type : string) (ev : Event)
    (self : EventListener) :
  keeps_orders (database self) (database (snd (_handle_event w event_type ev self))).
Proof.
  rewrite handle_event_database.
  destruct (eth_get_block w (blockNumber ev)) as [ts|e]; [| apply keeps_orders_refl].
  cbn zeta.
  repeat match goal with
  | |- context [if String.eqb ?a ?b then _ else _] => destruct (String.eqb a b)
  end;
  unfold _handle_problem_posted_statements, _handle_order_accepted_statements,
    _handle_solution_committed_statements, _handle_solution_revealed_statements,
    _handle_challenge_submitted_statements; cbn zeta;
  generalize (database self); keeps.
Qed.

Lemma handle_events_keep (events : list (World * string * Event))
    (self : EventListener) :
  keeps_orders (database self)
    (database
       (snd (for_each events (fun '(w, event_type, ev) => _handle_event w event_type ev)
               self))).
Proof.
  revert self. induction events as [|[[w event_type] ev] events IH]; intros self.
  - apply keeps_orders_refl.
  - cbn [for_each]. unfold bind.
    pose proof (handle_event_keeps w event_type ev self) as H1.
    destruct (_handle_event w event_type ev self) as [[[]|e] self1]; cbn in *.
    + eapply keeps_orders_trans; [exact H1 | apply IH].
    + exact H1.
Qed.

(** C6.  Applying the OrderStore mutation of a ledger event twice in
    succession leaves the tables as one application does, whatever the
    event, its tag and the store (the second delivery may even find
    another database clock and broadcast callback); and once an order
    exists, no sequence of later event applications, re-deliveries of
    earlier events included, changes its issuer, its creation time or
    its problem hash. *)
Theorem replay_idempotent_and_immutable_columns :
  (forall (w : World) (block_number' : result Z)
          (get_logs' : string -> Z -> Z -> result (list Event)) (now' : Z)
          (on_new_event' : option (string -> Notification -> result unit))
          (event_type : string) (ev : Event) (self : EventListener),
      let w' := mkWorld block_number' (eth_get_block w) get_logs' now' on_new_event' in
      let once := snd (_handle_event w event_type ev self) in
      database (snd (_handle_event w' event_type ev once)) = database once) /\
  (forall (events : list (World * string * Event)) (self : EventListener)
          (id : Z) (r : OrderRow),
      orders (database self) !! id = Some r ->
      exists r',
        orders
          (database
             (snd (for_each events
                     (fun '(w, event_type, ev) => _handle_event w event_type ev)
                     self))) !! id = Some r' /\
        Order.issuer (columns r') = Order.issuer (columns r) /\
        Order.created_at (columns r') = Order.created_at (columns r) /\
        Order.problem_hash (columns r') = Order.problem_hash (columns r)).
Proof.
  split.
  - intros w bn' gl' now' cb' event_type ev self w' once. subst once.
    rewrite !handle_event_database. subst w'. cbn [eth_get_block].
    destruct (eth_get_block w (blockNumber ev)) as [ts|e]; [| reflexivity].
    cbn zeta.
    repeat match goal with
    | |- context [if String.eqb ?a ?b then _ else _] => destruct (String.eqb a b)
    end.
    + apply problem_posted_twice.
    + apply order_accepted_twice.
    + apply solution_committed_twice.
    + apply solution_revealed_twice.
    + apply challenge_submitted_twice.
    + reflexivity.
  - intros events self id r Hr.
    exact (handle_events_keep events self id r Hr).
Qed.

Lemma replay_idempotent_and_immutable_columns_witness :
  exists r',
    orders
      (database
         (snd (for_each
                 [(Scenarios.quiet_node 10, "OrderAccepted", Scenarios.accepted);
                  (Scenarios.quiet_node 10, "ProblemPosted", Scenarios.posted)]
                 (fun '(w, event_type, ev) => _handle_event w event_type ev)
                 (Scenarios.listener 0 Scenarios.one_order)))) !! 1%Z = Some r' /\
    Order.issuer (columns r') = "0xA11CE" /\
    Order.created_at (columns r') = 60%Z /\
    Order.problem_hash (columns r') = "".
Proof.
  exact (proj2 replay_idempotent_and_immutable_columns
           [(Scenarios.quiet_node 10, "OrderAccepted", Scenarios.accepted);
            (Scenarios.quiet_node 10, "ProblemPosted", Scenarios.posted)]
           (Scenarios.listener 0 Scenarios.one_order) 1%Z
           (mkOrderRow
              (Order.mk 1 "0xA11CE" "" 0 1 0 "5000000" 60 60 None (Some "0xdead")
                 (Some 5%Z))
              1700000000)
           eq_refl).
Defined.

(** ** The ranges of the catch-up *)

Local Open Scope Z_scope.

Lemma chunks_from_enough (fuel1 fuel2 : nat) (from_block current_block : Z) :
  (Z.to_nat (current_block - from_block) <= fuel1)%nat ->
  (Z.to_nat (current_block - from_block) <= fuel2)%nat ->
  chunks_from fuel1 from_block current_block = chunks_from fuel2 from_block current_block.
Proof.
  revert fuel2 from_block.
  induction fuel1 as [|fuel1 IH]; intros fuel2 from_block H1 H2.
  - destruct fuel2 as [|fuel2]; [reflexivity |]. cbn.
    destruct (Z.ltb_spec from_block current_block); [lia | reflexivity].
  - cbn. destruct (Z.ltb_spec from_block current_block) as [Hlt|Hge].
    + destruct fuel2 as [|fuel2]; [lia |]. cbn.
      destruct (Z.ltb_spec from_block current_block); [| lia].
      f_equal. apply IH; unfold chunk_size; lia.
    + destruct fuel2 as [|fuel2]; [reflexivity |]. cbn.
      destruct (Z.ltb_spec from_block current_block); [lia | reflexivity].
Qed.

Lemma chunks_unfold (from_block current_block : Z) :
  chunks from_block current_block =
  if from_block <? current_block then
    (from_block, Z.min (from_block + chunk_size) current_block)
    :: chunks (Z.min (from_block + chunk_size) current_block + 1) current_block
  else [].
Proof.
  unfold chunks at 1.
  destruct (Z.ltb_spec from_block current_block) as [Hlt|Hge].
  - destruct (Z.to_nat (current_block - from_block)) as [|fuel] eqn:E; [lia |].
    cbn. destruct (Z.ltb_spec from_block current_block); [| lia].
    f_equal. apply chunks_from_enough; unfold chunk_size; lia.
  - destruct (Z.to_nat (current_block - from_block)); [reflexivity |].
    cbn. destruct (Z.ltb_spec from_block current_block); [lia | reflexivity].
Qed.

Lemma chunks_from_contiguous (fuel : nat) (from_block current_block : Z) :
  contiguous from_block (chunks_from fuel from_block current_block).
Proof.
  revert from_block. induction fuel as [|fuel IH]; intros from_block; cbn; [exact I |].
  destruct (Z.ltb_spec from_block current_block); cbn; [| exact I].
  repeat split; [unfold chunk_size; lia | apply IH].
Qed.

Lemma chunks_from_bounds (fuel : nat) (from_block current_block : Z) (c : Z * Z) :
  In c (chunks_from fuel from_block current_block) ->
  from_block <= fst c /\ fst c <= snd c <= fst c + chunk_size /\ snd c <= current_block.
Proof.
  revert from_block. induction fuel as [|fuel IH]; intros from_block; cbn; [tauto |].
  destruct (Z.ltb_spec from_block current_block); cbn; [| tauto].
  intros [<-|Hin]; cbn; unfold chunk_size in *; [lia |].
  apply IH in Hin. lia.
Qed.

Lemma chunks_from_full (fuel : nat) (from_block current_block : Z) (i : nat) (c : Z * Z) :
  chunks_from fuel from_block current_block !! i = Some c ->
  (S i < length (chunks_from fuel from_block current_block))%nat ->
  snd c = fst c + chunk_size.
Proof.
  revert from_block i. induction fuel as [|fuel IH]; intros from_block i; cbn; [discriminate |].
  destruct (Z.ltb_spec from_block current_block); cbn; [| discriminate].
  destruct i as [|i]; cbn.
  - intros [= <-] Hlen. cbn.
    destruct fuel as [|fuel]; cbn in Hlen; [lia |].
    destruct (Z.ltb_spec (Z.min (from_block + chunk_size) current_block + 1) current_block);
      cbn in Hlen; lia.
  - intros Hc Hlen. eapply IH; [exact Hc | lia].
Qed.

Lemma last_cons_default (m : list Z) (a d : Z) :
  List.last (a :: m) d = List.last m a.
Proof.
  revert a d. induction m as [|b m IH]; intros a d; [reflexivity |].
  change (List.last (a :: b :: m) d) with (List.last (b :: m) d).
  rewrite (IH b d), (IH b a). reflexivity.
Qed.

Lemma end_of_cons (c : Z * Z) (l : list (Z * Z)) (d : Z) :
  end_of (c :: l) d = end_of l (snd c).
Proof. unfold end_of. cbn [map]. apply last_cons_default. Qed.

Lemma chunks_from_end_ge (fuel : nat) (from_block current_block d : Z) :
  d < from_block ->
  d <= end_of (chunks_from fuel from_block current_block) d.
Proof.
  revert from_block d. induction fuel as [|fuel IH]; intros from_block d Hd;
    cbn [chunks_from]; [cbn; lia |].
  destruct (Z.ltb_spec from_block current_block); [| cbn; lia].
  rewrite end_of_cons. cbn [snd].
  pose proof (IH (Z.min (from_block + chunk_size) current_block + 1)
                 (Z.min (from_block + chunk_size) current_block)) as H1.
  unfold chunk_size in *. lia.
Qed.

Lemma chunks_from_count (fuel : nat) (from_block current_block b : Z) :
  length (List.filter (in_chunk b) (chunks_from fuel from_block current_block)) =
  if (from_block <=? b) && (b <=? end_of (chunks_from fuel from_block current_block) (from_block - 1))
  then 1%nat else 0%nat.
Proof.
  revert from_block. induction fuel as [|fuel IH]; intros from_block.
  - cbn. destruct (Z.leb_spec from_block b), (Z.leb_spec b (from_block - 1)); cbn; lia.
  - cbn [chunks_from].
    destruct (Z.ltb_spec from_block current_block) as [Hlt|Hge].
    2:{ cbn. destruct (Z.leb_spec from_block b), (Z.leb_spec b (from_block - 1)); cbn; lia. }
    rewrite end_of_cons. cbn [snd].
    set (to_block := Z.min (from_block + chunk_size) current_block) in *.
    assert (Hto : from_block <= to_block) by (unfold to_block, chunk_size; lia).
    pose proof (chunks_from_end_ge fuel (to_block + 1) current_block to_block ltac:(lia)) as Hend.
    specialize (IH (to_block + 1)).
    replace (to_block + 1 - 1) with to_block in IH by lia.
    cbn [List.filter]. unfold in_chunk at 1. cbn [fst snd].
    destruct (Z.leb_spec from_block b), (Z.leb_spec b to_block),
      (Z.leb_spec (to_block + 1) b),
      (Z.leb_spec b (end_of (chunks_from fuel (to_block + 1) current_block) to_block));
      cbn [andb length] in *; try lia; rewrite IH; reflexivity.
Qed.

Lemma chunks_end (from_block current_block : Z) :
  from_block < current_block ->
  end_of (chunks from_block current_block) (from_block - 1) =
  if (current_block - from_block) mod (chunk_size + 1) =? 0 then current_block - 1
  else current_block.
Proof.
  unfold chunks.
  remember (Z.to_nat (current_block - from_block)) as fuel eqn:Hfuel.
  assert (Hen : (Z.to_nat (current_block - from_block) <= fuel)%nat) by lia.
  clear Hfuel. revert from_block Hen.
  induction fuel as [|fuel IH]; intros from_block Hen Hlt; [lia |].
  cbn [chunks_from]. destruct (Z.ltb_spec from_block current_block); [| lia].
  rewrite end_of_cons. cbn [snd].
  set (to_block := Z.min (from_block + chunk_size) current_block) in *.
  destruct (Z.lt_ge_cases (to_block + 1) current_block) as [Hmore|Hdone].
  - specialize (IH (to_block + 1) ltac:(unfold to_block, chunk_size; lia) Hmore).
    replace (to_block + 1 - 1) with to_block in IH by lia. rewrite IH.
    assert (to_block = from_block + chunk_size) as -> by (unfold to_block, chunk_size in *; lia).
    replace (current_block - (from_block + chunk_size + 1))
      with (current_block - from_block + (-1) * (chunk_size + 1)) by lia.
    rewrite Z.mod_add by (unfold chunk_size; lia). reflexivity.
  - destruct fuel as [|fuel]; cbn [chunks_from].
    + unfold end_of. cbn.
      unfold to_block, chunk_size in *.
      destruct (Z.eqb_spec ((current_block - from_block) mod (1000 + 1)) 0) as [E|E];
        revert E; Z.div_mod_to_equations; lia.
    + destruct (Z.ltb_spec (to_block + 1) current_block); [lia |].
      unfold end_of. cbn.
      unfold to_block, chunk_size in *.
      destruct (Z.eqb_spec ((current_block - from_block) mod (1000 + 1)) 0) as [E|E];
        revert E; Z.div_mod_to_equations; lia.
Qed.

Lemma chunks_2499 (from_block : Z) :
  length (chunks from_block (from_block + 2499)) = 3%nat.
Proof.
  rewrite chunks_unfold. destruct (Z.ltb_spec from_block (from_block + 2499)); [| lia].
  unfold chunk_size. rewrite Z.min_l by lia.
  rewrite chunks_unfold.
  destruct (Z.ltb_spec (from_block + 1000 + 1) (from_block + 2499)); [| lia].
  unfold chunk_size. rewrite Z.min_l by lia.
  rewrite chunks_unfold.
  destruct (Z.ltb_spec (from_block + 1000 + 1 + 1000 + 1) (from_block + 2499)); [| lia].
  unfold chunk_size. rewrite Z.min_r by lia.
  rewrite chunks_unfold.
  destruct (Z.ltb_spec (from_block + 2499 + 1) (from_block + 2499)); [lia |].
  reflexivity.
Qed.

Lemma chunks_2500 (from_block : Z) :
  length (chunks from_block (from_block + 2500)) = 3%nat.
Proof.
  rewrite chunks_unfold. destruct (Z.ltb_spec from_block (from_block + 2500)); [| lia].
  unfold chunk_size. rewrite Z.min_l by lia.
  rewrite chunks_unfold. destruct (Z.ltb_spec (from_block + 1000 + 1) (from_block + 2500)); [| lia].
  unfold chunk_size. rewrite Z.min_l by lia.
  rewrite chunks_unfold. destruct (Z.ltb_spec (from_block + 1000 + 1 + 1000 + 1) (from_block + 2500)); [| lia].
  unfold chunk_size. rewrite Z.min_r by lia.
  rewrite chunks_unfold. destruct (Z.ltb_spec (from_block + 2500 + 1) (from_block + 2500)); [lia |].
  reflexivity.
Qed.

(** ** The catch-up loop *)

Lemma same_control_refl (self : EventListener) : same_control self self.
Proof. repeat split. Qed.

Lemma same_control_trans (s1 s2 s3 : EventListener) :
  same_control s1 s2 -> same_control s2 s3 -> same_control s1 s3.
Proof. unfold same_control. intuition congruence. Qed.

Lemma bind_control {A B : Type} (m : Task A) (k : A -> Task B) :
  (forall self, same_control self (snd (m self))) ->
  (forall a self, same_control self (snd (k a self))) ->
  forall self, same_control self (snd (bind m k self)).
Proof.
  intros Hm Hk self. unfold bind. specialize (Hm self).
  destruct (m self) as [[a|e] s1]; cbn in *; [| exact Hm].
  eapply same_control_trans; [exact Hm | apply Hk].
Qed.

Lemma try_except_control {A : Type} (body : Task A) (handler : string -> Task A) :
  (forall self, same_control self (snd (body self))) ->
  (forall e self, same_control self (snd (handler e self))) ->
  forall self, same_control self (snd (try_except body handler self)).
Proof.
  intros Hb Hh self. unfold try_except. specialize (Hb self).
  destruct (body self) as [[a|e] s1]; cbn in *; [exact Hb |].
  eapply same_control_trans; [exact Hb | apply Hh].
Qed.

Lemma on_database_control {A : Type} (statements : DB A) (self : EventListener) :
  same_control self (snd (on_database statements self)).
Proof.
  unfold on_database. destruct (statements (database self)). repeat split.
Qed.

Lemma for_each_control {A : Type} (xs : list A) (body : A -> Task unit) :
  (forall x self, same_control self (snd (body x self))) ->
  forall self, same_control self (snd (for_each xs body self)).
Proof.
  intros Hb. induction xs as [|x xs IH]; intros self; [apply same_control_refl |].
  cbn [for_each]. apply bind_control; [apply Hb | intros _; apply IH].
Qed.

Lemma handle_event_control (w : World) (event_type : string) (ev : Event)
    (self : EventListener) :
  same_control self (snd (_handle_event w event_type ev self)).
Proof.
  revert self. unfold _handle_event.
  apply try_except_control; [| intros; repeat split].
  apply bind_control; [intros; repeat split |]. intros ts.
  apply bind_control.
  - repeat match goal with
    | |- context [if String.eqb ?a ?b then _ else _] => destruct (String.eqb a b)
    end;
    try (apply bind_control; [apply on_database_control | intros; repeat split]).
    intros; repeat split.
  - intros _. destruct (on_new_event w) as [cb|]; [| intros; repeat split].
    apply bind_control; intros; repeat split.
Qed.

Lemma process_block_range_control (w : World) (from_block to_block : Z)
    (self : EventListener) :
  same_control self (snd (_process_block_range w from_block to_block self)).
Proof.
  revert self. unfold _process_block_range.
  apply try_except_control; [| intros; repeat split].
  do 5 (apply bind_control; [intros; repeat split | intros ?]).
  apply for_each_control. intros [event_type ev]. apply handle_event_control.
Qed.

(** A [try] whose [except] clause only logs never raises. *)
Lemma try_except_logger_ok (body : Task unit) (f : string -> LogRecord)
    (self : EventListener) :
  fst (try_except body (fun e => logger (f e)) self) = Ok tt.
Proof.
  unfold try_except. destruct (body self) as [[[]|e] s1]; reflexivity.
Qed.

Lemma process_block_range_ok (w : World) (from_block to_block : Z)
    (self : EventListener) :
  fst (_process_block_range w from_block to_block self) = Ok tt.
Proof. apply try_except_logger_ok. Qed.

Lemma process_chunk_spec (w : World) (c : Z * Z) (self : EventListener) :
  fst (process_chunk w c self) = Ok tt /\
  running (snd (process_chunk w c self)) = running self /\
  last_processed_block (snd (process_chunk w c self)) = snd c.
Proof.
  unfold process_chunk, bind.
  pose proof (process_block_range_ok w (fst c) (snd c) self) as Hok.
  pose proof (process_block_range_control w (fst c) (snd c) self) as (Hr & _ & _).
  destruct (_process_block_range w (fst c) (snd c) self) as [[[]|e] s1];
    cbn in *; [| discriminate].
  repeat split. exact Hr.
Qed.

Lemma for_each_chunks_spec (w : World) (l : list (Z * Z)) (self : EventListener) :
  fst (for_each l (process_chunk w) self) = Ok tt /\
  running (snd (for_each l (process_chunk w) self)) = running self /\
  last_processed_block (snd (for_each l (process_chunk w) self)) =
    end_of l (last_processed_block self).
Proof.
  revert self. induction l as [|c l IH]; intros self; [repeat split |].
  cbn [for_each]. unfold bind at 1 2 3. rewrite end_of_cons.
  destruct (process_chunk_spec w c self) as (Hok & Hrun & Hlpb).
  destruct (process_chunk w c self) as [[[]|e] s1]; cbn [fst snd] in *;
    [| discriminate].
  destruct (IH s1) as (Hok' & Hrun' & Hlpb').
  repeat split; congruence.
Qed.

(** The loop runs [process_chunk] over the ranges of [chunks_from]. *)
Lemma sync_loop_for_each (w : World) (fuel : nat) (from_block current_block : Z)
    (self : EventListener) :
  running self = true ->
  (Z.to_nat (current_block - from_block) <= fuel)%nat ->
  sync_loop w fuel from_block current_block self =
  for_each (chunks_from fuel from_block current_block) (process_chunk w) self.
Proof.
  revert from_block self. induction fuel as [|fuel IH]; intros from_block self Hrun Hfuel.
  - cbn. destruct (Z.ltb_spec from_block current_block); [lia | reflexivity].
  - cbn [sync_loop chunks_from]. rewrite Hrun.
    destruct (Z.ltb_spec from_block current_block) as [Hlt|Hge]; [| reflexivity].
    cbn [andb for_each].
    change (sync_chunk w from_block current_block)
      with (process_chunk w (from_block, Z.min (from_block + chunk_size) current_block)).
    unfold bind.
    destruct (process_chunk_spec w
                (from_block, Z.min (from_block + chunk_size) current_block) self)
      as (Hok & Hrun' & _).
    destruct (process_chunk w _ self) as [[[]|e] s1]; cbn in *; [| discriminate].
    apply IH; [congruence | unfold chunk_size; lia].
Qed.

(** What a catch-up that has something to do amounts to. *)
Lemma sync_historical_events_for_each (w : World) (self : EventListener)
    (current_block : Z) :
  eth_block_number w = Ok current_block ->
  running self = true ->
  last_processed_block self < current_block ->
  _sync_historical_events w self =
  (logger (info_syncing (last_processed_block self) current_block) ;;
   for_each (chunks (last_processed_block self) current_block) (process_chunk w) ;;
   fun self' => logger (info_sync_complete (last_processed_block self')) self')%M
    self.
Proof.
  intros Hhead Hrun Hbehind.
  unfold _sync_historical_events, bind at 1, call. rewrite Hhead.
  destruct (Z.geb_spec (last_processed_block self) current_block); [lia |].
  unfold bind, logger. cbn [fst snd].
  rewrite sync_loop_for_each; [reflexivity | exact Hrun | cbn; lia].
Qed.

Lemma contiguous_end_ge (start d : Z) (l : list (Z * Z)) (c : Z * Z) :
  contiguous start l -> In c l -> snd c <= end_of l d.
Proof.
  revert start d c. induction l as [|a l IH]; intros start d c Hl Hin;
    [destruct Hin |].
  destruct Hl as (_ & Ha & Hl). rewrite end_of_cons.
  destruct Hin as [<-|Hin]; [| eapply IH; eassumption].
  destruct l as [|b l]; [cbn; lia |].
  pose proof (IH (snd a + 1) (snd a) b Hl (or_introl eq_refl)) as Hb.
  destruct Hl as (Hb1 & Hb2 & _). lia.
Qed.

Lemma contiguous_NoDup (start : Z) (l : list (Z * Z)) :
  contiguous start l -> List.NoDup l /\ forall c, In c l -> start <= fst c.
Proof.
  revert start. induction l as [|a l IH]; intros start Hl.
  - split; [constructor | intros c []].
  - destruct Hl as (Ha1 & Ha2 & Hl). destruct (IH _ Hl) as [Hnd Hge]. split.
    + constructor; [| exact Hnd]. intros Hin. apply Hge in Hin. lia.
    + intros c [<-|Hin]; [lia |]. apply Hge in Hin. lia.
Qed.

(** C7, as stated, fails.  With the checkpoint at block 0 and the head at
    block 1001 the catch-up processes the single range of blocks 0 to
    1000, which holds 1001 blocks and not 1000, leaves block 1001 in no
    range, and ends with the checkpoint at 1000 and not at the head. *)
Lemma catch_up_stops_before_head :
  let self := Scenarios.listener 0 Scenarios.empty_database in
  let self' := snd (_sync_historical_events (Scenarios.quiet_node 1001) self) in
  chunks 0 1001 = [(0, 1000)] /\
  1000 - 0 + 1 <> chunk_size /\
  List.filter (in_chunk 1001) (chunks 0 1001) = [] /\
  last_processed_block self' = 1000 /\
  last_processed_block self' <> 1001.
Proof.
  cbv zeta. repeat split; try (vm_compute; congruence).
Qed.

(** What a catch-up does, range by range. *)
Lemma sync_historical_events_spec (w : World) (self : EventListener) (current_block : Z)
    (Hhead : eth_block_number w = Ok current_block)
    (Hrun : running self = true)
    (Hbehind : last_processed_block self < current_block) :
  let start := last_processed_block self in
  let ranges := chunks start current_block in
  let outcome := _sync_historical_events w self in
  outcome =
    (logger (info_syncing start current_block) ;;
     for_each ranges (process_chunk w) ;;
     fun self' => logger (info_sync_complete (last_processed_block self')) self')%M
      self /\
  fst outcome = Ok tt /\
  contiguous start ranges /\
  (forall i c, ranges !! i = Some c ->
     snd c <= fst c + chunk_size /\
     ((S i < length ranges)%nat -> snd c = fst c + chunk_size)) /\
  (forall b,
     length (List.filter (in_chunk b) ranges) =
     if (start <=? b) && (b <=? last_processed_block (snd outcome))
     then 1%nat else 0%nat) /\
  last_processed_block (snd outcome) = end_of ranges start /\
  last_processed_block (snd outcome) =
    (if (current_block - start) mod (chunk_size + 1) =? 0 then current_block - 1
     else current_block) /\
  (current_block - start = 2500 \/ current_block - start = 2499 ->
   length ranges = 3%nat).
Proof.
  intros start ranges outcome.
  pose proof (sync_historical_events_for_each w self current_block Hhead Hrun Hbehind)
    as Hsync. fold start ranges outcome in Hsync.
  destruct (for_each_chunks_spec w ranges
              (snd (logger (info_syncing start current_block) self)))
    as (Hok & _ & Hlpb).
  assert (Hend : last_processed_block (snd outcome) = end_of ranges start).
  { rewrite Hsync. unfold bind at 1. cbn [logger fst snd].
    unfold bind at 1.
    destruct (for_each ranges (process_chunk w) _) as [[[]|e] s1];
      cbn [fst snd] in *; [| discriminate].
    exact Hlpb. }
  assert (Hend' : end_of ranges start = end_of ranges (start - 1)).
  { unfold ranges. rewrite chunks_unfold.
    destruct (Z.ltb_spec start current_block); [| unfold start in *; lia].
    rewrite !end_of_cons. reflexivity. }
  repeat apply conj.
  - exact Hsync.
  - rewrite Hsync. unfold bind at 1. cbn [logger fst snd]. unfold bind at 1.
    destruct (for_each ranges (process_chunk w) _) as [[[]|e] s1];
      cbn [fst snd] in *; [reflexivity | discriminate].
  - apply chunks_from_contiguous.
  - intros i c Hc. split.
    + apply list_elem_of_lookup_2, list_elem_of_In, chunks_from_bounds in Hc. lia.
    + intros Hlen. eapply chunks_from_full; eassumption.
  - intros b. rewrite Hend, Hend'. apply chunks_from_count.
  - exact Hend.
  - rewrite Hend, Hend'. apply chunks_end. exact Hbehind.
  - unfold ranges. intros [H|H].
    + replace current_block with (start + 2500) by lia. apply chunks_2500.
    + replace current_block with (start + 2499) by lia. apply chunks_2499.
Qed.


(** C7, amended.  A catch-up that is not stopped and starts with the
    checkpoint below the head hands to the range handler, in this order
    and once each, the ranges [chunks start head]: they follow one
    another without gap or overlap from the starting checkpoint on, in
    increasing height; each runs from a block to the block [chunk_size]
    further at most, both included, and all but the last run exactly that
    far; every block from the starting checkpoint to the final one lies
    in exactly one range and no other block lies in any.  The checkpoint
    ends at the end of the last range, never above the head, and at the
    head whenever the distance from the starting checkpoint to the head
    is not a multiple of [chunk_size + 1].  A span of 2,500 blocks with
    chunk size 1,000 (head 2,500 or 2,499 above the checkpoint) makes
    exactly three ranges and leaves the checkpoint at the head. *)
Theorem catch_up_ranges (w : World) (self : EventListener) (current_block : Z)
    (Hhead : eth_block_number w = Ok current_block)
    (Hrun : running self = true)
    (Hbehind : last_processed_block self < current_block) :
  let start := last_processed_block self in
  let ranges := chunks start current_block in
  let outcome := _sync_historical_events w self in
  outcome =
    (logger (info_syncing start current_block) ;;
     for_each ranges (process_chunk w) ;;
     fun self' => logger (info_sync_complete (last_processed_block self')) self')%M
      self /\
  fst outcome = Ok tt /\
  contiguous start ranges /\
  (forall i c, ranges !! i = Some c ->
     snd c <= fst c + chunk_size /\
     ((S i < length ranges)%nat -> snd c = fst c + chunk_size)) /\
  (forall b,
     length (List.filter (in_chunk b) ranges) =
     if (start <=? b) && (b <=? last_processed_block (snd outcome))
     then 1%nat else 0%nat) /\
  last_processed_block (snd outcome) = end_of ranges start /\
  last_processed_block (snd outcome) <= current_block /\
  ((current_block - start) mod (chunk_size + 1) <> 0 ->
   last_processed_block (snd outcome) = current_block) /\
  (current_block - start = 2500 \/ current_block - start = 2499 ->
   length ranges = 3%nat /\ last_processed_block (snd outcome) = current_block).
Proof.
  intros start ranges outcome.
  destruct (sync_historical_events_spec w self current_block Hhead Hrun Hbehind)
    as (Hsync & Hok & Hcont & Hsize & Hcount & Hend & Hmod & Hthree).
  fold start ranges outcome in Hsync, Hok, Hcont, Hsize, Hcount, Hend, Hmod, Hthree.
  do 6 (split; [assumption |]).
  split; [rewrite Hmod; destruct (_ =? 0); lia |].
  split.
  - intros Hne. rewrite Hmod.
    destruct (Z.eqb_spec ((current_block - start) mod (chunk_size + 1)) 0);
      [contradiction | reflexivity].
  - intros H. split; [exact (Hthree H) |].
    rewrite Hmod. destruct H as [H|H]; rewrite H; reflexivity.
Qed.

Lemma catch_up_ranges_witness :
  length (chunks 0 2500) = 3%nat /\
  last_processed_block
    (snd (_sync_historical_events (Scenarios.quiet_node 2500)
            (Scenarios.listener 0 Scenarios.empty_database))) = 2500.
Proof.
  pose proof (catch_up_ranges (Scenarios.quiet_node 2500)
                (Scenarios.listener 0 Scenarios.empty_database) 2500
                eq_refl eq_refl ltac:(cbn; lia)) as H.
  cbv zeta in H. destruct H as (_ & _ & _ & _ & _ & _ & _ & _ & Hthree).
  apply Hthree. left. reflexivity.
Defined.

(** ** A range whose logs cannot be fetched *)

Lemma process_block_range_failure (w : World) (from_block to_block : Z)
    (kind e : string) (self : EventListener) :
  In kind fetched_events ->
  get_logs w kind from_block to_block = Raise e ->
  exists e',
    _process_block_range w from_block to_block self =
    (Ok tt, with_log self (log self ++ [error_processing_blocks from_block to_block e'])).
Proof.
  intros Hkind Hraise.
  unfold _process_block_range, try_except, bind, call, logger.
  destruct (get_logs w "ProblemPosted" from_block to_block) as [l1|e1] eqn:E1;
    [| eexists; reflexivity].
  destruct (get_logs w "OrderAccepted" from_block to_block) as [l2|e2] eqn:E2;
    [| eexists; reflexivity].
  destruct (get_logs w "SolutionCommitted" from_block to_block) as [l3|e3] eqn:E3;
    [| eexists; reflexivity].
  destruct (get_logs w "SolutionRevealed" from_block to_block) as [l4|e4] eqn:E4;
    [| eexists; reflexivity].
  destruct (get_logs w "ChallengeSubmitted" from_block to_block) as [l5|e5] eqn:E5;
    [| eexists; reflexivity].
  exfalso. unfold fetched_events in Hkind. cbn in Hkind.
  destruct Hkind as [<-|[<-|[<-|[<-|[<-|[]]]]]]; congruence.
Qed.

(** C10.  During a catch-up, when the handler of a range fails as a
    whole (one of its five log queries raises), the error is caught and
    logged and the tables are left as they were; the catch-up itself
    never raises; it hands each range of [chunks] to the handler once, in
    order, and sets the checkpoint to the end of each range whatever the
    handler did, so that the final checkpoint, the end of the last range
    and at or above the end of every range, does not depend on the
    failures; and every later turn of the tail loop starts one block
    above the checkpoint.  The events of
    a failed range are therefore never put into the mirror store. *)
Theorem failed_range_is_skipped (w : World) (self : EventListener)
    (current_block : Z)
    (Hhead : eth_block_number w = Ok current_block)
    (Hrun : running self = true)
    (Hbehind : last_processed_block self < current_block) :
  let start := last_processed_block self in
  let ranges := chunks start current_block in
  let outcome := _sync_historical_events w self in
  (forall from_block to_block kind e s,
      In kind fetched_events ->
      get_logs w kind from_block to_block = Raise e ->
      fst (_process_block_range w from_block to_block s) = Ok tt /\
      database (snd (_process_block_range w from_block to_block s)) = database s /\
      exists e',
        log (snd (_process_block_range w from_block to_block s)) =
        (log s ++ [error_processing_blocks from_block to_block e'])%list) /\
  fst outcome = Ok tt /\
  outcome =
    (logger (info_syncing start current_block) ;;
     for_each ranges (process_chunk w) ;;
     fun self' => logger (info_sync_complete (last_processed_block self')) self')%M
      self /\
  List.NoDup ranges /\
  (forall s c, last_processed_block (snd (process_chunk w c s)) = snd c) /\
  (forall c, In c ranges -> snd c <= last_processed_block (snd outcome)) /\
  last_processed_block (snd outcome) = end_of ranges start /\
  (forall w' s head,
      eth_block_number w' = Ok head ->
      last_processed_block s < head ->
      listen_turn w' s =
      (_process_block_range w' (last_processed_block s + 1) head ;;
       fun s' => (Ok tt, with_last_processed_block s' head))%M s).
Proof.
  intros start ranges outcome.
  destruct (sync_historical_events_spec w self current_block Hhead Hrun Hbehind)
    as (Hsync & Hok & Hcont & _ & Hcount & Hend & _ & _).
  fold start ranges outcome in Hsync, Hok, Hcont, Hcount, Hend.
  repeat apply conj.
  - intros from_block to_block kind e s Hkind Hraise.
    destruct (process_block_range_failure w from_block to_block kind e s Hkind Hraise)
      as [e' ->].
    cbn. repeat split. exists e'. reflexivity.
  - exact Hok.
  - exact Hsync.
  - apply (contiguous_NoDup start). exact Hcont.
  - intros s c. apply process_chunk_spec.
  - intros c Hc.
    assert (Hin : length (List.filter (in_chunk (snd c)) ranges) <> 0%nat).
    { intros Hnil. apply length_zero_iff_nil in Hnil.
      assert (Hf : In c (List.filter (in_chunk (snd c)) ranges)).
      { apply filter_In. split; [exact Hc |].
        apply (chunks_from_bounds _ _ _ c) in Hc. unfold in_chunk.
        apply andb_true_intro. split; apply Z.leb_le; lia. }
      rewrite Hnil in Hf. destruct Hf. }
    rewrite Hcount in Hin.
    destruct (Z.leb_spec start (snd c)),
      (Z.leb_spec (snd c) (last_processed_block (snd outcome)));
      cbn in Hin; congruence.
  - exact Hend.
  - intros w' s head Hh Hlt. unfold listen_turn, try_except, bind at 1, call.
    rewrite Hh.
    destruct (Z.gtb_spec head (last_processed_block s)); [| lia].
    unfold bind.
    pose proof (process_block_range_ok w' (last_processed_block s + 1) head s) as Hpok.
    destruct (_process_block_range w' (last_processed_block s + 1) head s)
      as [[[]|e] s1]; cbn in *; [reflexivity | discriminate].
Qed.

Lemma failed_range_is_skipped_witness :
  fst (_sync_historical_events (Scenarios.flaky_node 2500)
         (Scenarios.listener 0 Scenarios.empty_database)) = Ok tt /\
  last_processed_block
    (snd (_sync_historical_events (Scenarios.flaky_node 2500)
            (Scenarios.listener 0 Scenarios.empty_database))) = 2500.
Proof.
  pose proof (failed_range_is_skipped (Scenarios.flaky_node 2500)
                (Scenarios.listener 0 Scenarios.empty_database) 2500
                eq_refl eq_refl ltac:(cbn; lia)) as H.
  cbv zeta in H. destruct H as (_ & Hok & _ & _ & _ & _ & Hend & _).
  split; [exact Hok | rewrite Hend; reflexivity].
Defined.

(** The run behind the witness: the first range holds a [ProblemPosted]
    event but its [OrderAccepted] query times out; the error is logged,
    the order never reaches the store and the checkpoint goes on to the
    head. *)
Example failed_range_run :
  let self' :=
    snd (_sync_historical_events (Scenarios.flaky_node 2500)
           (Scenarios.listener 0 Scenarios.empty_database)) in
  log self' =
    [info_syncing 0 2500; error_processing_blocks 0 1000 "timeout";
     info_sync_complete 2500] /\
  orders (database self') = ∅ /\
  last_processed_block self' = 2500.
Proof. cbv zeta. repeat split; vm_compute; reflexivity. Qed.

End IndexerProps.

(** * Properties of the solver bot *)

Module BotProps.
Import Bot.

Local Open Scope Z_scope.

(** Runs the SDK calls and the log lines on the state at hand. *)
Ltac run_bot :=
  unfold commit_solution, reveal_solution, accept_order,
    compute_commit_hash, build_transaction, _send_transaction, get_order, sleep,
    add_log, time_remaining, bind, ret, raise, call, try_except, record,
    next_answer, next_outcome, with_stats, success in *;
  cbn [fst snd time order_answers tx_outcomes trace stats logs console tl
       tx_status] in *.

Lemma polls_S (n : nat) (order_id : Z) (l : list Effect) :
  (l ++ polls (S n) order_id = (l ++ [Slept 3]) ++ [GotOrder order_id] ++ polls n order_id)%list.
Proof. unfold polls. cbn. rewrite <- app_assoc. reflexivity. Qed.

Lemma bot_loop_poll_found (pending : list Order) :
  forall (n : nat) (committed : Order) (later : list (result Order))
         (order_id : Z) (s : State),
    order_answers s = (map Ok pending ++ Ok committed :: later)%list ->
    Forall not_committed pending ->
    is_COMMITTED (status committed) = true ->
    (length pending < n)%nat ->
    exists s',
      bot_loop_poll n order_id s = (Ok true, s') /\
      trace s' = (trace s ++ polls (S (length pending)) order_id)%list /\
      order_answers s' = later /\ tx_outcomes s' = tx_outcomes s /\
      stats s' = stats s.
Proof.
  induction pending as [|o pending IH];
    intros n committed later order_id s Hans Hpend Hc Hn.
  - destruct n as [|n]; [cbn in Hn; lia |].
    cbn [bot_loop_poll]. run_bot. rewrite Hans. cbn [map app tl]. rewrite Hc.
    eexists. split; [reflexivity |]. cbn [trace order_answers tx_outcomes stats].
    repeat split. unfold polls. cbn. rewrite <- app_assoc. reflexivity.
  - destruct n as [|n]; [cbn in Hn; lia |].
    inversion Hpend as [|? ? Ho Hpend']; subst. unfold not_committed in Ho.
    cbn [bot_loop_poll]. run_bot. rewrite Hans. cbn [map app tl]. rewrite Ho.
    edestruct (IH n committed later order_id) as (s' & Hrun & Htr & Hoa & Htx & Hst);
      [| exact Hpend' | exact Hc | cbn in Hn; lia | rewrite Hrun ].
    + cbn [order_answers]. reflexivity.
    + exists s'. split; [reflexivity |]. cbn [trace tx_outcomes stats] in *.
      repeat split; try assumption. rewrite Htr. unfold polls.
      cbn [length repeat concat]. rewrite <- !app_assoc. reflexivity.
Qed.

Lemma bot_loop_poll_exhausted (pending : list Order) :
  forall (later : list (result Order)) (order_id : Z) (s : State),
    order_answers s = (map Ok pending ++ later)%list ->
    Forall not_committed pending ->
    exists s',
      bot_loop_poll (length pending) order_id s = (Ok false, s') /\
      trace s' = (trace s ++ polls (length pending) order_id)%list /\
      order_answers s' = later /\ tx_outcomes s' = tx_outcomes s /\
      stats s' = stats s.
Proof.
  induction pending as [|o pending IH]; intros later order_id s Hans Hpend.
  - cbn. exists s. unfold polls. cbn. rewrite app_nil_r. repeat split. exact Hans.
  - inversion Hpend as [|? ? Ho Hpend']; subst. unfold not_committed in Ho.
    cbn [length bot_loop_poll]. run_bot. rewrite Hans. cbn [map app tl]. rewrite Ho.
    edestruct (IH later order_id) as (s' & Hrun & Htr & Hoa & Htx & Hst);
      [| exact Hpend' | rewrite Hrun ].
    + cbn [order_answers]. reflexivity.
    + exists s'. split; [reflexivity |]. cbn [trace tx_outcomes stats] in *.
      repeat split; try assumption. rewrite Htr. unfold polls.
      cbn [length repeat concat]. rewrite <- !app_assoc. reflexivity.
Qed.

Lemma solve_and_submit_poll_found (pending : list Order) :
  forall (n : nat) (committed : Order) (later : list (result Order))
         (order_id : Z) (s : State),
    order_answers s = (map Ok pending ++ Ok committed :: later)%list ->
    Forall not_committed pending ->
    is_COMMITTED (status committed) = true ->
    (length pending < n)%nat ->
    exists s',
      solve_and_submit_poll n order_id s = (Ok true, s') /\
      trace s' = (trace s ++ polls (S (length pending)) order_id)%list /\
      order_answers s' = later /\ tx_outcomes s' = tx_outcomes s /\
      stats s' = stats s.
Proof.
  induction pending as [|o pending IH];
    intros n committed later order_id s Hans Hpend Hc Hn.
  - destruct n as [|n]; [cbn in Hn; lia |].
    cbn [solve_and_submit_poll]. run_bot. rewrite Hans. cbn [map app tl]. rewrite Hc.
    eexists. split; [reflexivity |]. cbn [trace order_answers tx_outcomes stats].
    repeat split. unfold polls. cbn. rewrite <- app_assoc. reflexivity.
  - destruct n as [|n]; [cbn in Hn; lia |].
    inversion Hpend as [|? ? Ho Hpend']; subst. unfold not_committed in Ho.
    cbn [solve_and_submit_poll]. run_bot. rewrite Hans. cbn [map app tl]. rewrite Ho.
    edestruct (IH n committed later order_id) as (s' & Hrun & Htr & Hoa & Htx & Hst);
      [| exact Hpend' | exact Hc | cbn in Hn; lia | rewrite Hrun ].
    + cbn [order_answers]. reflexivity.
    + exists s'. split; [reflexivity |]. cbn [trace tx_outcomes stats] in *.
      repeat split; try assumption. rewrite Htr. unfold polls.
      cbn [length repeat concat]. rewrite <- !app_assoc. reflexivity.
Qed.

Lemma solve_and_submit_poll_exhausted (pending : list Order) :
  forall (later : list (result Order)) (order_id : Z) (s : State),
    order_answers s = (map Ok pending ++ later)%list ->
    Forall not_committed pending ->
    exists s',
      solve_and_submit_poll (length pending) order_id s = (Ok false, s') /\
      trace s' = (trace s ++ polls (length pending) order_id)%list /\
      order_answers s' = later /\ tx_outcomes s' = tx_outcomes s /\
      stats s' = stats s.
Proof.
  induction pending as [|o pending IH]; intros later order_id s Hans Hpend.
  - cbn. exists s. unfold polls. cbn. rewrite app_nil_r. repeat split. exact Hans.
  - inversion Hpend as [|? ? Ho Hpend']; subst. unfold not_committed in Ho.
    cbn [length solve_and_submit_poll]. run_bot. rewrite Hans. cbn [map app tl].
    rewrite Ho.
    edestruct (IH later order_id) as (s' & Hrun & Htr & Hoa & Htx & Hst);
      [| exact Hpend' | rewrite Hrun ].
    + cbn [order_answers]. reflexivity.
    + exists s'. split; [reflexivity |]. cbn [trace tx_outcomes stats] in *.
      repeat split; try assumption. rewrite Htr. unfold polls.
      cbn [length repeat concat]. rewrite <- !app_assoc. reflexivity.
Qed.

(** A commit whose receipt reports failure: the transaction went out. *)
Lemma commit_solution_failure (solidity_keccak : string -> string -> string)
    (order_id : Z) (solution salt : string) (s : State)
    (outcome : TxOutcome) (rest : list TxOutcome) :
  tx_outcomes s = outcome :: rest ->
  reports_failure outcome ->
  exists receipt s1,
    commit_solution solidity_keccak order_id solution salt s = (Ok receipt, s1) /\
    success receipt = false /\
    trace s1 =
      (trace s ++ [Called (commitSolution order_id (solidity_keccak solution salt));
                   Sent (commitSolution order_id (solidity_keccak solution salt))])%list /\
    order_answers s1 = order_answers s /\ tx_outcomes s1 = rest /\
    stats s1 = stats s.
Proof.
  intros Htx Hfail. run_bot. rewrite Htx.
  destruct outcome as [e|e|h|h b g st]; cbn in Hfail; try contradiction.
  - do 2 eexists. split; [reflexivity |]. cbn. rewrite <- app_assoc. repeat split.
  - do 2 eexists. split; [reflexivity |]. cbn. rewrite <- app_assoc. repeat split.
    apply Z.eqb_neq. exact Hfail.
Qed.

(** [reveal_solution] begins by being called, whatever comes after. *)
Lemma reveal_solution_called (order_id : Z) (solution salt : string) (s : State) :
  exists tail,
    trace (snd (reveal_solution order_id solution salt s)) =
    (trace s ++ Called (revealSolution order_id solution salt) :: tail)%list.
Proof.
  run_bot. destruct (tx_outcomes s) as [|[e|e|h|h b g st] rest]; cbn;
    rewrite <- ?app_assoc; eexists; reflexivity.
Qed.

(** C8.  When the receipt of a commit reports failure the outcome is
    taken as ambiguous: the order is read again after a wait of three
    seconds, at most five times in [bot_loop] and three times in
    [AutoSolver.solve_and_submit].  If one of these readings shows the
    order COMMITTED, polling stops there, the commit counts as successful
    and the reveal is called (in [solve_and_submit] after one more wait).
    If all readings of the budget show another status, the attempt has
    failed ([solve_and_submit] returns [False]) and nothing follows the
    last reading: no reveal is called or sent. *)
Theorem failed_commit_receipt_is_repolled
    (solidity_keccak : string -> string -> string) (order : Order)
    (solution salt : string) (s : State)
    (outcome : TxOutcome) (rest : list TxOutcome)
    (Htx : tx_outcomes s = outcome :: rest)
    (Hfail : reports_failure outcome) :
  let commit := commitSolution (id order) (solidity_keccak solution salt) in
  let reveal := revealSolution (id order) solution salt in
  (forall pending committed later,
      order_answers s = (map Ok pending ++ Ok committed :: later)%list ->
      Forall not_committed pending ->
      is_COMMITTED (status committed) = true ->
      (length pending < 5)%nat ->
      exists tail,
        trace (snd (bot_loop_commit_reveal solidity_keccak order solution salt s)) =
        (trace s ++ [Called commit; Sent commit] ++
         polls (S (length pending)) (id order) ++ Called reveal :: tail)%list) /\
  (forall pending later,
      order_answers s = (map Ok pending ++ later)%list ->
      Forall not_committed pending ->
      length pending = 5%nat ->
      fst (bot_loop_commit_reveal solidity_keccak order solution salt s) = Ok tt /\
      trace (snd (bot_loop_commit_reveal solidity_keccak order solution salt s)) =
      (trace s ++ [Called commit; Sent commit] ++ polls 5 (id order))%list) /\
  (forall pending committed later,
      order_answers s = (map Ok pending ++ Ok committed :: later)%list ->
      Forall not_committed pending ->
      is_COMMITTED (status committed) = true ->
      (length pending < 3)%nat ->
      exists tail,
        trace (snd (solve_and_submit solidity_keccak (id order) (Ok solution) salt s)) =
        (trace s ++ [Called commit; Sent commit] ++
         polls (S (length pending)) (id order) ++
         Slept 3 :: Called reveal :: tail)%list) /\
  (forall pending later,
      order_answers s = (map Ok pending ++ later)%list ->
      Forall not_committed pending ->
      length pending = 3%nat ->
      fst (solve_and_submit solidity_keccak (id order) (Ok solution) salt s) = Ok false /\
      trace (snd (solve_and_submit solidity_keccak (id order) (Ok solution) salt s)) =
      (trace s ++ [Called commit; Sent commit] ++ polls 3 (id order))%list).
Proof.
  intros commit reveal.
  repeat apply conj.
  - intros pending committed later Hans Hpend Hc Hlen.
    unfold bot_loop_commit_reveal. unfold bind at 1.
    destruct (commit_solution_failure solidity_keccak (id order) solution salt s
                outcome rest Htx Hfail)
      as (receipt & s1 & -> & Hsucc & Htr1 & Hoa1 & Htx1 & Hst1).
    unfold bind at 1. unfold add_log at 1. cbn [fst snd].
    unfold bind at 1. rewrite Hsucc.
    unfold bind at 1. unfold add_log at 1. cbn [fst snd].
    unfold bind at 1.
    match goal with
    | |- context [bot_loop_poll 5 (id order) ?st] =>
        destruct (bot_loop_poll_found pending 5%nat committed later (id order) st)
          as (s2 & Hpoll & Htr2 & _);
          [cbn [order_answers]; rewrite Hoa1; exact Hans
          | exact Hpend | exact Hc | exact Hlen |]
    end.
    rewrite Hpoll. cbn [ret fst snd].
    unfold bind at 1. unfold add_log at 1. cbn [fst snd].
    unfold bind at 1.
    match goal with
    | |- context [reveal_solution ?i ?a ?b ?st] =>
        destruct (reveal_solution_called i a b st) as [tail Hrev];
        destruct (reveal_solution i a b st) as [[r|e] s3]
    end; cbn [fst snd trace] in *.
    + exists tail.
      destruct (success r); unfold bind, add_log, with_stats; cbn [fst snd trace];
        rewrite Hrev, Htr2; cbn [trace]; rewrite Htr1; fold commit reveal;
        rewrite <- !app_assoc; reflexivity.
    + exists tail. rewrite Hrev, Htr2. cbn [trace]. rewrite Htr1.
      fold commit reveal. rewrite <- !app_assoc. reflexivity.
  - intros pending later Hans Hpend Hlen.
    enough (H : exists s',
               bot_loop_commit_reveal solidity_keccak order solution salt s =
                 (Ok tt, s') /\
               trace s' =
                 (trace s ++ [Called commit; Sent commit] ++ polls 5 (id order))%list)
      by (destruct H as (s' & -> & Htr); split; [reflexivity | exact Htr]).
    unfold bot_loop_commit_reveal. unfold bind at 1.
    destruct (commit_solution_failure solidity_keccak (id order) solution salt s
                outcome rest Htx Hfail)
      as (receipt & s1 & -> & Hsucc & Htr1 & Hoa1 & Htx1 & Hst1).
    unfold bind at 1. unfold add_log at 1. cbn [fst snd].
    unfold bind at 1. rewrite Hsucc.
    unfold bind at 1. unfold add_log at 1. cbn [fst snd].
    unfold bind at 1.
    match goal with
    | |- context [bot_loop_poll 5 (id order) ?st] =>
        destruct (bot_loop_poll_exhausted pending later (id order) st)
          as (s2 & Hpoll & Htr2 & _);
          [cbn [order_answers]; rewrite Hoa1; exact Hans | exact Hpend |]
    end.
    rewrite Hlen in Hpoll, Htr2. rewrite Hpoll. cbn [ret fst snd].
    unfold bind, add_log, ret. cbn [fst snd trace].
    eexists. split; [reflexivity |]. cbn [trace]. rewrite Htr2. cbn [trace].
    rewrite Htr1. fold commit. rewrite <- !app_assoc. reflexivity.
  - intros pending committed later Hans Hpend Hc Hlen.
    unfold solve_and_submit, try_except. unfold bind at 1. unfold call at 1.
    unfold bind at 1. unfold add_log at 1. cbn [fst snd].
    unfold bind at 1.
    match goal with
    | |- context [commit_solution ?k ?i ?a ?b ?st] =>
        destruct (commit_solution_failure k i a b st outcome rest)
          as (receipt & s1 & -> & Hsucc & Htr1 & Hoa1 & Htx1 & Hst1);
          [exact Htx | exact Hfail |]
    end.
    cbn [trace order_answers] in Htr1, Hoa1.
    unfold bind at 1. unfold add_log at 1. cbn [fst snd].
    unfold bind at 1. rewrite Hsucc. cbn [negb].
    match goal with
    | |- context [solve_and_submit_poll 3 (id order) ?st] =>
        destruct (solve_and_submit_poll_found pending 3%nat committed later
                    (id order) st)
          as (s2 & Hpoll & Htr2 & _);
          [cbn [order_answers]; rewrite Hoa1; exact Hans
          | exact Hpend | exact Hc | exact Hlen |]
    end.
    rewrite Hpoll. cbn [negb fst snd].
    unfold bind at 1. unfold sleep at 1. cbn [fst snd].
    unfold bind at 1. unfold add_log at 1. cbn [fst snd].
    unfold bind at 1.
    match goal with
    | |- context [reveal_solution ?i ?a ?b ?st] =>
        destruct (reveal_solution_called i a b st) as [tail Hrev];
        destruct (reveal_solution i a b st) as [[r|e] s3]
    end; cbn [fst snd trace record] in *.
    + exists tail.
      destruct (success r); unfold bind, add_log, ret, with_stats;
        cbn [fst snd trace]; rewrite Hrev, Htr2; cbn [trace]; rewrite Htr1;
        fold commit reveal; rewrite <- !app_assoc; reflexivity.
    + exists tail. unfold bind, add_log, ret. cbn [fst snd trace].
      rewrite Hrev, Htr2. cbn [trace]. rewrite Htr1.
      fold commit reveal. rewrite <- !app_assoc. reflexivity.
  - intros pending later Hans Hpend Hlen.
    enough (H : exists s',
               solve_and_submit solidity_keccak (id order) (Ok solution) salt s =
                 (Ok false, s') /\
               trace s' =
                 (trace s ++ [Called commit; Sent commit] ++ polls 3 (id order))%list)
      by (destruct H as (s' & -> & Htr); split; [reflexivity | exact Htr]).
    unfold solve_and_submit, try_except. unfold bind at 1. unfold call at 1.
    unfold bind at 1. unfold add_log at 1. cbn [fst snd].
    unfold bind at 1.
    match goal with
    | |- context [commit_solution ?k ?i ?a ?b ?st] =>
        destruct (commit_solution_failure k i a b st outcome rest)
          as (receipt & s1 & -> & Hsucc & Htr1 & Hoa1 & Htx1 & Hst1);
          [exact Htx | exact Hfail |]
    end.
    cbn [trace order_answers] in Htr1, Hoa1.
    unfold bind at 1. unfold add_log at 1. cbn [fst snd].
    unfold bind at 1. rewrite Hsucc. cbn [negb].
    match goal with
    | |- context [solve_and_submit_poll 3 (id order) ?st] =>
        destruct (solve_and_submit_poll_exhausted pending later (id order) st)
          as (s2 & Hpoll & Htr2 & _);
          [cbn [order_answers]; rewrite Hoa1; exact Hans | exact Hpend |]
    end.
    rewrite Hlen in Hpoll, Htr2. rewrite Hpoll. cbn [negb fst snd].
    unfold bind, add_log, ret. cbn [fst snd trace].
    eexists. split; [reflexivity |]. cbn [trace]. rewrite Htr2. cbn [trace].
    rewrite Htr1. fold commit. rewrite <- !app_assoc. reflexivity.
Qed.

Lemma failed_commit_receipt_is_repolled_witness :
  exists tail,
    trace (snd (bot_loop_commit_reveal Scenarios.digest
                  (Scenarios.order_7 ACCEPTED (Some "0xb07")) "2x + 3" "salt"
                  Scenarios.ambiguous_commit)) =
    ([Called (commitSolution 7 "keccak(2x + 3,salt)");
      Sent (commitSolution 7 "keccak(2x + 3,salt)");
      Slept 3; GotOrder 7; Slept 3; GotOrder 7;
      Called (revealSolution 7 "2x + 3" "salt")] ++ tail)%list.
Proof.
  exact (proj1 (failed_commit_receipt_is_repolled Scenarios.digest
                  (Scenarios.order_7 ACCEPTED (Some "0xb07")) "2x + 3" "salt"
                  Scenarios.ambiguous_commit (WaitRaises "0x01")
                  [Receipt "0x02" 9 300000 1] eq_refl I)
           [Scenarios.order_7 ACCEPTED (Some "0xb07")]
           (Scenarios.order_7 COMMITTED (Some "0xb07")) []
           eq_refl
           (@List.Forall_cons _ not_committed
              (Scenarios.order_7 ACCEPTED (Some "0xb07")) []
              (eq_refl : not_committed (Scenarios.order_7 ACCEPTED (Some "0xb07")))
              (@List.Forall_nil _ _))
           eq_refl
           ltac:(cbn; lia)).
Defined.

(** The convenience method of the SDK is no polling path: on a commit
    receipt that reports failure it raises at once, reads nothing and
    calls no reveal. *)
Lemma submit_solution_failed_receipt
    (solidity_keccak : string -> string -> string) (order_id : Z)
    (solution salt : string) (s : State)
    (outcome : TxOutcome) (rest : list TxOutcome) :
  tx_outcomes s = outcome :: rest ->
  reports_failure outcome ->
  exists e s',
    submit_solution solidity_keccak order_id solution salt s = (Raise e, s') /\
    trace s' =
      (trace s ++ [Called (commitSolution order_id (solidity_keccak solution salt));
                   Sent (commitSolution order_id (solidity_keccak solution salt))])%list.
Proof.
  intros Htx Hfail.
  destruct (commit_solution_failure solidity_keccak order_id solution salt s
              outcome rest Htx Hfail)
    as (receipt & s1 & Hrun & Hsucc & Htr1 & _).
  unfold submit_solution, bind. rewrite Hrun, Hsucc. cbn.
  do 2 eexists. split; [reflexivity | exact Htr1].
Qed.

(** C8, as stated, fails.  [OminisSDK.submit_solution] submits a commit
    too, and takes a receipt that reports failure as final.  Here the
    receipt of the commit cannot be fetched while the ledger shows the
    order COMMITTED from the second reading on: [submit_solution] raises
    at once, the order is never read and no reveal is called. *)
Lemma submit_solution_takes_failure_as_final :
  tx_outcomes Scenarios.ambiguous_commit =
    [WaitRaises "0x01"; Receipt "0x02" 9 300000 1] /\
  reports_failure (WaitRaises "0x01") /\
  order_answers Scenarios.ambiguous_commit =
    [Ok (Scenarios.order_7 ACCEPTED (Some "0xb07"));
     Ok (Scenarios.order_7 COMMITTED (Some "0xb07"))] /\
  (exists e,
     fst (submit_solution Scenarios.digest 7 "2x + 3" "salt"
            Scenarios.ambiguous_commit) = Raise e) /\
  trace (snd (submit_solution Scenarios.digest 7 "2x + 3" "salt"
                Scenarios.ambiguous_commit)) =
    [Called (commitSolution 7 (Scenarios.digest "2x + 3" "salt"));
     Sent (commitSolution 7 (Scenarios.digest "2x + 3" "salt"))].
Proof.
  split; [reflexivity |]. split; [exact I |]. split; [reflexivity |].
  split; [eexists; reflexivity | reflexivity].
Qed.

(** ** Before the reveal *)

(** C5, as stated, fails.  [reveal_solution] sends the reveal for an
    order that the ledger shows OPEN, without solver and past its
    deadline, and never reads the order; and [bot_loop], for an order
    whose deadline has passed (no time remains) and which was last seen
    ACCEPTED, commits and then sends the reveal without reading the
    status again. *)
Lemma reveal_sent_without_preconditions :
  (hd (Raise "") (order_answers Scenarios.open_order) =
     Ok (Scenarios.order_7 OPEN None) /\
   fst (time_remaining (Scenarios.order_7 OPEN None) Scenarios.open_order) = Ok 0 /\
   trace (snd (reveal_solution 7 "2x + 3" "salt" Scenarios.open_order)) =
     [Called (revealSolution 7 "2x + 3" "salt");
      Sent (revealSolution 7 "2x + 3" "salt")]) /\
  (fst (time_remaining (Scenarios.order_7 ACCEPTED (Some "0xb07"))
          Scenarios.past_deadline) = Ok 0 /\
   trace (snd (bot_loop_submit Scenarios.bot_address Scenarios.digest
                 (Scenarios.order_7 ACCEPTED (Some "0xb07")) "2x + 3" "salt"
                 Scenarios.past_deadline)) =
     [GotOrder 7;
      Called (commitSolution 7 "keccak(2x + 3,salt)");
      Sent (commitSolution 7 "keccak(2x + 3,salt)");
      Slept 3;
      Called (revealSolution 7 "2x + 3" "salt");
      Sent (revealSolution 7 "2x + 3" "salt")]).
Proof. repeat split; vm_compute; reflexivity. Qed.

(** C5, amended.  [reveal_solution] checks nothing: once its
    transaction is built it is sent, without any reading of the order.
    In [bot_loop] the checks come before the commit: the order is read
    once, and when it has no solver or a solver other than the caller
    (letter case apart), or is already COMMITTED, the sequence stops there
    and neither commit nor reveal is called.  Otherwise the commit is
    sent and, its receipt reporting success, the reveal is called after a
    wait of three seconds, without another reading of the order and
    whatever time remains before the deadline. *)
Theorem reveal_guards (address : string)
    (solidity_keccak : string -> string -> string)
    (order : Order) (solution salt : string) (s : State) :
  let commit := commitSolution (id order) (solidity_keccak solution salt) in
  let reveal := revealSolution (id order) solution salt in
  (forall outcome rest,
      tx_outcomes s = outcome :: rest ->
      (forall e, outcome <> BuildRaises e) ->
      trace (snd (reveal_solution (id order) solution salt s)) =
        (trace s ++ [Called reveal; Sent reveal])%list /\
      order_answers (snd (reveal_solution (id order) solution salt s)) =
        order_answers s) /\
  (forall fresh later,
      order_answers s = Ok fresh :: later ->
      solver fresh = None \/
      (exists other, solver fresh = Some other /\
                     String.eqb (lower other) (lower address) = false) \/
      is_COMMITTED (status fresh) = true ->
      trace (snd (bot_loop_submit address solidity_keccak order solution salt s)) =
        (trace s ++ [GotOrder (id order)])%list) /\
  (forall fresh later accepted h b g rest,
      order_answers s = Ok fresh :: later ->
      solver fresh = Some accepted ->
      String.eqb (lower accepted) (lower address) = true ->
      is_COMMITTED (status fresh) = false ->
      tx_outcomes s = Receipt h b g 1 :: rest ->
      exists tail,
        trace (snd (bot_loop_submit address solidity_keccak order solution salt s)) =
        (trace s ++ [GotOrder (id order); Called commit; Sent commit; Slept 3;
                     Called reveal] ++ tail)%list).
Proof.
  intros commit reveal. repeat apply conj.
  - intros outcome rest Htx Hbuild. run_bot. rewrite Htx.
    destruct outcome as [e|e|h|h b g st]; cbn;
      try (rewrite <- app_assoc; split; reflexivity).
    exfalso. exact (Hbuild e eq_refl).
  - intros fresh later Hans Hguard.
    unfold bot_loop_submit. unfold bind at 1. unfold get_order. rewrite Hans.
    cbn [fst snd].
    destruct (solver fresh) as [accepted|] eqn:Hsolver.
    + destruct Hguard as [Hnone|[(other & Hother & Hne)|Hcommitted]];
        [discriminate | |].
      * injection Hother as <-. run_bot. rewrite Hne. cbn.
        destruct (_ <? 30); reflexivity.
      * run_bot. destruct (_ <? 30); cbn;
          destruct (negb (String.eqb (lower accepted) (lower address)));
          cbn; rewrite ?Hcommitted; reflexivity.
    + reflexivity.
  - intros fresh later accepted h b g rest Hans Hsolver Hsame Hnc Htx.
    destruct s as [now answers outcomes effects st lg cs].
    cbn [order_answers tx_outcomes trace] in *. subst answers outcomes.
    unfold bot_loop_submit, bot_loop_commit_reveal. run_bot.
    rewrite Hsolver, Hsame, Hnc.
    destruct (_ <? 30); cbn;
      destruct rest as [|[e|e|h'|h' b' g' st'] rest']; cbn;
      try destruct (st' =? 1);
      try destruct later as [|[o|e'] later'];
      cbn; rewrite <- ?app_assoc; cbn; eexists; reflexivity.
Qed.

Lemma reveal_guards_witness :
  trace (snd (bot_loop_submit Scenarios.bot_address Scenarios.digest
                (Scenarios.order_7 ACCEPTED (Some "0xb07")) "2x + 3" "salt"
                Scenarios.other_solver)) = [GotOrder 7].
Proof.
  exact (proj1 (proj2 (reveal_guards Scenarios.bot_address Scenarios.digest
                         (Scenarios.order_7 ACCEPTED (Some "0xb07")) "2x + 3" "salt"
                         Scenarios.other_solver))
           (Scenarios.order_7 ACCEPTED (Some "0x0771E12"))
           [] eq_refl
           (or_intror (or_introl
              (ex_intro _ "0x0771E12" (conj eq_refl eq_refl))))).
Defined.

End BotProps.

(** * Further properties of the verifier service *)

Module RouteProps.
Import Verifier.

Local Open Scope Q_scope.

(** The six judgments [SympySolver.verify] can return: "correct" comes
    with 0.95 only, and every other judgment says "incorrect". *)
Lemma SympySolver_verify_cases {Expr : Type}
    (sympy : SympySolver.Sympy Expr) (p s : string) (t : ProblemType) :
  let r := SympySolver.verify sympy p s t in
  (is_correct r = true /\ confidence r = 0.95 /\
   SympySolver.failure sympy p s t = None) \/
  (is_correct r = false /\ confidence r = 0.9 /\
   SympySolver.failure sympy p s t = None) \/
  (is_correct r = false /\
   (confidence r = 0.0 \/ confidence r = 0.3 \/ confidence r = 0.5 \/
    confidence r = 0.1) /\
   SympySolver.failure sympy p s t <> None).
Proof.
  unfold SympySolver.verify, SympySolver.verify_body, SympySolver.failure, bind_result.
  destruct (SympySolver._parse_problem sympy p) as [[expr|]|];
    [| cbn; right; right; repeat split; auto; discriminate ..].
  destruct (SympySolver._compute_solution sympy expr t p) as [[expected|]|];
    [| cbn; right; right; repeat split; auto; discriminate ..].
  destruct (SympySolver._parse_expression sympy s) as [[submitted|]|];
    [| cbn; right; right; repeat split; auto; discriminate ..].
  destruct (SympySolver._compare_expressions sympy submitted expected t) as [[|]|]; cbn.
  - left. repeat split.
  - right. left. repeat split.
  - right. right. repeat split; auto; discriminate.
Qed.

(** What both methods of [GPTSolver] answer without the API. *)
Lemma GPTSolver_unavailable (gpt : GPTSolver.GPT) :
  GPTSolver.available gpt = false ->
  (forall p s t,
     GPTSolver.verify gpt p s t =
     mkVerificationResult false 0.0 None (Some "OpenAI API not available")) /\
  (forall p s r t,
     GPTSolver.evaluate_challenge gpt p s r t =
     mkChallengeEvaluation false "OpenAI API not available").
Proof.
  intros H. split; intros;
    unfold GPTSolver.verify, GPTSolver.evaluate_challenge; rewrite H; reflexivity.
Qed.

(** What both methods of [GPTSolver] answer without the API, replies of
    any type being allowed for. *)
Lemma GPTSolver_unavailable_untyped (gpt : Untyped.GPTSolver.GPT) :
  Untyped.GPTSolver.available gpt = false ->
  (forall p s t,
     Untyped.GPTSolver.verify gpt p s t =
     Untyped.GPTSolver.mkVerificationResult (Untyped.JBool false) 0.0 Untyped.JNull
       (Untyped.JString "OpenAI API not available")) /\
  (forall p s r t,
     Untyped.GPTSolver.evaluate_challenge gpt p s r t =
     Untyped.GPTSolver.mkChallengeEvaluation (Untyped.JBool false)
       (Untyped.JString "OpenAI API not available")).
Proof.
  intros H. split; intros;
    unfold Untyped.GPTSolver.verify, Untyped.GPTSolver.evaluate_challenge;
    rewrite H; reflexivity.
Qed.

(** X1.  Whatever the model replies, fields of undeclared types
    included: whenever the challenge route answers, the challenger wins
    only on the word of the Heuristic verifier: either the verdict of
    [GPTSolver.verify] is false (by its truth value) with a confidence
    above 0.8, or [GPTSolver.evaluate_challenge] found the challenger's
    argument valid.  [SympySolver.verify] never decides for the challenger
    by itself, since it attaches 0.9 to "incorrect" and the route asks
    for more than 0.9.  Without the OpenAI API the route does answer, and
    no challenge succeeds: "challenger loses", with confidence 0.855
    when SymPy matched the solution and 0.6 otherwise. *)
Theorem challenge_won_only_on_heuristic_word {Expr : Type}
    (py : Untyped.Python) (sympy : SympySolver.Sympy Expr)
    (gpt : Untyped.GPTSolver.GPT) (request : ChallengeRequest) (calls : list Call) :
  let a := SympySolver.verify sympy (c_problem request) (submitted_solution request)
             (c_problem_type request) in
  let h := Untyped.GPTSolver.verify gpt (c_problem request)
             (submitted_solution request) (c_problem_type request) in
  let e := Untyped.GPTSolver.evaluate_challenge gpt (c_problem request)
             (submitted_solution request) (challenger_reason request)
             (c_problem_type request) in
  (forall response,
     fst (Untyped.process_challenge py sympy gpt request calls) = Http200 response ->
     challenger_wins response = true ->
     (Untyped.truthy (Untyped.GPTSolver.is_correct h) = false /\
      0.8 < Untyped.GPTSolver.confidence h) \/
     Untyped.truthy (Untyped.GPTSolver.is_valid e) = true) /\
  (Untyped.GPTSolver.available gpt = false ->
   exists response,
     fst (Untyped.process_challenge py sympy gpt request calls) = Http200 response /\
     challenger_wins response = false /\
     r_confidence response == (if is_correct a then 0.855 else 0.6)).
Proof.
  intros a h e.
  pose proof (SympySolver_verify_cases sympy (c_problem request)
                (submitted_solution request) (c_problem_type request)) as Ha.
  cbv zeta in Ha. fold a in Ha.
  unfold Untyped.process_challenge, Untyped.process_challenge_body, bind, await, ret,
    call.
  cbn [fst snd]. fold a h e.
  split.
  - intros response.
    destruct (determine_outcome a (Untyped.GPTSolver.judged h)
                (Untyped.GPTSolver.evaluated py e)) as [[wins conf] extra] eqn:Eout.
    destruct (Untyped.validate_optional_str py _) as [correct_solution|err];
      cbn [fst snd]; [| discriminate].
    intros [= <-]. cbn [challenger_wins]. intros ->.
    revert Eout. unfold determine_outcome, Untyped.GPTSolver.judged,
      Untyped.GPTSolver.evaluated.
    cbn [is_correct confidence is_valid].
    destruct Ha as [(Hc & Hq & _)|[(Hc & Hq & _)|(Hc & Hq & _)]]; rewrite Hc;
      [| | destruct Hq as [Hq|[Hq|[Hq|Hq]]]]; rewrite Hq; cbn;
      destruct (Untyped.truthy (Untyped.GPTSolver.is_correct h)),
        (Qlt_bool 0.8 (Untyped.GPTSolver.confidence h)) eqn:E8,
        (Qlt_bool 0.9 (Untyped.GPTSolver.confidence h)) eqn:E9,
        (Untyped.truthy (Untyped.GPTSolver.is_valid e)); cbn;
      intros [= ? ?]; subst;
      VerifierProps.tests_to_Q;
      try (right; reflexivity); try (left; split; [reflexivity | lra]);
      try discriminate; try lra.
  - intros Hna. destruct (GPTSolver_unavailable_untyped gpt Hna) as [Hv He].
    destruct (determine_outcome a (Untyped.GPTSolver.judged h)
                (Untyped.GPTSolver.evaluated py e)) as [[wins conf] extra] eqn:Eout.
    assert (Hx : Untyped.GPTSolver.expected_solution h = Untyped.JNull)
      by (unfold h; rewrite Hv; reflexivity).
    rewrite Hx.
    assert (Hcs : exists cs,
               Untyped.validate_optional_str py
                 (Untyped.or_value (expected_solution a) Untyped.JNull) = Ok cs).
    { unfold Untyped.or_value.
      destruct (expected_solution a) as [x|]; [destruct (String.eqb x "") |];
        eexists; reflexivity. }
    destruct Hcs as [cs ->]. cbn [fst snd].
    eexists. split; [reflexivity |]. cbn [challenger_wins r_confidence].
    revert Eout.
    unfold determine_outcome, Untyped.GPTSolver.judged, Untyped.GPTSolver.evaluated.
    unfold h, e. rewrite Hv, He. cbn.
    destruct Ha as [(Hc & Hq & _)|[(Hc & Hq & _)|(Hc & Hq & _)]]; rewrite Hc;
      [| | destruct Hq as [Hq|[Hq|[Hq|Hq]]]]; rewrite Hq; cbn;
      intros [= <- <- _]; split; reflexivity.
Qed.

Lemma challenge_won_only_on_heuristic_word_witness :
  exists response,
    fst (Untyped.process_challenge Scenarios.strict_python
           Scenarios.sympy_submission_unparsed Scenarios.gpt_without_key
           Scenarios.challenge_request []) = Http200 response /\
    challenger_wins response = false /\ r_confidence response == 0.6.
Proof.
  exact (proj2 (challenge_won_only_on_heuristic_word Scenarios.strict_python
                  Scenarios.sympy_submission_unparsed Scenarios.gpt_without_key
                  Scenarios.challenge_request []) eq_refl).
Defined.

(** X2.  Without the OpenAI API, [verify_solution] answers with SymPy's
    judgment when SymPy reached the comparison (method ["sympy"],
    confidence 0.95 or 0.9), and otherwise, whatever made SymPy fail,
    with "incorrect", confidence 0, no expected solution, method ["gpt"]
    and the reason "OpenAI API not available". *)
Theorem verify_without_api {Expr : Type}
    (sympy : SympySolver.Sympy Expr) (gpt : GPTSolver.GPT)
    (request : VerifyRequest) (calls : list Call)
    (Hna : GPTSolver.available gpt = false) :
  let a := SympySolver.verify sympy (problem request) (solution request)
             (problem_type request) in
  let failed := SympySolver.failure sympy (problem request) (solution request)
                  (problem_type request) in
  exists response,
    fst (verify_solution (production sympy gpt) request calls) = Http200 response /\
    (failed = None ->
       response =
       mkVerifyResponse (order_id request) (is_correct a) (confidence a) "sympy"
         (expected_solution a) (reason a) /\
       confidence a = (if is_correct a then 0.95 else 0.9)) /\
    (failed <> None ->
       response =
       mkVerifyResponse (order_id request) false 0.0 "gpt" None
         (Some "OpenAI API not available")).
Proof.
  intros a failed.
  destruct (GPTSolver_unavailable gpt Hna) as [Hv _].
  unfold verify_solution, verify_solution_body, bind, await, ret, production.
  cbn [sympy_verify gpt_verify fst snd]. fold a. rewrite Hv.
  pose proof (SympySolver_verify_cases sympy (problem request)
                (solution request) (problem_type request)) as Ha.
  cbv zeta in Ha. fold a failed in Ha.
  destruct Ha as [(Hc & Hq & Hf)|[(Hc & Hq & Hf)|(Hc & Hq & Hf)]].
  - rewrite Hq. cbn. eexists. split; [reflexivity |]. split.
    + intros _. rewrite Hc. split; reflexivity.
    + intros Hne. contradiction.
  - rewrite Hq. cbn. eexists. split; [reflexivity |]. split.
    + intros _. rewrite Hc. split; reflexivity.
    + intros Hne. contradiction.
  - destruct Hq as [Hq|[Hq|[Hq|Hq]]]; rewrite Hq; cbn;
      (eexists; split; [reflexivity |]; split;
       [intros Hnone; contradiction | intros _; reflexivity]).
Qed.

Lemma verify_without_api_witness :
  exists response,
    fst (verify_solution
           (production Scenarios.sympy_submission_unparsed
              (GPTSolver.mkGPT true None (fun _ => Ok "reply")
                 (fun _ => GPTSolver.JSONDecodeError "")
                 (fun _ => GPTSolver.JSONDecodeError "")))
           Scenarios.verify_request []) = Http200 response /\
    v_is_correct response = false /\ v_confidence response = 0.0 /\
    method response = "gpt".
Proof.
  destruct (verify_without_api Scenarios.sympy_submission_unparsed
              (GPTSolver.mkGPT true None (fun _ => Ok "reply")
                 (fun _ => GPTSolver.JSONDecodeError "")
                 (fun _ => GPTSolver.JSONDecodeError ""))
              Scenarios.verify_request [] eq_refl)
    as (response & Hresp & _ & Hfailed).
  exists response. split; [exact Hresp |].
  rewrite Hfailed by (cbn; discriminate). repeat split.
Defined.

(** X3.  Whatever the model replies, fields of undeclared types
    included: whenever the verification route answers, the response says
    "correct" only if SymPy matched the solution (method ["sympy"],
    confidence 0.95) or the verdict of [GPTSolver.verify], as the
    response model reads it, is "correct".  SymPy's judgment enters a
    merge only when SymPy failed before the comparison, and a failure is
    reported as "incorrect": so the methods ["sympy+gpt"] and
    ["sympy (disputed)"] always come with "incorrect", after a failure of
    SymPy. *)
Theorem verify_correct_only_on_match_or_heuristic_word {Expr : Type}
    (py : Untyped.Python) (sympy : SympySolver.Sympy Expr)
    (gpt : Untyped.GPTSolver.GPT) (request : VerifyRequest) (calls : list Call)
    (response : VerifyResponse)
    (Hresp : fst (Untyped.verify_solution py sympy gpt request calls) =
             Http200 response) :
  let h := Untyped.GPTSolver.verify gpt (problem request) (solution request)
             (problem_type request) in
  let failed := SympySolver.failure sympy (problem request) (solution request)
                  (problem_type request) in
  (v_is_correct response = true ->
     (method response = "sympy" /\ v_confidence response = 0.95 /\ failed = None) \/
     Untyped.validate_bool py (Untyped.GPTSolver.is_correct h) = Ok true) /\
  (method response = "sympy+gpt" \/ method response = "sympy (disputed)" ->
     v_is_correct response = false /\ failed <> None).
Proof.
  intros h failed. revert Hresp.
  unfold Untyped.verify_solution, Untyped.verify_solution_body, bind, await, ret, call.
  cbn [fst snd]. fold h.
  pose proof (SympySolver_verify_cases sympy (problem request)
                (solution request) (problem_type request)) as Ha.
  cbv zeta in Ha. fold failed in Ha.
  unfold Untyped.VerifyResponse_of, bind_result.
  destruct Ha as [(Hc & Hq & Hf)|[(Hc & Hq & Hf)|(Hc & Hq & Hf)]];
    [| | destruct Hq as [Hq|[Hq|[Hq|Hq]]]]; rewrite Hq, Hc; cbn;
    try (destruct (Qlt_bool 0 (Untyped.GPTSolver.confidence h)); cbn);
    try (destruct (Untyped.eq_bool false (Untyped.GPTSolver.is_correct h)); cbn);
    try (match goal with
         | |- context [Qlt_bool (Untyped.GPTSolver.confidence h) ?c] =>
             destruct (Qlt_bool (Untyped.GPTSolver.confidence h) c); cbn
         end);
    try (destruct (Untyped.validate_bool py (Untyped.GPTSolver.is_correct h))
           as [[|]|]; cbn);
    repeat match goal with
    | |- context [Untyped.validate_optional_str py ?v] =>
        destruct (Untyped.validate_optional_str py v); cbn
    end;
    try discriminate;
    (intros [= <-]; cbn; split;
     [intros Hcorrect; first [discriminate | right; reflexivity
                             | left; repeat split; assumption]
     | intros [Hm|Hm]; first [discriminate | split; [reflexivity | assumption]]]).
Qed.

Lemma verify_correct_only_on_match_or_heuristic_word_witness :
  let response :=
    mkVerifyResponse 123 false (0.5 * 0.8) "sympy (disputed)" (Some "2*x + 3")
      (Some "SymPy result, but GPT disagrees") in
  (v_is_correct response = true ->
     (method response = "sympy" /\ v_confidence response = 0.95 /\
      SympySolver.failure Scenarios.sympy_submission_unparsed
        (problem Scenarios.verify_request) (solution Scenarios.verify_request)
        (problem_type Scenarios.verify_request) = None) \/
     Untyped.validate_bool Scenarios.strict_python
       (Untyped.GPTSolver.is_correct
          (Untyped.GPTSolver.verify Scenarios.gpt_replies_correct_0_4
             (problem Scenarios.verify_request) (solution Scenarios.verify_request)
             (problem_type Scenarios.verify_request))) = Ok true) /\
  (method response = "sympy+gpt" \/ method response = "sympy (disputed)" ->
     v_is_correct response = false /\
     SympySolver.failure Scenarios.sympy_submission_unparsed
       (problem Scenarios.verify_request) (solution Scenarios.verify_request)
       (problem_type Scenarios.verify_request) <> None).
Proof.
  exact (verify_correct_only_on_match_or_heuristic_word Scenarios.strict_python
           Scenarios.sympy_submission_unparsed Scenarios.gpt_replies_correct_0_4
           Scenarios.verify_request [] _ eq_refl).
Defined.

(** X4.  [verify_solution] never overrules verifiers that agree: if the
    two verifiers give the same verdict on the request, the response
    carries that verdict, whatever their confidences (the Heuristic
    verifier is not even asked when the Analytic confidence is at least
    0.9). *)
Theorem verify_respects_unanimity
    (solvers : Solvers) (request : VerifyRequest) (calls : list Call)
    (a h : VerificationResult)
    (Ha : sympy_verify solvers (problem request) (solution request)
            (problem_type request) = Ok a)
    (Hh : gpt_verify solvers (problem request) (solution request)
            (problem_type request) = Ok h)
    (Hsame : is_correct a = is_correct h) :
  exists response,
    fst (verify_solution solvers request calls) = Http200 response /\
    v_is_correct response = is_correct a.
Proof.
  unfold verify_solution, verify_solution_body, bind, await, ret.
  rewrite Ha. cbn.
  destruct (Qle_bool 0.9 (confidence a)); cbn.
  - eexists. split; reflexivity.
  - rewrite Hh. cbn.
    destruct (Qlt_bool 0 (confidence a) && Qlt_bool 0 (confidence h)); cbn.
    + replace (Bool.eqb (is_correct a) (is_correct h)) with true
        by (rewrite Hsame; symmetry; apply Bool.eqb_reflx).
      eexists. split; reflexivity.
    + eexists. split; [reflexivity |]. cbn. symmetry. exact Hsame.
Qed.

Lemma verify_respects_unanimity_witness :
  exists response,
    fst (verify_solution
           (Scenarios.fixed_solvers (Scenarios.judgment true 0.2)
              (Scenarios.judgment true 0) (mkChallengeEvaluation false ""))
           Scenarios.verify_request []) = Http200 response /\
    v_is_correct response = true.
Proof.
  exact (verify_respects_unanimity
           (Scenarios.fixed_solvers (Scenarios.judgment true 0.2)
              (Scenarios.judgment true 0) (mkChallengeEvaluation false ""))
           Scenarios.verify_request [] (Scenarios.judgment true 0.2)
           (Scenarios.judgment true 0) eq_refl eq_refl eq_refl).
Defined.

(** X5.  The confidence of a challenge verdict is never below 0.6, and
    never above 0.95 when the two verifiers report confidences of at
    most 1: a verdict taken from one verifier alone needs that
    verifier's confidence above 0.9, which leaves more than 0.81 (SymPy,
    times 0.9) or 0.765 (GPT, times 0.85). *)
Theorem challenge_confidence_range
    (solvers : Solvers) (request : ChallengeRequest) (calls : list Call)
    (a h : VerificationResult)
    (Ha : sympy_verify solvers (c_problem request) (submitted_solution request)
            (c_problem_type request) = Ok a)
    (Hh : gpt_verify solvers (c_problem request) (submitted_solution request)
            (c_problem_type request) = Ok h)
    (response : ChallengeResponse)
    (Hresp : fst (process_challenge solvers request calls) = Http200 response) :
  0.6 <= r_confidence response /\
  (confidence a <= 1 -> confidence h <= 1 -> r_confidence response <= 0.95).
Proof.
  revert Hresp.
  unfold process_challenge, process_challenge_body, bind, await, ret.
  rewrite Ha. cbn. rewrite Hh. cbn.
  destruct (gpt_evaluate_challenge solvers _ _ _ _) as [e|err]; cbn; [| discriminate].
  destruct (determine_outcome a h e) as [[wins conf] extra] eqn:Eout.
  intros [= <-]. cbn [r_confidence].
  revert Eout. unfold determine_outcome.
  repeat match goal with
  | |- context [if ?b then _ else _] => destruct b eqn:?
  end; intros [= <- <- <-];
  repeat match goal with
  | H : _ && _ = true |- _ => apply andb_prop in H; destruct H
  end;
  VerifierProps.tests_to_Q; split; intros; lra.
Qed.

Lemma challenge_confidence_range_witness :
  exists response,
    fst (process_challenge Scenarios.scenario_D Scenarios.challenge_request []) =
    Http200 response /\
    0.6 <= r_confidence response <= 0.95.
Proof.
  eexists. split; [reflexivity |].
  destruct (challenge_confidence_range Scenarios.scenario_D
              Scenarios.challenge_request [] (Scenarios.judgment false 0)
              (Scenarios.judgment false 0) eq_refl eq_refl _ eq_refl) as [Hlow Hhigh].
  split; [exact Hlow |].
  apply Hhigh; cbn; unfold Qle; cbn; lia.
Defined.

End RouteProps.

(** * Further properties of the indexer *)

Module StoreProps.
Import Indexer IndexerProps Queries.

Local Open Scope Z_scope.

(** X7.  A [ProblemPosted] event for an order that is already indexed
    (a replay, or a second event with the same id) puts the order back
    to status 0 (OPEN) with no solver, whatever progress had been
    indexed; every other column, [indexed_at] included, stays that of
    the stored row, so the issuer, type, tier, reward and timestamps of
    the new event are ignored.  No other row changes. *)
Theorem replayed_post_reopens_order (w : World) (ev : Event) (ts : Z) (tx : string)
    (db : Database) (r : OrderRow)
    (orderId : Z) (issuer : string) (problemType timeTier reward : Z)
    (Hpool : pool db = true)
    (Hargs : args ev = ProblemPostedArgs orderId issuer problemType timeTier reward)
    (Hrow : orders db !! orderId = Some r) :
  let outcome := _handle_problem_posted_statements w ev ts tx db in
  let o := columns r in
  fst outcome = Ok tt /\
  orders (snd outcome) !! orderId =
  Some (mkOrderRow
          (Order.mk (Order.id o) (Order.issuer o) (Order.problem_hash o)
             (Order.problem_type o) (Order.time_tier o) 0 (Order.reward o)
             (Order.created_at o) (Order.deadline o) None (Order.tx_hash o)
             (Order.block_number o))
          (indexed_at r)) /\
  (forall j, j <> orderId -> orders (snd outcome) !! j = orders db !! j) /\
  solutions (snd outcome) = solutions db /\
  challenges (snd outcome) = challenges db.
Proof.
  intros outcome o. subst outcome.
  unfold _handle_problem_posted_statements, bind, call, ret, insert_order.
  rewrite Hargs. cbn [args_issuer args_problemType args_timeTier args_reward orderId_of
                      Order.id].
  rewrite Hpool, Hrow. cbn [negb fst snd orders solutions challenges with_orders].
  rewrite lookup_insert_eq. repeat split.
  intros j Hj. rewrite lookup_insert_ne by congruence. reflexivity.
Qed.

Lemma replayed_post_reopens_order_witness :
  let accepted :=
    snd (_handle_order_accepted_statements Scenarios.accepted 72 "0xbeef"
           Scenarios.one_order) in
  (Order.status ∘ columns <$> orders accepted !! 1) = Some 1 /\
  (Order.status ∘ columns <$>
     orders (snd (_handle_problem_posted_statements (Scenarios.quiet_node 10)
                    Scenarios.posted 60 "0xdead" accepted)) !! 1) = Some 0.
Proof.
  intros accepted.
  destruct (orders accepted !! 1) as [r|] eqn:Hrow; [| vm_compute in Hrow; discriminate].
  split.
  - vm_compute in Hrow. injection Hrow as <-. reflexivity.
  - destruct (replayed_post_reopens_order (Scenarios.quiet_node 10) Scenarios.posted
                60 "0xdead" accepted r 1 "0xA11CE" 0 1 5000000 eq_refl eq_refl Hrow)
      as (_ & Hnew & _).
    cbv zeta in Hnew. rewrite Hnew. reflexivity.
Defined.

(** X8.  A [SolutionRevealed] event for an order that has no stored
    solution (its commit was not indexed) only sets the status of the
    order to 3: the revealed text is not read from the event and no
    solution row is created. *)
Theorem reveal_without_commit (ev : Event) (ts : Z) (tx : string) (db : Database)
    (Hpool : pool db = true)
    (Hnone : solutions db !! orderId_of (args ev) = None) :
  _handle_solution_revealed_statements ev ts tx db =
  (Ok tt, with_orders db (alter (set_status 3) (orderId_of (args ev)) (orders db))).
Proof.
  unfold _handle_solution_revealed_statements, bind, call, ret, get_solution,
    update_order_status.
  rewrite Hpool. cbn [negb]. rewrite Hnone. cbn. rewrite Hpool. reflexivity.
Qed.

Lemma reveal_without_commit_witness :
  let db :=
    snd (_handle_solution_revealed_statements
           (mkEvent (SolutionRevealedArgs 1 "0xB0B" "2x + 3") 7 "0xcafe") 84 "0xcafe"
           Scenarios.one_order) in
  solutions db = ∅ /\ (Order.status ∘ columns <$> orders db !! 1) = Some 3.
Proof.
  intros db. subst db.
  rewrite (reveal_without_commit
             (mkEvent (SolutionRevealedArgs 1 "0xB0B" "2x + 3") 7 "0xcafe") 84 "0xcafe"
             Scenarios.one_order eq_refl eq_refl).
  split; vm_compute; reflexivity.
Defined.

(** X9.  A [SolutionCommitted] or [ChallengeSubmitted] event for an order
    that is not indexed is refused by the database (foreign key):
    [_handle_event] does not raise and logs "Error handling", the tables
    stay as they were, the status update that follows the insertion is
    not run, and the event is not broadcast, even when a callback is
    set. *)
Theorem event_for_unknown_order (w : World) (ev : Event) (self : EventListener)
    (ts : Z) (event_type : string)
    (Hpool : pool (database self) = true)
    (Hblock : eth_get_block w (blockNumber ev) = Ok ts)
    (Hevent :
       (event_type = "SolutionCommitted" /\
        (exists solver commitHash,
           args ev = SolutionCommittedArgs (orderId_of (args ev)) solver commitHash) /\
        solutions (database self) !! orderId_of (args ev) = None) \/
       (event_type = "ChallengeSubmitted" /\
        (exists challenger stake,
           args ev = ChallengeSubmittedArgs (orderId_of (args ev)) challenger stake) /\
        challenges (database self) !! orderId_of (args ev) = None))
    (Horder : orders (database self) !! orderId_of (args ev) = None) :
  _handle_event w event_type ev self =
  (Ok tt,
   with_log self
     (log self ++ [error_handling event_type "ForeignKeyViolationError"])).
Proof.
  unfold _handle_event, try_except, bind at 1, call. rewrite Hblock.
  destruct Hevent as [(-> & (solver & commitHash & Hargs) & Hnone)
                     |(-> & (challenger & stake & Hargs) & Hnone)];
    cbn [String.eqb Ascii.eqb Bool.eqb];
    unfold _handle_solution_committed, _handle_challenge_submitted,
      _handle_solution_committed_statements, _handle_challenge_submitted_statements,
      on_database, bind, call, insert_solution, insert_challenge;
    rewrite Hargs in *; cbn [args_solver args_commitHash args_challenger args_stake
                             orderId_of Solution.order_id Challenge.order_id] in *;
    rewrite Hpool, Hnone, Horder; cbn [negb];
    destruct self; reflexivity.
Qed.

Lemma event_for_unknown_order_witness :
  let ev := mkEvent (SolutionCommittedArgs 9 "0xB0B" "0xc0ffee") 6 "0xbeef" in
  let w :=
    mkWorld (Ok 10) (fun n => Ok (12 * n)) (fun _ _ _ => Ok []) 1700000000
      (Some (fun _ _ => Ok tt)) in
  let self' :=
    snd (_handle_event w "SolutionCommitted" ev
           (Scenarios.listener 0 Scenarios.one_order)) in
  database self' = Scenarios.one_order /\ delivered self' = [] /\
  log self' = [error_handling "SolutionCommitted" "ForeignKeyViolationError"].
Proof.
  intros ev w self'. subst self'.
  rewrite (event_for_unknown_order w ev (Scenarios.listener 0 Scenarios.one_order) 72
             "SolutionCommitted" eq_refl eq_refl
             (or_introl (conj eq_refl (conj (ex_intro _ _ (ex_intro _ _ eq_refl))
                                          eq_refl)))
             eq_refl).
  repeat split.
Defined.

(** ** Invariants of the tables *)

Lemma bind_preserves {A B : Type} (P : Database -> Prop) (m : DB A) (k : A -> DB B) :
  preserves P m -> (forall a, preserves P (k a)) -> preserves P (bind m k).
Proof.
  intros Hm Hk db Hdb. unfold bind. specialize (Hm db Hdb).
  destruct (m db) as [[a|e] db1]; cbn in *; [apply Hk; exact Hm | exact Hm].
Qed.

Lemma call_preserves {A : Type} (P : Database -> Prop) (r : result A) :
  preserves P (call r).
Proof. intros db Hdb. exact Hdb. Qed.

Lemma ret_preserves {A : Type} (P : Database -> Prop) (a : A) :
  preserves P (ret a).
Proof. intros db Hdb. exact Hdb. Qed.

Section DatabaseInvariant.

Variable P : Database -> Prop.
Variable w : World.

(** The five operations that the handlers run keep [P]. *)
Hypothesis insert_order_P : forall now o, preserves P (insert_order now o).
Hypothesis update_order_status_P :
  forall id status solver, preserves P (update_order_status id status solver).
Hypothesis insert_solution_P : forall s, preserves P (insert_solution s).
Hypothesis insert_challenge_P : forall c, preserves P (insert_challenge c).
Hypothesis get_solution_P : forall id, preserves P (get_solution id).

Ltac preserved :=
  repeat first
    [ apply bind_preserves; [| intros ?]
    | apply call_preserves
    | apply ret_preserves
    | apply insert_order_P
    | apply update_order_status_P
    | apply insert_solution_P
    | apply insert_challenge_P
    | apply get_solution_P
    | match goal with
      | |- preserves _ (match ?x with _ => _ end) => destruct x
      end ].

Lemma handle_event_invariant (event_type : string) (ev : Event) (self : EventListener) :
  P (database self) -> P (database (snd (_handle_event w event_type ev self))).
Proof.
  intros Hdb. rewrite handle_event_database.
  destruct (eth_get_block w (blockNumber ev)) as [ts|e]; [| exact Hdb].
  cbv zeta. revert Hdb. generalize (database self). change (preserves P ?m) with
    (forall db, P db -> P (snd (m db))).
  repeat match goal with
  | |- context [if String.eqb ?a ?b then _ else _] => destruct (String.eqb a b)
  end;
  match goal with
  | |- forall db, P db -> P (snd (?m db)) => change (preserves P m)
  end;
  unfold _handle_problem_posted_statements, _handle_order_accepted_statements,
    _handle_solution_committed_statements, _handle_solution_revealed_statements,
    _handle_challenge_submitted_statements; preserved.
Qed.

Lemma for_each_events_invariant (events : list (string * Event))
    (self : EventListener) :
  P (database self) ->
  P (database
       (snd (for_each events
               (fun '(event_type, event) => _handle_event w event_type event) self))).
Proof.
  revert self. induction events as [|[event_type ev] events IH]; intros self Hdb;
    [exact Hdb |].
  cbn [for_each]. unfold bind.
  pose proof (handle_event_invariant event_type ev self Hdb) as H.
  destruct (_handle_event w event_type ev self) as [[[]|e] s1]; cbn [fst snd] in *;
    [apply IH; exact H | exact H].
Qed.

Lemma process_block_range_invariant (from_block to_block : Z) (self : EventListener) :
  P (database self) ->
  P (database (snd (_process_block_range w from_block to_block self))).
Proof.
  intros Hdb. unfold _process_block_range, try_except, bind at 1 2 3 4 5, call, logger.
  destruct (get_logs w "ProblemPosted" from_block to_block) as [l1|e1];
    [| exact Hdb].
  destruct (get_logs w "OrderAccepted" from_block to_block) as [l2|e2];
    [| exact Hdb].
  destruct (get_logs w "SolutionCommitted" from_block to_block) as [l3|e3];
    [| exact Hdb].
  destruct (get_logs w "SolutionRevealed" from_block to_block) as [l4|e4];
    [| exact Hdb].
  destruct (get_logs w "ChallengeSubmitted" from_block to_block) as [l5|e5];
    [| exact Hdb].
  pose proof (for_each_events_invariant
                (map (pair "ProblemPosted") l1 ++
                 map (pair "OrderAccepted") l2 ++
                 map (pair "SolutionCommitted") l3 ++
                 map (pair "SolutionRevealed") l4 ++
                 map (pair "ChallengeSubmitted") l5)%list self Hdb) as H.
  destruct (for_each _ _ self) as [[[]|e] s1]; exact H.
Qed.

Lemma sync_loop_invariant (fuel : nat) (from_block current_block : Z)
    (self : EventListener) :
  P (database self) ->
  P (database (snd (sync_loop w fuel from_block current_block self))).
Proof.
  revert from_block self. induction fuel as [|fuel IH]; intros from_block self Hdb;
    cbn [sync_loop];
    destruct ((from_block <? current_block) && running self); try exact Hdb.
  unfold bind at 1, sync_chunk, bind at 1.
  pose proof (process_block_range_invariant from_block
                (Z.min (from_block + chunk_size) current_block) self Hdb) as H.
  destruct (_process_block_range w _ _ self) as [[[]|e] s1]; cbn [fst snd] in *;
    [| exact H].
  apply IH. exact H.
Qed.

Lemma sync_historical_events_invariant (self : EventListener) :
  P (database self) -> P (database (snd (_sync_historical_events w self))).
Proof.
  intros Hdb. unfold _sync_historical_events, bind at 1, call.
  destruct (eth_block_number w) as [current_block|e]; [| exact Hdb].
  destruct (last_processed_block self >=? current_block); [exact Hdb |].
  unfold bind at 1, logger at 1. cbn [fst snd]. unfold bind at 1.
  pose proof (sync_loop_invariant
                (Z.to_nat (current_block - last_processed_block self))
                (last_processed_block self) current_block
                (with_log self
                   (log self ++
                    [info_syncing (last_processed_block self) current_block]))
                Hdb) as H.
  cbn [last_processed_block with_log] in *.
  destruct (sync_loop w _ _ _ _) as [[[]|e] s1]; exact H.
Qed.

Lemma listen_turn_invariant (self : EventListener) :
  P (database self) -> P (database (snd (listen_turn w self))).
Proof.
  intros Hdb. unfold listen_turn, try_except, bind at 1, call.
  destruct (eth_block_number w) as [current_block|e]; [| exact Hdb].
  destruct (current_block >? last_processed_block self); [| exact Hdb].
  unfold bind.
  pose proof (process_block_range_invariant (last_processed_block self + 1)
                current_block self Hdb) as H.
  destruct (_process_block_range w _ _ self) as [[[]|e] s1]; exact H.
Qed.

End DatabaseInvariant.

(** ** A listener without database *)

(** Without a pool every operation returns at once. *)
Lemma disconnected_operations (db0 : Database) :
  pool db0 = false ->
  (forall now o, preserves (eq db0) (insert_order now o)) /\
  (forall id status solver, preserves (eq db0) (update_order_status id status solver)) /\
  (forall s, preserves (eq db0) (insert_solution s)) /\
  (forall c, preserves (eq db0) (insert_challenge c)) /\
  (forall id, preserves (eq db0) (get_solution id)).
Proof.
  intros Hpool. repeat split; intros; intros db <-;
    unfold insert_order, update_order_status, insert_solution, insert_challenge,
      get_solution; rewrite Hpool; reflexivity.
Qed.

(** X10.  A listener whose database is not connected ([self.pool] unset,
    the "mock database" of [Database.connect]) never writes anything:
    neither the catch-up, nor a turn of the tail loop, nor the handling
    of a single event changes the tables.  An event is nevertheless
    logged as indexed. *)
Theorem disconnected_database_is_never_written (w : World) (self : EventListener)
    (Hpool : pool (database self) = false) :
  database (snd (_sync_historical_events w self)) = database self /\
  database (snd (listen_turn w self)) = database self /\
  (forall event_type ev,
     database (snd (_handle_event w event_type ev self)) = database self) /\
  (forall ev ts orderId issuer problemType timeTier reward,
     eth_get_block w (blockNumber ev) = Ok ts ->
     args ev = ProblemPostedArgs orderId issuer problemType timeTier reward ->
     on_new_event w = None ->
     _handle_event w "ProblemPosted" ev self =
     (Ok tt, with_log self (log self ++ [info_indexed "ProblemPosted" orderId]))).
Proof.
  destruct (disconnected_operations (database self) Hpool)
    as (H1 & H2 & H3 & H4 & H5).
  split; [| split; [| split]].
  - symmetry.
    apply (sync_historical_events_invariant (eq (database self)) w H1 H2 H3 H4 H5).
    reflexivity.
  - symmetry.
    apply (listen_turn_invariant (eq (database self)) w H1 H2 H3 H4 H5).
    reflexivity.
  - intros event_type ev. symmetry.
    apply (handle_event_invariant (eq (database self)) w H1 H2 H3 H4 H5).
    reflexivity.
  - intros ev ts orderId issuer problemType timeTier reward Hblock Hargs Hcb.
    unfold _handle_event, try_except, bind at 1, call. rewrite Hblock.
    cbn [String.eqb Ascii.eqb Bool.eqb].
    unfold _handle_problem_posted, _handle_problem_posted_statements, on_database,
      bind, call, ret, insert_order, logger.
    rewrite Hargs, Hcb, Hpool.
    cbn [args_issuer args_problemType args_timeTier args_reward orderId_of negb
         fst snd].
    destruct self; reflexivity.
Qed.

Lemma disconnected_database_is_never_written_witness :
  let self :=
    Scenarios.listener 0 (mkDatabase false ∅ ∅ ∅) in
  database (snd (_sync_historical_events (Scenarios.flaky_node 2500) self)) =
  mkDatabase false ∅ ∅ ∅ /\
  snd (_handle_event (Scenarios.flaky_node 2500) "ProblemPosted" Scenarios.posted self) =
  with_log self [info_indexed "ProblemPosted" 1].
Proof.
  intros self.
  destruct (disconnected_database_is_never_written (Scenarios.flaky_node 2500) self
              eq_refl) as (Hsync & _ & _ & Hlog).
  split; [exact Hsync |].
  rewrite (Hlog Scenarios.posted 60 1 "0xA11CE" 0 1 5000000 eq_refl eq_refl eq_refl).
  reflexivity.
Defined.

(** ** The tail loop *)

(** A turn of the tail loop, without its [try]: the range handler never
    raises. *)
Lemma listen_turn_eq (w : World) (self : EventListener) :
  listen_turn w self =
  match eth_block_number w with
  | Ok head =>
      if head >? last_processed_block self
      then process_chunk w (last_processed_block self + 1, head) self
      else (Ok tt, self)
  | Raise e => (Ok tt, with_log self (log self ++ [error_listening e]))
  end.
Proof.
  unfold listen_turn, try_except, process_chunk, bind, call, logger.
  destruct (eth_block_number w) as [head|e]; [| reflexivity].
  destruct (head >? last_processed_block self); [| reflexivity].
  cbn [fst snd].
  pose proof (process_block_range_ok w (last_processed_block self + 1) head self) as Hok.
  destruct (_process_block_range w _ _ self) as [[[]|e] s1]; cbn in *;
    [reflexivity | discriminate].
Qed.

(** What a turn of the tail loop does to the listener. *)
Lemma listen_turn_spec (w : World) (self : EventListener) :
  let outcome := listen_turn w self in
  fst outcome = Ok tt /\
  running (snd outcome) = running self /\
  start_block (snd outcome) = start_block self /\
  last_processed_block (snd outcome) =
  match eth_block_number w with
  | Ok head => Z.max (last_processed_block self) head
  | Raise _ => last_processed_block self
  end /\
  (forall head, eth_block_number w = Ok head ->
     head <= last_processed_block self -> snd outcome = self) /\
  (forall head, eth_block_number w = Ok head ->
     last_processed_block self < head ->
     outcome = process_chunk w (last_processed_block self + 1, head) self) /\
  (forall e, eth_block_number w = Raise e ->
     snd outcome = with_log self (log self ++ [error_listening e])).
Proof.
  intros outcome. subst outcome. rewrite listen_turn_eq.
  destruct (eth_block_number w) as [head|e].
  - destruct (Z.gtb_spec head (last_processed_block self)) as [Hgt|Hle].
    + destruct (process_chunk_spec w (last_processed_block self + 1, head) self)
        as (Hok & Hrun & Hlpb).
      assert (Hstart : start_block
                         (snd (process_chunk w (last_processed_block self + 1, head)
                                 self)) = start_block self).
      { unfold process_chunk, bind.
        pose proof (process_block_range_control w (last_processed_block self + 1)
                      head self) as (_ & _ & Hs).
        cbn [fst snd].
        destruct (_process_block_range w _ _ self) as [[[]|e] s1]; exact Hs. }
      cbn [snd] in Hlpb.
      repeat split; auto; try lia; try discriminate.
      * intros head' [= <-]. lia.
      * intros head' [= <-]. reflexivity.
    + cbn [fst snd]. repeat split; auto; try lia; try discriminate.
      intros head' [= <-]. lia.
  - cbn [logger fst snd]. repeat split; try discriminate.
    intros e' [= <-]. reflexivity.
Qed.

(** X11.  A turn of the tail loop never raises and never moves the
    checkpoint back: when the node gives its head, the checkpoint
    becomes the greater of the old checkpoint and the head, whether or
    not the blocks in between could be processed; when the node does not
    answer, the turn only logs the error.  [running] and [start_block]
    are left alone. *)
Theorem listen_turn_checkpoint (w : World) (self : EventListener) :
  let outcome := listen_turn w self in
  fst outcome = Ok tt /\
  running (snd outcome) = running self /\
  start_block (snd outcome) = start_block self /\
  last_processed_block (snd outcome) =
  match eth_block_number w with
  | Ok head => Z.max (last_processed_block self) head
  | Raise _ => last_processed_block self
  end /\
  (forall head, eth_block_number w = Ok head ->
     head <= last_processed_block self -> snd outcome = self) /\
  (forall head, eth_block_number w = Ok head ->
     last_processed_block self < head ->
     outcome = process_chunk w (last_processed_block self + 1, head) self) /\
  (forall e, eth_block_number w = Raise e ->
     snd outcome = with_log self (log self ++ [error_listening e])).
Proof. exact (listen_turn_spec w self). Qed.

(** X12.  A started listener that catches up and then runs one turn of
    the tail loop against the same head ends with the checkpoint at the
    head (or where it was, if it was not below the head): the block that
    the catch-up leaves out when the distance is a multiple of
    [chunk_size + 1] is the one range of that turn.  Neither step
    raises. *)
Theorem catch_up_then_tail_reaches_head (w : World) (self : EventListener) (head : Z)
    (Hhead : eth_block_number w = Ok head)
    (Hrun : running self = true) :
  let caught_up := _sync_historical_events w self in
  let turn := listen_turn w (snd caught_up) in
  fst caught_up = Ok tt /\ fst turn = Ok tt /\
  last_processed_block (snd turn) = Z.max (last_processed_block self) head /\
  (last_processed_block self < head ->
   (head - last_processed_block self) mod (chunk_size + 1) = 0 ->
   last_processed_block (snd caught_up) = head - 1 /\
   turn = process_chunk w (head, head) (snd caught_up)).
Proof.
  intros caught_up turn.
  destruct (listen_turn_spec w (snd caught_up))
    as (Hok & _ & _ & Hlpb & _ & Hrange & _).
  cbv zeta in Hok, Hlpb, Hrange. fold turn in Hok, Hlpb, Hrange.
  rewrite Hhead in Hlpb.
  destruct (Z.lt_ge_cases (last_processed_block self) head) as [Hbehind|Hahead].
  - destruct (sync_historical_events_spec w self head Hhead Hrun Hbehind)
      as (_ & Hsync & _ & _ & _ & _ & Hmod & _).
    cbv zeta in Hsync, Hmod. fold caught_up in Hsync, Hmod.
    split; [exact Hsync |]. split; [exact Hok |]. split.
    + rewrite Hlpb, Hmod. destruct (_ =? 0); lia.
    + intros _ Hz. specialize (Hrange head Hhead).
      rewrite Hmod, Hz in Hrange |- *. cbn [Z.eqb] in Hrange |- *.
      replace (head - 1 + 1) with head in Hrange by lia.
      split; [reflexivity | apply Hrange; lia].
  - assert (Hsame : caught_up = (Ok tt, self)).
    { unfold caught_up, _sync_historical_events, bind, call. rewrite Hhead.
      destruct (Z.geb_spec (last_processed_block self) head); [reflexivity | lia]. }
    rewrite Hsame in *. cbn [fst snd] in *.
    repeat split; auto; lia.
Qed.

Lemma catch_up_then_tail_reaches_head_witness :
  let self := Scenarios.listener 0 Scenarios.empty_database in
  last_processed_block (snd (_sync_historical_events (Scenarios.quiet_node 1001) self)) =
  1000 /\
  last_processed_block
    (snd (listen_turn (Scenarios.quiet_node 1001)
            (snd (_sync_historical_events (Scenarios.quiet_node 1001) self)))) = 1001.
Proof.
  intros self.
  destruct (catch_up_then_tail_reaches_head (Scenarios.quiet_node 1001) self 1001
              eq_refl eq_refl) as (_ & _ & Hend & Hedge).
  cbv zeta in Hend, Hedge. split.
  - apply Hedge; [cbn; lia | reflexivity].
  - exact Hend.
Defined.

End StoreProps.

(** * The read side of the indexer *)

Module QueryProps.
Import Indexer Queries.

Local Open Scope Z_scope.

(** [SELECT *] on [orders] brings the column [indexed_at], which
    [Order] does not take; the two other tables have exactly the columns
    of their dataclasses. *)
Lemma Order_of_row_raises (row : OrderRow) :
  Order_of_row row =
  Raise "TypeError: Order.__init__() got an unexpected keyword argument 'indexed_at'".
Proof. reflexivity. Qed.

Lemma Solution_of_row_ok (row : Solution.t) : Solution_of_row row = Ok row.
Proof. reflexivity. Qed.

Lemma Challenge_of_row_ok (row : Challenge.t) : Challenge_of_row row = Ok row.
Proof. reflexivity. Qed.

Lemma comprehension_Order_of_row (rows : list OrderRow) (orders : list Order.t) :
  comprehension Order_of_row rows = Ok orders -> rows = [] /\ orders = [].
Proof.
  destruct rows as [|row rows]; cbn.
  - intros [= <-]. split; reflexivity.
  - discriminate.
Qed.

(** X13.  No read of the table [orders] ever returns an order.
    [Database.get_order] returns [None] for an order that is not indexed
    (or without database) and raises [TypeError] for one that is, since
    the row carries [indexed_at]; [Database.get_orders] returns the empty
    list or raises.  So [GET /orders/{order_id}] answers 404 or fails,
    and never 200; the list routes answer only with an empty page. *)
Theorem no_order_is_read_back
    (order_by_created_at_desc : list OrderRow -> list OrderRow) (db : Database) :
  (forall order_id,
     fst (get_order order_id db) =
     if pool db then
       match orders db !! order_id with
       | Some _ =>
           Raise "TypeError: Order.__init__() got an unexpected keyword argument 'indexed_at'"
       | None => Ok None
       end
     else Ok None) /\
  (forall status issuer solver limit offset orders,
     fst (get_orders order_by_created_at_desc status issuer solver limit offset db) =
     Ok orders -> orders = []) /\
  (forall order_id,
     fst (route_get_order order_id db) =
     if pool db then
       match orders db !! order_id with
       | Some _ =>
           Raise "TypeError: Order.__init__() got an unexpected keyword argument 'indexed_at'"
       | None => Ok (HTTPException 404 "Order not found")
       end
     else Ok (HTTPException 404 "Order not found")) /\
  (forall status issuer solver page limit reply,
     fst (list_orders order_by_created_at_desc status issuer solver page limit db) =
     Ok reply ->
     exists total, reply = Reply200 (mkOrderListResponse [] total page limit)) /\
  (forall address page limit reply,
     fst (get_orders_by_issuer order_by_created_at_desc address page limit db) =
     Ok reply ->
     reply = Reply200 (mkOrderListResponse [] 0 page limit)).
Proof.
  assert (Hget : forall status issuer solver limit offset orders,
             fst (get_orders order_by_created_at_desc status issuer solver limit
                    offset db) = Ok orders -> orders = []).
  { intros status issuer solver limit offset orders. unfold get_orders.
    destruct (pool db); cbn; [| intros [= <-]; reflexivity].
    destruct (fetch_orders _ _ _ _ _ _ _) as [rows|e]; cbn; [| discriminate].
    intros H. apply comprehension_Order_of_row in H. apply H. }
  split; [| split; [exact Hget | split; [| split]]].
  - intros order_id. unfold get_order.
    destruct (pool db); cbn; [| reflexivity].
    destruct (orders db !! order_id); reflexivity.
  - intros order_id. unfold route_get_order, bind, ret, get_order.
    destruct (pool db); cbn; [| reflexivity].
    destruct (orders db !! order_id); reflexivity.
  - intros status issuer solver page limit reply.
    unfold list_orders, bind, ret.
    specialize (Hget status issuer solver limit ((page - 1) * limit)).
    destruct (get_orders _ _ _ _ _ _ db) as [[orders|e] db1]; cbn in *;
      [| discriminate].
    rewrite (Hget orders eq_refl).
    destruct (get_order_count status db1) as [[total|e] db2]; cbn; [| discriminate].
    intros [= <-]. exists total. reflexivity.
  - intros address page limit reply.
    unfold get_orders_by_issuer, bind, ret.
    specialize (Hget None (Some address) None limit ((page - 1) * limit)).
    destruct (get_orders _ _ _ _ _ _ db) as [[orders|e] db1]; cbn in *;
      [| discriminate].
    rewrite (Hget orders eq_refl). intros [= <-]. reflexivity.
Qed.

(** An order that the listener has indexed cannot be read back. *)
Example indexed_order_cannot_be_read :
  fst (route_get_order 1 Scenarios.one_order) =
  Raise "TypeError: Order.__init__() got an unexpected keyword argument 'indexed_at'" /\
  fst (route_get_order 2 Scenarios.one_order) = Ok (HTTPException 404 "Order not found").
Proof. split; vm_compute; reflexivity. Qed.

(** ** Counts *)

Lemma count_status_disjoint (st1 st2 : Z) (db : Database) :
  st1 <> st2 ->
  count_status st1 db + count_status st2 db <= Z.of_nat (size (orders db)).
Proof.
  intros Hne. unfold count_status.
  set (m1 := filter (fun kv => Order.status (columns (snd kv)) = st1) (orders db)).
  set (m2 := filter (fun kv => Order.status (columns (snd kv)) = st2) (orders db)).
  assert (Hdisj : m1 ##ₘ m2).
  { apply map_disjoint_spec. intros i x y H1 H2.
    apply map_lookup_filter_Some in H1, H2. cbn in *.
    destruct H1 as [H1 E1], H2 as [H2 E2]. congruence. }
  assert (Hsub : m1 ∪ m2 ⊆ orders db).
  { apply map_union_least; apply map_filter_subseteq. }
  apply map_subseteq_size in Hsub. rewrite map_size_disj_union in Hsub by exact Hdisj.
  lia.
Qed.

(** X14.  The statistics of a connected database are consistent: no
    count is negative, the open and the completed orders together are no
    more than all the orders, and, when every challenge belongs to an
    indexed order, there are no more challenges than orders.  Without
    database [get_stats] returns the empty dictionary and
    [get_order_count] returns 0. *)
Theorem get_stats_counts (db : Database) :
  (pool db = false ->
   fst (get_stats db) = Ok None /\
   forall status, fst (get_order_count status db) = Ok 0) /\
  (pool db = true ->
   exists stats,
     fst (get_stats db) = Ok (Some stats) /\
     fst (get_order_count None db) = Ok (total_orders stats) /\
     fst (get_order_count (Some 0) db) = Ok (open_orders stats) /\
     fst (get_order_count (Some 4) db) = Ok (completed_orders stats) /\
     0 <= open_orders stats /\ 0 <= completed_orders stats /\
     0 <= total_challenges stats /\
     open_orders stats + completed_orders stats <= total_orders stats /\
     (references_hold db -> total_challenges stats <= total_orders stats)).
Proof.
  unfold get_stats, get_order_count. split; intros Hpool; rewrite Hpool; cbn.
  - split; [reflexivity | intros status; reflexivity].
  - eexists. split; [reflexivity |]. cbn.
    repeat split; try (unfold count_status; lia).
    + apply count_status_disjoint. discriminate.
    + intros Href. apply inj_le.
      assert (H : (size (dom (challenges db) : gset Z) <=
                   size (dom (orders db) : gset Z))%nat).
      { apply subseteq_size. intros id Hid. apply elem_of_dom in Hid.
        apply elem_of_dom. apply (Href id). exact Hid. }
      rewrite !size_dom in H. exact H.
Qed.

Lemma get_stats_counts_witness :
  fst (get_stats Scenarios.one_order) = Ok (Some (mkStats 1 1 0 0)).
Proof.
  destruct get_stats_counts with (db := Scenarios.one_order) as [_ H].
  destruct (H eq_refl) as (stats & Hstats & _).
  rewrite Hstats. vm_compute in Hstats. injection Hstats as <-. reflexivity.
Defined.

(** ** Referential integrity *)

Lemma is_Some_insert {A : Type} (k i : Z) (v : A) (m : gmap Z A) :
  is_Some (m !! i) -> is_Some (<[k := v]> m !! i).
Proof.
  intros H. destruct (decide (k = i)) as [->|Hne].
  - rewrite lookup_insert_eq. eauto.
  - rewrite lookup_insert_ne by done. exact H.
Qed.

Lemma is_Some_alter {A : Type} (f : A -> A) (k i : Z) (m : gmap Z A) :
  is_Some (m !! i) -> is_Some (alter f k m !! i).
Proof.
  intros [x Hx]. destruct (IndexerProps.lookup_alter_Some f k i m x Hx) as [y Hy].
  rewrite Hy. eauto.
Qed.

Lemma is_Some_insert_inv {A : Type} (k i : Z) (v : A) (m : gmap Z A) :
  is_Some (<[k := v]> m !! i) -> i = k \/ is_Some (m !! i).
Proof.
  destruct (decide (k = i)) as [->|Hne]; [left; reflexivity |].
  rewrite lookup_insert_ne by done. right. assumption.
Qed.

Lemma insert_order_references (now : Z) (o : Order.t) :
  preserves references_hold (insert_order now o).
Proof.
  intros db H id. unfold insert_order. destruct (pool db); cbn; [| apply H].
  destruct (orders db !! Order.id o); cbn;
    (split; intros Hs; apply is_Some_insert;
     [apply (proj1 (H id)) | apply (proj2 (H id))]; exact Hs).
Qed.

Lemma update_order_status_references (order_id status : Z) (solver : option string) :
  preserves references_hold (update_order_status order_id status solver).
Proof.
  intros db H id. unfold update_order_status. destruct (pool db); cbn; [| apply H].
  destruct solver as [s|]; [destruct (String.eqb s "") |]; cbn;
    (split; intros Hs; apply is_Some_alter;
     [apply (proj1 (H id)) | apply (proj2 (H id))]; exact Hs).
Qed.

Lemma insert_solution_references (s : Solution.t) :
  preserves references_hold (insert_solution s).
Proof.
  intros db H id. unfold insert_solution. destruct (pool db); cbn; [| apply H].
  destruct (solutions db !! Solution.order_id s) as [old|] eqn:Eold; cbn.
  - split; [| apply H]. intros Hs.
    apply is_Some_insert_inv in Hs. destruct Hs as [->|Hs].
    + apply (proj1 (H (Solution.order_id s))). rewrite Eold. eauto.
    + apply (proj1 (H id)). exact Hs.
  - destruct (orders db !! Solution.order_id s) as [o|] eqn:Eorder; cbn; [| apply H].
    split; [| apply H]. intros Hs.
    apply is_Some_insert_inv in Hs. destruct Hs as [->|Hs].
    + rewrite Eorder. eauto.
    + apply (proj1 (H id)). exact Hs.
Qed.

Lemma insert_challenge_references (c : Challenge.t) :
  preserves references_hold (insert_challenge c).
Proof.
  intros db H id. unfold insert_challenge. destruct (pool db); cbn; [| apply H].
  destruct (challenges db !! Challenge.order_id c) as [old|] eqn:Eold; cbn.
  - split; [apply H |]. intros Hs.
    apply is_Some_insert_inv in Hs. destruct Hs as [->|Hs].
    + apply (proj2 (H (Challenge.order_id c))). rewrite Eold. eauto.
    + apply (proj2 (H id)). exact Hs.
  - destruct (orders db !! Challenge.order_id c) as [o|] eqn:Eorder; cbn; [| apply H].
    split; [apply H |]. intros Hs.
    apply is_Some_insert_inv in Hs. destruct Hs as [->|Hs].
    + rewrite Eorder. eauto.
    + apply (proj2 (H id)). exact Hs.
Qed.

Lemma get_solution_references (order_id : Z) :
  preserves references_hold (get_solution order_id).
Proof.
  intros db H. unfold get_solution. destruct (pool db); exact H.
Qed.

(** X15.  The listener keeps the references of the tables: if every
    solution and every challenge belongs to an indexed order, this is
    still so after any event has been handled, after a catch-up and
    after a turn of the tail loop, whatever the node returns. *)
Theorem references_are_kept (w : World) (self : EventListener)
    (Href : references_hold (database self)) :
  (forall event_type ev,
     references_hold (database (snd (_handle_event w event_type ev self)))) /\
  references_hold (database (snd (_sync_historical_events w self))) /\
  references_hold (database (snd (listen_turn w self))).
Proof.
  pose proof insert_order_references as H1.
  pose proof update_order_status_references as H2.
  pose proof insert_solution_references as H3.
  pose proof insert_challenge_references as H4.
  pose proof get_solution_references as H5.
  split; [| split].
  - intros event_type ev.
    apply (StoreProps.handle_event_invariant references_hold w H1 H2 H3 H4 H5).
    exact Href.
  - apply (StoreProps.sync_historical_events_invariant references_hold w
             H1 H2 H3 H4 H5).
    exact Href.
  - apply (StoreProps.listen_turn_invariant references_hold w H1 H2 H3 H4 H5).
    exact Href.
Qed.

Lemma references_are_kept_witness :
  references_hold
    (database
       (snd (_sync_historical_events (Scenarios.flaky_node 2500)
               (Scenarios.listener 0 Scenarios.empty_database)))).
Proof.
  apply (references_are_kept (Scenarios.flaky_node 2500)
           (Scenarios.listener 0 Scenarios.empty_database)).
  intros id. cbn. rewrite !lookup_empty. split; intros [x Hx]; discriminate.
Defined.

End QueryProps.

(** * The broadcast to the websockets *)

Module MainProps.
Import Main.

Section Broadcast.

Variable Message : Type.
Variable send_json : WebSocket -> Message -> result unit.

Lemma failed_sends_failed (message : Message) (sockets : list WebSocket)
    (ws : WebSocket) :
  In ws (failed_sends Message send_json message sockets) -> sent Message send_json message ws = false.
Proof.
  induction sockets as [|x sockets IH]; cbn; [intros [] |].
  destruct (send_json x message) eqn:E; [exact IH |].
  intros [<-|Hin]; [unfold sent; rewrite E; reflexivity | apply IH; exact Hin].
Qed.

(** Removing sockets that are all different from [x] leaves [x]
    where it is. *)
Lemma remove_all_cons (x : WebSocket) (disconnected connected r : list WebSocket) :
  ~ In x disconnected ->
  remove_all disconnected connected = Ok r ->
  remove_all disconnected (x :: connected) = Ok (x :: r).
Proof.
  revert connected r. induction disconnected as [|y disconnected IH];
    intros connected r Hnot; cbn.
  - intros [= <-]. reflexivity.
  - destruct (Nat.eqb_spec y x) as [->|Hne]; [exfalso; apply Hnot; left; reflexivity |].
    destruct (remove y connected) as [connected'|e]; cbn; [| discriminate].
    apply IH. intros Hin. apply Hnot. right. exact Hin.
Qed.

(** X16.  [broadcast_event] never raises, and after it the list of
    connected websockets holds exactly the sockets to which the message
    could be sent, in their former order: a socket whose send raised is
    dropped, and no other is. *)
Theorem broadcast_keeps_the_sockets_reached (message : Message)
    (connected_websockets : list WebSocket) :
  broadcast_event Message send_json message connected_websockets =
  Ok (List.filter (sent Message send_json message) connected_websockets).
Proof.
  unfold broadcast_event.
  induction connected_websockets as [|ws sockets IH]; [reflexivity |].
  cbn [failed_sends List.filter]. unfold sent at 1.
  destruct (send_json ws message) eqn:E.
  - apply remove_all_cons; [| exact IH].
    intros Hin. apply failed_sends_failed in Hin. unfold sent in Hin.
    rewrite E in Hin. discriminate.
  - cbn. rewrite Nat.eqb_refl. cbn. exact IH.
Qed.

End Broadcast.

End MainProps.

(** * Orders as the SDK decodes them *)

Module SdkProps.
Import Bot Sdk.

Local Open Scope Z_scope.

Lemma OrderStatus_of_range (n : Z) :
  (exists s, OrderStatus_of n = Ok s) <-> 0 <= n <= 7.
Proof.
  split.
  - intros [s Hs]. destruct n as [|p|p]; [lia | | discriminate].
    do 3 (destruct p as [p|p|]; try discriminate; try lia).
  - intros H.
    assert (n = 0 \/ n = 1 \/ n = 2 \/ n = 3 \/ n = 4 \/ n = 5 \/ n = 6 \/ n = 7)
      as [->|[->|[->|[->|[->|[->|[->| ->]]]]]]] by lia;
      eexists; reflexivity.
Qed.

Lemma Order_of_raw_decodable (raw : RawOrder) :
  (exists order, Order_of_raw raw = Ok order) <-> decodable raw.
Proof.
  unfold Order_of_raw, decodable, ProblemType_of, TimeTier_of, bind_result.
  destruct (Z.leb_spec 0 (raw3 raw)), (Z.leb_spec (raw3 raw) 4); cbn;
    try (split; [intros [? ?]; discriminate | lia]).
  destruct (Z.leb_spec 0 (raw4 raw)), (Z.leb_spec (raw4 raw) 3); cbn;
    try (split; [intros [? ?]; discriminate | lia]).
  pose proof (OrderStatus_of_range (raw5 raw)) as Hs.
  destruct (OrderStatus_of (raw5 raw)) as [s|e].
  - split; [intros _ | intros _; eexists; reflexivity].
    repeat split; try lia; apply Hs; eauto.
  - split; [intros [? ?]; discriminate |].
    intros (_ & _ & H5). apply Hs in H5. destruct H5 as [s H5]. discriminate.
Qed.

(** The orders gathered so far stay in front. *)
Lemma collect_orders_app (raw_orders : list RawOrder) (orders : list Order) :
  collect_orders raw_orders orders = (orders ++ collect_orders raw_orders [])%list.
Proof.
  revert orders. induction raw_orders as [|raw raw_orders IH]; intros orders; cbn.
  - rewrite app_nil_r. reflexivity.
  - destruct (Order_of_raw raw) as [order|e]; [| apply IH].
    rewrite IH, (IH [order]), <- app_assoc. reflexivity.
Qed.

(** X17.  [get_order] raises [ValueError] exactly for an order whose
    problem type, time tier or status is no member of its enumeration
    (a status code 8, say), and [get_open_orders] silently leaves such
    orders out: it returns, in the order of the contract's list, the
    decoding of each entry that [get_order] would decode, and raises
    only if the contract call itself does.  A decoded order has no
    solver exactly when the contract gives the zero address. *)
Theorem open_orders_leave_out_what_get_order_rejects (raw_orders : list RawOrder) :
  (forall raw, (exists e, get_order (Ok raw) = Raise e) <-> ~ decodable raw) /\
  get_open_orders (Ok raw_orders) =
  Ok (omap (fun raw => match Order_of_raw raw with
                       | Ok order => Some order
                       | Raise _ => None
                       end) raw_orders) /\
  (forall orders, get_open_orders (Ok raw_orders) = Ok orders ->
     (length orders <= length raw_orders)%nat /\
     (Forall decodable raw_orders -> length orders = length raw_orders)) /\
  (forall raw order, Order_of_raw raw = Ok order ->
     id order = raw0 raw /\ issuer order = raw1 raw /\ reward order = raw6 raw /\
     deadline order = raw8 raw /\
     (solver order = None <-> raw9 raw = zero_address) /\
     (forall a, solver order = Some a -> a = raw9 raw)).
Proof.
  split; [| split; [| split]].
  - intros raw. cbn. pose proof (Order_of_raw_decodable raw) as H.
    destruct (Order_of_raw raw) as [order|e].
    + split; [intros [? ?]; discriminate |].
      intros Hnot. exfalso. apply Hnot. apply H. eauto.
    + split; [| eauto]. intros _ Hd. apply H in Hd. destruct Hd as [? ?]. discriminate.
  - cbn. f_equal. induction raw_orders as [|raw raw_orders IH]; [reflexivity |].
    cbn. destruct (Order_of_raw raw) as [order|e]; [| exact IH].
    rewrite collect_orders_app, IH. reflexivity.
  - intros orders. cbn. intros [= <-].
    induction raw_orders as [|raw raw_orders IH]; [cbn; split; [lia | reflexivity] |].
    cbn. pose proof (Order_of_raw_decodable raw) as Hraw.
    destruct (Order_of_raw raw) as [order|e].
    + rewrite collect_orders_app, length_app. cbn. destruct IH as [IH1 IH2].
      split; [lia |]. intros Hall. inversion Hall; subst. rewrite IH2 by assumption.
      reflexivity.
    + destruct IH as [IH1 IH2]. split; [lia |].
      intros Hall. inversion Hall as [|? ? Hd]; subst.
      apply Hraw in Hd. destruct Hd as [? ?]. discriminate.
  - intros raw order. unfold Order_of_raw, bind_result.
    destruct (ProblemType_of (raw3 raw)); [| discriminate].
    destruct (TimeTier_of (raw4 raw)); [| discriminate].
    destruct (OrderStatus_of (raw5 raw)); [| discriminate].
    intros [= <-]. cbn.
    destruct (String.eqb_spec (raw9 raw) zero_address) as [Hz|Hz];
      repeat split; try congruence; try discriminate.
Qed.

(** Status 8 is "Rejected" for the indexer and unknown to the SDK. *)
Example rejected_order_is_left_out :
  let raw status := mkRawOrder 7 "0x155UER" "0xfeed" 0 1 status 5000000 100 160
                      zero_address in
  (exists e, get_order (Ok (raw 8)) = Raise e) /\
  get_open_orders (Ok [raw 0; raw 8; raw 1]) =
  Ok [mkOrder 7 "0x155UER" "0xfeed" 0 1 OPEN 5000000 100 160 None;
      mkOrder 7 "0x155UER" "0xfeed" 0 1 ACCEPTED 5000000 100 160 None].
Proof. split; [eexists |]; vm_compute; reflexivity. Qed.

End SdkProps.

(** * Further properties of the bot *)

Module TraceProps.
Import Bot BotProps Traces.

Local Open Scope Z_scope.

(** ** The in-memory log *)

Lemma last_drop_lt {A : Type} (n : nat) (l : list A) :
  (n < length l)%nat -> last (drop n l) = last l.
Proof.
  revert n. induction l as [|x l IH]; intros n Hn; [cbn in Hn; lia |].
  destruct n as [|n]; [reflexivity |]. cbn [drop].
  cbn in Hn. rewrite IH by lia.
  destruct l as [|y l]; [cbn in Hn; lia | reflexivity].
Qed.

(** X18.  [BotState.add_log] keeps the in-memory log to its last
    hundred entries: after any call the log has at most 100 entries
    (one more than before, up to that bound), its last entry is the
    message just logged, and it is the end of the former log followed by
    that message; the console gets every message.  Nothing else of the
    bot changes and the call never raises. *)
Theorem add_log_keeps_last_hundred (message level : string) (s : State) :
  let outcome := add_log message level s in
  fst outcome = Ok tt /\
  length (logs (snd outcome)) = Nat.min 100 (S (length (logs s))) /\
  last (logs (snd outcome)) = Some (message, level) /\
  (exists dropped,
     (logs s ++ [(message, level)] = dropped ++ logs (snd outcome))%list /\
     length dropped = (S (length (logs s)) - 100)%nat) /\
  console (snd outcome) = (console s ++ [(level, message)])%list /\
  trace (snd outcome) = trace s /\ stats (snd outcome) = stats s /\
  time (snd outcome) = time s /\ order_answers (snd outcome) = order_answers s /\
  tx_outcomes (snd outcome) = tx_outcomes s.
Proof.
  unfold add_log.
  cbn [fst snd logs console trace stats time order_answers tx_outcomes].
  unfold last_100. rewrite length_app. cbn [length].
  replace (length (logs s) + 1)%nat with (S (length (logs s))) by lia.
  repeat split.
  - rewrite length_skipn, length_app. cbn [length]. lia.
  - change (@skipn) with (@drop). rewrite last_drop_lt by (rewrite length_app; cbn; lia).
    apply last_snoc.
  - exists (take (S (length (logs s)) - 100) (logs s ++ [(message, level)])). split.
    + change (@skipn) with (@drop). symmetry. apply take_drop.
    + rewrite length_take, length_app. cbn. lia.
Qed.

(** ** Commit before reveal *)

Lemma commits_before_reveals_sound
    (solidity_keccak : string -> string -> string)
    (committed : list (Z * string)) (l : list Effect) :
  commits_before_reveals solidity_keccak committed l = true ->
  forall before after order_id solution salt,
    l = (before ++ Sent (revealSolution order_id solution salt) :: after)%list ->
    In (order_id, solidity_keccak solution salt) committed \/
    In (Sent (commitSolution order_id (solidity_keccak solution salt))) before.
Proof.
  revert committed. induction l as [|e l IH]; intros committed Hscan before after
    order_id solution salt Hl.
  - destruct before; discriminate.
  - destruct before as [|b before]; cbn in Hl; injection Hl as -> Hl.
    + cbn in Hscan. apply andb_prop in Hscan. destruct Hscan as [Hex _].
      apply existsb_exists in Hex. destruct Hex as ([i h] & Hin & Hc).
      cbn in Hc. apply andb_prop in Hc. destruct Hc as [Hi Hh].
      apply Z.eqb_eq in Hi. apply String.eqb_eq in Hh. subst. left. exact Hin.
    + assert (Hnext : exists committed',
                 commits_before_reveals solidity_keccak committed' l = true /\
                 forall c, In c committed' ->
                           In c committed \/
                           exists i h, c = (i, h) /\ b = Sent (commitSolution i h)).
      { destruct b as [n|i|tx|[i|i h|i sol sa]]; cbn in Hscan;
          try (exists committed; split; [exact Hscan | auto]).
        - exists ((i, h) :: committed). split; [exact Hscan |].
          intros c [<-|Hin]; [right; eauto | left; exact Hin].
        - apply andb_prop in Hscan. exists committed. split; [apply Hscan | auto]. }
      destruct Hnext as (committed' & Hscan' & Hfrom).
      destruct (IH committed' Hscan' before after order_id solution salt Hl)
        as [Hin|Hin]; [| right; right; exact Hin].
      destruct (Hfrom _ Hin) as [Hc|(i & h & [= <- <-] & ->)];
        [left; exact Hc | right; left; reflexivity].
Qed.

Lemma commits_before_reveals_follow
    (solidity_keccak : string -> string -> string) (l : list Effect) :
  commits_before_reveals solidity_keccak [] l = true ->
  reveals_follow_commits solidity_keccak l.
Proof.
  intros Hscan before after order_id solution salt Hl.
  destruct (commits_before_reveals_sound solidity_keccak [] l Hscan before after
              order_id solution salt Hl) as [[]|Hin].
  exact Hin.
Qed.

Lemma commits_before_reveals_quiet
    (solidity_keccak : string -> string -> string)
    (committed : list (Z * string)) (mid rest : list Effect) :
  forallb quiet mid = true ->
  commits_before_reveals solidity_keccak committed (mid ++ rest) =
  commits_before_reveals solidity_keccak committed rest.
Proof.
  induction mid as [|e mid IH]; intros Hq; [reflexivity |].
  cbn in Hq. apply andb_prop in Hq. destruct Hq as [He Hq].
  destruct e; try discriminate; cbn; apply IH; exact Hq.
Qed.

(** The polling loops only wait and read the order. *)
Lemma bot_loop_poll_quiet (retries : nat) (order_id : Z) (s : State) :
  exists mid,
    trace (snd (bot_loop_poll retries order_id s)) = (trace s ++ mid)%list /\
    forallb quiet mid = true /\
    tx_outcomes (snd (bot_loop_poll retries order_id s)) = tx_outcomes s.
Proof.
  revert s. induction retries as [|retries IH]; intros s.
  - exists []. cbn. rewrite app_nil_r. repeat split.
  - cbn [bot_loop_poll]. run_bot.
    destruct (order_answers s) as [|[check_order|e] answers]; cbn.
    + exists [Slept 3; GotOrder order_id]. rewrite <- app_assoc. repeat split.
    + destruct (is_COMMITTED (status check_order)); cbn.
      * exists [Slept 3; GotOrder order_id]. rewrite <- app_assoc. repeat split.
      * match goal with
        | |- context [bot_loop_poll retries order_id ?s1] =>
            destruct (IH s1) as (mid & Htr & Hq & Htx)
        end.
        cbn in Htr, Htx. exists (Slept 3 :: GotOrder order_id :: mid).
        rewrite Htr, Htx, <- !app_assoc. repeat split. exact Hq.
    + exists [Slept 3; GotOrder order_id]. rewrite <- app_assoc. repeat split.
Qed.

Lemma solve_and_submit_poll_quiet (retries : nat) (order_id : Z) (s : State) :
  exists mid,
    trace (snd (solve_and_submit_poll retries order_id s)) = (trace s ++ mid)%list /\
    forallb quiet mid = true /\
    tx_outcomes (snd (solve_and_submit_poll retries order_id s)) = tx_outcomes s.
Proof.
  revert s. induction retries as [|retries IH]; intros s.
  - exists []. cbn. rewrite app_nil_r. repeat split.
  - cbn [solve_and_submit_poll]. run_bot.
    destruct (order_answers s) as [|[check_order|e] answers]; cbn.
    + exists [Slept 3; GotOrder order_id]. rewrite <- app_assoc. repeat split.
    + destruct (is_COMMITTED (status check_order)); cbn.
      * exists [Slept 3; GotOrder order_id]. rewrite <- app_assoc. repeat split.
      * match goal with
        | |- context [solve_and_submit_poll retries order_id ?s1] =>
            destruct (IH s1) as (mid & Htr & Hq & Htx)
        end.
        cbn in Htr, Htx. exists (Slept 3 :: GotOrder order_id :: mid).
        rewrite Htr, Htx, <- !app_assoc. repeat split. exact Hq.
    + exists [Slept 3; GotOrder order_id]. rewrite <- app_assoc. repeat split.
Qed.

Lemma commits_before_reveals_quiet_only
    (solidity_keccak : string -> string -> string)
    (committed : list (Z * string)) (mid : list Effect) :
  forallb quiet mid = true ->
  commits_before_reveals solidity_keccak committed mid = true.
Proof.
  intros Hq. rewrite <- (app_nil_r mid).
  rewrite commits_before_reveals_quiet by exact Hq. reflexivity.
Qed.

(** Closes a goal [exists l, trace s' = trace s ++ l /\ check l = true]
    once the run has been carried out. *)
Ltac close_trace :=
  cbn [fst snd trace] in *;
  repeat match goal with
  | H : trace _ = _ |- _ => rewrite H
  end;
  rewrite <- ?app_assoc; cbn [app];
  first
    [ exists []; split; [symmetry; apply app_nil_r | reflexivity]
    | eexists; split; [reflexivity |];
      cbn [commits_before_reveals];
      rewrite ?commits_before_reveals_quiet by assumption;
      cbn [commits_before_reveals existsb fst snd];
      rewrite ?Z.eqb_refl, ?String.eqb_refl;
      first [reflexivity | apply commits_before_reveals_quiet_only; assumption] ].

(** Carries on a run, leaving the polling loops folded. *)
Ltac step := cbn -[solve_and_submit_poll bot_loop_poll last_100 Z.add].

Lemma solve_and_submit_trace (solidity_keccak : string -> string -> string)
    (order_id : Z) (solved : result string) (salt : string) (s : State) :
  exists l,
    trace (snd (solve_and_submit solidity_keccak order_id solved salt s)) =
    (trace s ++ l)%list /\
    commits_before_reveals solidity_keccak [] l = true.
Proof.
  unfold solve_and_submit. destruct solved as [solution|e]; run_bot;
    [| close_trace].
  destruct (tx_outcomes s) as [|[e|e|h|h b g st] rest] eqn:Etx; step;
    try close_trace.
  - (* no receipt could be fetched *)
    match goal with
    | |- context [solve_and_submit_poll 3 order_id ?s1] =>
        destruct (solve_and_submit_poll_quiet 3 order_id s1) as (mid & Htr & Hq & Htx);
        destruct (solve_and_submit_poll 3 order_id s1) as [[[|]|e] s2]
    end; cbn [fst snd trace tx_outcomes] in Htr, Htx |- *; step; try close_trace.
    rewrite Htx. destruct rest as [|[e|e|h'|h' b g st] rest]; step;
      try destruct (st =? 1); step; close_trace.
  - (* a receipt *)
    destruct (st =? 1); step.
    + destruct rest as [|[e|e|h'|h' b' g' st'] rest]; step;
        try destruct (st' =? 1); step; close_trace.
    + match goal with
      | |- context [solve_and_submit_poll 3 order_id ?s1] =>
          destruct (solve_and_submit_poll_quiet 3 order_id s1)
            as (mid & Htr & Hq & Htx);
          destruct (solve_and_submit_poll 3 order_id s1) as [[[|]|e] s2]
      end; cbn [fst snd trace tx_outcomes] in Htr, Htx |- *; step; try close_trace.
      rewrite Htx. destruct rest as [|[e|e|h'|h' b' g' st'] rest]; step;
        try destruct (st' =? 1); step; close_trace.
Qed.

Lemma bot_loop_commit_reveal_trace (solidity_keccak : string -> string -> string)
    (order : Order) (solution salt : string) (s : State) :
  exists l,
    trace (snd (try_except
                  (bot_loop_commit_reveal solidity_keccak order solution salt)
                  (fun submit_err =>
                     add_log "[BOT] Submit error" "error" ;;
                     try_except
                       (do final_order <- get_order (id order);
                        add_log "[BOT] Final order status" "info")
                       (fun _ => ret tt))%M s)) = (trace s ++ l)%list /\
    commits_before_reveals solidity_keccak [] l = true.
Proof.
  unfold bot_loop_commit_reveal. run_bot.
  destruct (tx_outcomes s) as [|[e|e|h|h b g st] rest] eqn:Etx; step;
    try (destruct (order_answers s) as [|[o|e'] answers]; step; close_trace).
  - (* no receipt could be fetched *)
    match goal with
    | |- context [bot_loop_poll 5 (id order) ?s1] =>
        destruct (bot_loop_poll_quiet 5 (id order) s1) as (mid & Htr & Hq & Htx);
        destruct (bot_loop_poll 5 (id order) s1) as [[[|]|e] s2]
    end; cbn [fst snd trace tx_outcomes] in Htr, Htx |- *; step;
      try close_trace;
      try (destruct (order_answers s2) as [|[o|e'] answers]; step; close_trace).
    rewrite Htx. destruct rest as [|[e|e|h'|h' b g st] rest]; step;
      try destruct (st =? 1); step;
      try close_trace;
      destruct (order_answers s2) as [|[o|e'] answers]; step; close_trace.
  - (* a receipt *)
    destruct (st =? 1); step.
    + destruct rest as [|[e|e|h'|h' b' g' st'] rest]; step;
        try destruct (st' =? 1); step;
        try close_trace;
        destruct (order_answers s) as [|[o|e'] answers]; step; close_trace.
    + match goal with
      | |- context [bot_loop_poll 5 (id order) ?s1] =>
          destruct (bot_loop_poll_quiet 5 (id order) s1) as (mid & Htr & Hq & Htx);
          destruct (bot_loop_poll 5 (id order) s1) as [[[|]|e] s2]
      end; cbn [fst snd trace tx_outcomes] in Htr, Htx |- *; step;
        try close_trace;
        try (destruct (order_answers s2) as [|[o|e'] answers]; step; close_trace).
      rewrite Htx. destruct rest as [|[e|e|h'|h' b' g' st'] rest]; step;
        try destruct (st' =? 1); step;
        try close_trace;
        destruct (order_answers s2) as [|[o|e'] answers]; step; close_trace.
Qed.

Lemma bot_loop_submit_trace (address : string)
    (solidity_keccak : string -> string -> string)
    (order : Order) (solution salt : string) (s : State) :
  exists l,
    trace (snd (bot_loop_submit address solidity_keccak order solution salt s)) =
    (trace s ++ l)%list /\
    commits_before_reveals solidity_keccak [] l = true.
Proof.
  unfold bot_loop_submit.
  set (block := try_except _ _).
  assert (Hblock : forall s1, exists l,
             trace (snd (block s1)) = (trace s1 ++ l)%list /\
             commits_before_reveals solidity_keccak [] l = true)
    by (intros s1; apply bot_loop_commit_reveal_trace).
  clearbody block. run_bot.
  destruct (order_answers s) as [|[fresh_order|e] answers] eqn:Eans; step;
    try close_trace.
  destruct (solver fresh_order) as [fresh_solver|]; step; [| close_trace].
  destruct (Z.max 0 (deadline fresh_order - time s) <? 30); step;
    (destruct (negb (String.eqb (lower fresh_solver) (lower address))); step;
     [close_trace |];
     destruct (is_COMMITTED (status fresh_order)); step; [close_trace |];
     match goal with
     | |- context [block ?s1] => destruct (Hblock s1) as (l & Htr & Hl)
     end;
     rewrite Htr; cbn [trace]; rewrite <- app_assoc;
     eexists; split; [reflexivity |];
     cbn [app commits_before_reveals]; exact Hl).
Qed.

Lemma submit_solution_trace (solidity_keccak : string -> string -> string)
    (order_id : Z) (solution salt : string) (s : State) :
  exists l,
    trace (snd (submit_solution solidity_keccak order_id solution salt s)) =
    (trace s ++ l)%list /\
    commits_before_reveals solidity_keccak [] l = true.
Proof.
  unfold submit_solution. run_bot.
  destruct (tx_outcomes s) as [|[e|e|h|h b g st] rest] eqn:Etx; step;
    try close_trace.
  destruct (st =? 1); step; [| close_trace].
  destruct rest as [|[e|e|h'|h' b' g' st'] rest]; step; close_trace.
Qed.

(** X19.  The bot never reveals what it has not committed.  In every run
    of [OminisSDK.submit_solution], of step 3 of [bot_loop] and of
    [AutoSolver.solve_and_submit], whatever the node answers, each
    reveal that is sent comes after a commit that was sent in the same
    run, for the same order, with the digest of the very solution and
    salt that are revealed. *)
Theorem reveals_follow_commits_in_every_run (address : string)
    (solidity_keccak : string -> string -> string)
    (order : Order) (solution salt : string) (solved : result string) (s : State) :
  (exists l,
     trace (snd (submit_solution solidity_keccak (id order) solution salt s)) =
     (trace s ++ l)%list /\
     reveals_follow_commits solidity_keccak l) /\
  (exists l,
     trace (snd (bot_loop_submit address solidity_keccak order solution salt s)) =
     (trace s ++ l)%list /\
     reveals_follow_commits solidity_keccak l) /\
  (exists l,
     trace (snd (solve_and_submit solidity_keccak (id order) solved salt s)) =
     (trace s ++ l)%list /\
     reveals_follow_commits solidity_keccak l).
Proof.
  split; [| split].
  - destruct (submit_solution_trace solidity_keccak (id order) solution salt s)
      as (l & Htr & Hl).
    exists l. split; [exact Htr | apply commits_before_reveals_follow; exact Hl].
  - destruct (bot_loop_submit_trace address solidity_keccak order solution salt s)
      as (l & Htr & Hl).
    exists l. split; [exact Htr | apply commits_before_reveals_follow; exact Hl].
  - destruct (solve_and_submit_trace solidity_keccak (id order) solved salt s)
      as (l & Htr & Hl).
    exists l. split; [exact Htr | apply commits_before_reveals_follow; exact Hl].
Qed.

End TraceProps.

(** ** The bot server: problem storage and solving *)

Module BotServerProps.
Import Bot BotProps BotServer.

Lemma hex_digit_lower (c : ascii) : hex_digit c = true -> hex_digit (lower_ascii c) = true.
Proof. destruct c as [[] [] [] [] [] [] [] []]; vm_compute; congruence. Qed.

Lemma hex_digit_not_x (c : ascii) : hex_digit c = true -> Ascii.eqb "x" c = false.
Proof. destruct c as [[] [] [] [] [] [] [] []]; vm_compute; congruence. Qed.

Lemma hex_lower (s : string) : hex s = true -> hex (lower s) = true.
Proof.
  induction s as [|c s IH]; cbn; [reflexivity |].
  intros [Hc Hs]%andb_prop. rewrite (hex_digit_lower c Hc), (IH Hs). reflexivity.
Qed.

Lemma hex_strip_prefix (s : string) : hex s = true -> strip_prefix "0x" s = None.
Proof.
  destruct s as [|a [|b s]]; cbn [strip_prefix hex];
    [reflexivity | now destruct (Ascii.eqb "0" a) |].
  intros [_ [Hb _]%andb_prop]%andb_prop.
  rewrite (hex_digit_not_x b Hb). now destruct (Ascii.eqb "0" a).
Qed.

Lemma hex_prefix (s : string) : hex s = true -> String.prefix "0x" s = false.
Proof.
  destruct s as [|a [|b s]]; cbn [String.prefix hex]; [reflexivity | |].
  - intros _. destruct (ascii_dec "0" a); reflexivity.
  - intros [_ [Hb _]%andb_prop]%andb_prop.
    destruct (ascii_dec "0" a); [| reflexivity].
    destruct (ascii_dec "x" b) as [<-|]; [discriminate Hb | reflexivity].
Qed.

Lemma hex_replace_fuel (fuel : nat) (s : string) :
  hex s = true -> replace_fuel fuel "0x" "" s = s.
Proof.
  revert s; induction fuel as [|fuel IH]; intros s Hs; [reflexivity |].
  cbn [replace_fuel]. rewrite (hex_strip_prefix s Hs).
  destruct s as [|c s]; [reflexivity |].
  cbn in Hs. apply andb_prop in Hs as [_ Hs]. now rewrite (IH s Hs).
Qed.

Lemma prefix_0x (s : string) : String.prefix "0x" ("0x" ++ s) = true.
Proof.
  cbn [String.prefix append].
  destruct (ascii_dec "0" "0"); [| congruence].
  destruct (ascii_dec "x" "x"); [| congruence].
  destruct s; reflexivity.
Qed.

Lemma hex_replace (s : string) : hex s = true -> replace "0x" "" s = s.
Proof. apply hex_replace_fuel. Qed.

Lemma hex_replace_prefixed (s : string) :
  hex s = true -> replace "0x" "" ("0x" ++ s) = s.
Proof.
  intros Hs. unfold replace.
  change (replace_fuel (String.length ("0x" ++ s)) "0x" "" ("0x" ++ s))
    with ("" ++ replace_fuel (S (String.length s)) "0x" "" s).
  now rewrite (hex_replace_fuel _ _ Hs).
Qed.

Lemma lower_written (prefixed : bool) (d : string) :
  lower (written prefixed d) = written prefixed (lower d).
Proof. destruct prefixed; reflexivity. Qed.

(** On a digest, written with or without prefix and in any letter
    case, the three normalisations give the same key. *)
Lemma keys_of_digest (prefixed : bool) (d : string) :
  hex d = true ->
  stored_key (written prefixed d) = "0x" ++ lower d /\
  looked_up_key (written prefixed d) = "0x" ++ lower d /\
  pushed_key (written prefixed d) = "0x" ++ lower d.
Proof.
  intros Hd%hex_lower.
  unfold stored_key, looked_up_key, pushed_key. rewrite lower_written.
  destruct prefixed; cbn [written].
  - rewrite (hex_replace_prefixed _ Hd), prefix_0x. repeat split; reflexivity.
  - rewrite (hex_prefix _ Hd), (hex_replace _ Hd). repeat split; reflexivity.
Qed.

(** X20.  A problem filed through [POST /problems] under a digest is
    found under the same digest by [GET /problems/<hash>], by the
    look-up of [bot_loop] and [AutoSolver.solve_and_submit] and under
    the key that [solve_endpoint] makes of a hash that is not empty,
    whatever the letter case of the two writings and whether or not
    either carries the prefix 0x. *)
Theorem stored_problem_is_found (now text : string) (type : option Z)
    (problem_storage : gmap string Problem) (d d' : string) (prefixed prefixed' : bool) :
  hex d = true ->
  lower d' = lower d ->
  let stored :=
    snd (store_problem now
           (Some (mkStoreRequest (Some (written prefixed d)) (Some text) type))
           problem_storage) in
  let problem := mkProblem text (default 0%Z type) now in
  get_problem (written prefixed' d') stored = Some problem /\
  problem_text_of (written prefixed' d') stored = Some text /\
  stored !! pushed_key (written prefixed' d') = Some problem.
Proof.
  intros Hd Hlow stored problem.
  destruct (keys_of_digest prefixed d Hd) as (Hs & _ & _).
  assert (Hkeys : stored_key (written prefixed' d') = "0x" ++ lower d /\
                  looked_up_key (written prefixed' d') = "0x" ++ lower d /\
                  pushed_key (written prefixed' d') = "0x" ++ lower d).
  { pose proof (hex_lower d Hd) as Hld.
    unfold stored_key, looked_up_key, pushed_key. rewrite lower_written, Hlow.
    destruct prefixed'; cbn [written].
    - rewrite (hex_replace_prefixed _ Hld), prefix_0x. repeat split; reflexivity.
    - rewrite (hex_prefix _ Hld), (hex_replace _ Hld). repeat split; reflexivity. }
  destruct Hkeys as (Hk1 & Hk2 & Hk3).
  subst stored. unfold get_problem, problem_text_of, store_problem. cbn [snd].
  rewrite Hk1, Hk2, Hk3, Hs, !lookup_insert_eq. repeat split; reflexivity.
Qed.

Lemma stored_problem_is_found_witness :
  get_problem "0xAB12"
    (snd (store_problem "2025-01-01T00:00:00"
            (Some (mkStoreRequest (Some "ab12") (Some "d/dx x^2") None)) ∅)) =
    Some (mkProblem "d/dx x^2" 0 "2025-01-01T00:00:00") /\
  problem_text_of "0xAB12"
    (snd (store_problem "2025-01-01T00:00:00"
            (Some (mkStoreRequest (Some "ab12") (Some "d/dx x^2") None)) ∅)) =
    Some "d/dx x^2" /\
  snd (store_problem "2025-01-01T00:00:00"
         (Some (mkStoreRequest (Some "ab12") (Some "d/dx x^2") None)) ∅)
    !! pushed_key "0xAB12" = Some (mkProblem "d/dx x^2" 0 "2025-01-01T00:00:00").
Proof.
  apply (stored_problem_is_found "2025-01-01T00:00:00" "d/dx x^2" None ∅ "ab12" "AB12"
           false true); reflexivity.
Defined.

Section Solving.

Variable get_openai_client : option (Prompt -> result string).
Variable parse_gpt_solution : string -> string * list Step.
Variable steps_hash_of : list Step -> string.

(** With the key set and the model out of reach, the answer is the
    whole fallback dictionary and there are no steps. *)
Lemma solve_problem_unreachable (problem_type : Z) (problem_hash : string)
    (problem_text : option string) :
  unreachable get_openai_client ->
  solve_problem get_openai_client parse_gpt_solution true problem_type problem_hash
    problem_text =
  mkSolutionData
    (Dict (answer (solve_problem_fallback problem_type))
       (steps (solve_problem_fallback problem_type))) [].
Proof.
  unfold unreachable, solve_problem, solve_with_gpt.
  destruct get_openai_client as [create|]; [| reflexivity].
  intros Hraise.
  match goal with
  | |- context [create ?p] => destruct (Hraise p) as [e ->]
  end.
  reflexivity.
Qed.

(** The fallback answers are texts. *)
Lemma solve_problem_fallback_text (problem_type : Z) :
  exists solution, answer (solve_problem_fallback problem_type) = Text solution.
Proof.
  unfold solve_problem_fallback.
  destruct problem_type as [|[[|[]|]|[|[]|]|]|]; eexists; reflexivity.
Qed.

(** X21.  When [OPENAI_API_KEY] is set but the model cannot be reached
    (no client, or its call raises), [AutoSolver.solve_and_submit]
    stores a solution whose answer is the whole fallback dictionary,
    fails on it before the salt is drawn and returns [False] without
    any call to the contract. *)
Theorem unreachable_model_sends_nothing (solidity_keccak : string -> string -> string)
    (now : string) (problem_storage : gmap string Problem) (order_id : Z)
    (order : Order) (salt : string) (solution_storage : gmap string StoredSolution)
    (s : Bot.State) :
  unreachable get_openai_client ->
  let fallback := solve_problem_fallback (Bot.problem_type order) in
  let solved :=
    solve_and_submit_solved get_openai_client parse_gpt_solution steps_hash_of true now
      problem_storage order_id order solution_storage in
  (exists e, fst solved = Raise e) /\
  (exists entry,
     snd solved !! pretty order_id = Some entry /\
     s_answer entry = Dict (answer fallback) (steps fallback) /\
     s_steps entry = []) /\
  fst (Bot.solve_and_submit solidity_keccak order_id (fst solved) salt s) = Ok false /\
  trace (snd (Bot.solve_and_submit solidity_keccak order_id (fst solved) salt s)) =
    trace s.
Proof.
  intros Hout fallback solved.
  assert (Hsolved : solved =
    (Raise "TypeError: unhashable type: 'slice'",
     <[pretty order_id :=
         mkStoredSolution order_id (looked_up_key (Bot.problem_hash order))
           (Dict (answer fallback) (steps fallback)) [] (steps_hash_of []) now false
           "pending"]> solution_storage)).
  { subst solved. unfold solve_and_submit_solved.
    rewrite (solve_problem_unreachable _ _ _ Hout). reflexivity. }
  rewrite Hsolved. cbn [fst snd].
  split; [eexists; reflexivity |].
  split; [eexists; split; [apply lookup_insert_eq | split; reflexivity] |].
  unfold Bot.solve_and_submit. run_bot. split; reflexivity.
Qed.

(** X22.  In the same situation [POST /solve] answers according to
    whether an order is named: with an [order_id] it stores the
    dictionary as the answer of that order and then reports failure
    with the fallback text and steps; without one it reports success
    with the dictionary as solution and no steps, and stores nothing. *)
Theorem solve_endpoint_unreachable (now : string)
    (problem_storage : gmap string Problem) (data : SolveRequest)
    (solution_storage : gmap string StoredSolution) :
  unreachable get_openai_client ->
  let fallback := solve_problem_fallback (default 0%Z (r_problem_type data)) in
  let reply :=
    solve_endpoint get_openai_client parse_gpt_solution steps_hash_of true now
      problem_storage (Some data) solution_storage in
  match r_order_id data with
  | Some order_id =>
      (exists e, fst reply = Ok (SolveFailure e (answer fallback) (steps fallback))) /\
      exists entry,
        snd reply !! pretty order_id = Some entry /\
        s_answer entry = Dict (answer fallback) (steps fallback)
  | None =>
      fst reply = Ok (SolveSuccess (Dict (answer fallback) (steps fallback)) [] true) /\
      snd reply = solution_storage
  end.
Proof.
  intros Hout fallback reply. subst reply fallback. unfold solve_endpoint.
  destruct data as [type text hash [order_id|]];
    cbn [default from_option id r_problem_type r_problem_text r_problem_hash r_order_id];
    rewrite (solve_problem_unreachable _ _ _ Hout);
    unfold try_except, bind, ret, store_solution_data;
    cbn [answer steps slice_answer fst snd].
  - split; [eexists; reflexivity |].
    eexists. split; [apply lookup_insert_eq | reflexivity].
  - split; reflexivity.
Qed.

End Solving.

Lemma unreachable_model_sends_nothing_witness :
  let solved :=
    solve_and_submit_solved None (fun content => (content, [])) (fun _ => "0x00") true
      "2025-01-01T00:00:00" ∅ 7 (Scenarios.order_7 Bot.OPEN None) ∅ in
  (exists e, fst solved = Raise e) /\
  (exists entry,
     snd solved !! pretty 7%Z = Some entry /\
     s_answer entry =
       Dict (answer (solve_problem_fallback 0)) (steps (solve_problem_fallback 0)) /\
     s_steps entry = []) /\
  fst (Bot.solve_and_submit Scenarios.digest 7 (fst solved) "salt"
         (Scenarios.bot_state 120 [] [])) = Ok false /\
  trace (snd (Bot.solve_and_submit Scenarios.digest 7 (fst solved) "salt"
                (Scenarios.bot_state 120 [] []))) = [].
Proof.
  apply (unreachable_model_sends_nothing None (fun content => (content, []))
           (fun _ => "0x00") Scenarios.digest "2025-01-01T00:00:00" ∅ 7
           (Scenarios.order_7 Bot.OPEN None) "salt" ∅ (Scenarios.bot_state 120 [] [])).
  exact I.
Defined.

Lemma solve_endpoint_unreachable_witness :
  (exists e,
     fst (solve_endpoint (Some (fun _ => Raise "timeout")) (fun content => (content, []))
            (fun _ => "0x00") true "2025-01-01T00:00:00" ∅
            (Some (mkSolveRequest (Some 2%Z) None None (Some 7%Z))) ∅) =
     Ok (SolveFailure e (answer (solve_problem_fallback 2))
           (steps (solve_problem_fallback 2)))) /\
  exists entry,
    snd (solve_endpoint (Some (fun _ => Raise "timeout")) (fun content => (content, []))
           (fun _ => "0x00") true "2025-01-01T00:00:00" ∅
           (Some (mkSolveRequest (Some 2%Z) None None (Some 7%Z))) ∅) !! pretty 7%Z =
      Some entry /\
    s_answer entry =
      Dict (answer (solve_problem_fallback 2)) (steps (solve_problem_fallback 2)).
Proof.
  apply (solve_endpoint_unreachable (Some (fun _ => Raise "timeout"))
           (fun content => (content, [])) (fun _ => "0x00") "2025-01-01T00:00:00" ∅
           (mkSolveRequest (Some 2%Z) None None (Some 7%Z)) ∅).
  intros prompt. exists "timeout". reflexivity.
Defined.

End BotServerProps.

(** ** The auto-solver *)

Module AutoSolverProps.
Import Bot BotProps Traces TraceProps BotServer.

Local Open Scope Z_scope.

Lemma transactions_app (l1 l2 : list Effect) :
  transactions (l1 ++ l2) = (transactions l1 ++ transactions l2)%list.
Proof.
  induction l1 as [|[] l1 IH]; cbn; rewrite ?IH; reflexivity.
Qed.

Lemma transactions_quiet (l : list Effect) :
  forallb quiet l = true -> transactions l = [].
Proof.
  induction l as [|e l IH]; [reflexivity |].
  cbn. intros [He Hl]%andb_prop. destruct e; try discriminate; exact (IH Hl).
Qed.

(** Closes a goal [exists l, trace s' = trace s ++ l /\ check l = true]
    on the transactions of [l]. *)
Ltac close_sent :=
  cbn [fst snd trace] in *;
  repeat match goal with
  | H : trace _ = _ |- _ => rewrite H
  end;
  rewrite <- ?app_assoc; cbn [app];
  first
    [ exists []; split; [symmetry; apply app_nil_r | reflexivity]
    | eexists; split; [reflexivity |];
      cbn [transactions];
      rewrite ?transactions_app;
      rewrite ?transactions_quiet by assumption;
      cbn [transactions app commit_then_reveal];
      rewrite ?Z.eqb_refl; reflexivity ].

(** What [AutoSolver.solve_and_submit] sends: nothing, or the commit of
    its order, or that commit and then the reveal of its order. *)
Lemma solve_and_submit_sends (solidity_keccak : string -> string -> string)
    (order_id : Z) (solved : result string) (salt : string) (s : Bot.State) :
  exists l,
    trace (snd (Bot.solve_and_submit solidity_keccak order_id solved salt s)) =
    (trace s ++ l)%list /\
    commit_then_reveal order_id (transactions l) = true.
Proof.
  unfold Bot.solve_and_submit. destruct solved as [solution|e]; run_bot;
    [| close_sent].
  destruct (tx_outcomes s) as [|[e|e|h|h b g st] rest] eqn:Etx; step;
    try close_sent.
  - match goal with
    | |- context [solve_and_submit_poll 3 order_id ?s1] =>
        destruct (solve_and_submit_poll_quiet 3 order_id s1) as (mid & Htr & Hq & Htx);
        destruct (solve_and_submit_poll 3 order_id s1) as [[[|]|e] s2]
    end; cbn [fst snd trace tx_outcomes] in Htr, Htx |- *; step; try close_sent.
    rewrite Htx. destruct rest as [|[e|e|h'|h' b g st] rest]; step;
      try destruct (st =? 1); step; close_sent.
  - destruct (st =? 1); step.
    + destruct rest as [|[e|e|h'|h' b' g' st'] rest]; step;
        try destruct (st' =? 1); step; close_sent.
    + match goal with
      | |- context [solve_and_submit_poll 3 order_id ?s1] =>
          destruct (solve_and_submit_poll_quiet 3 order_id s1)
            as (mid & Htr & Hq & Htx);
          destruct (solve_and_submit_poll 3 order_id s1) as [[[|]|e] s2]
      end; cbn [fst snd trace tx_outcomes] in Htr, Htx |- *; step; try close_sent.
      rewrite Htx. destruct rest as [|[e|e|h'|h' b' g' st'] rest]; step;
        try destruct (st' =? 1); step; close_sent.
Qed.

(** The consequences of that shape for one order. *)
Lemma commit_then_reveal_for (order_id o : Z) (l : list Effect) :
  commit_then_reveal order_id (transactions l) = true ->
  (length (commits_for o l) <= 1)%nat /\
  (o <> order_id -> transactions_for o l = []).
Proof.
  unfold commits_for, transactions_for.
  destruct (transactions l) as [|[| o1 h |] [|[| | o2 sol salt] [|]]]; cbn;
    try discriminate; try (intros _; split; [lia | reflexivity]).
  - intros ->%Z.eqb_eq. destruct (Z.eqb_spec order_id o) as [<-|Hne]; cbn.
    + split; [lia | congruence].
    + split; [lia | reflexivity].
  - intros [->%Z.eqb_eq ->%Z.eqb_eq]%andb_prop.
    destruct (Z.eqb_spec order_id o) as [<-|Hne]; cbn.
    + split; [lia | congruence].
    + split; [lia | reflexivity].
Qed.

Lemma check_order_needs_solving_spec (bot_address : string) (core_contract : bool)
    (getOrderBot : Z -> result string) (order_id : Z) (s : AutoSolver.State) :
  exists r s',
    AutoSolver.check_order_needs_solving bot_address core_contract getOrderBot
      order_id s = (Ok r, s') /\
    AutoSolver.silent s s' /\
    (is_Some r -> order_id ∉ AutoSolver.processed_orders s).
Proof.
  unfold AutoSolver.check_order_needs_solving, AutoSolver.get_order_bot,
    AutoSolver.log, AutoSolver.on_bot, AutoSolver.silent.
  run_bot.
  destruct s as [processed running active storage b].
  cbn [AutoSolver.processed_orders AutoSolver.running AutoSolver.active_orders
       AutoSolver.solution_storage AutoSolver.bot].
  assert (Hnone : forall P : Prop, is_Some (@None (Order * string)) -> P)
    by (intros P [x Hx]; discriminate).
  destruct (bool_decide_reflect (order_id ∈ processed)) as [Hin|Hnot].
  { eexists _, _. split; [reflexivity |]. split; [| apply Hnone].
    repeat split. exists []. split; [symmetry; apply app_nil_r | reflexivity]. }
  cbn [AutoSolver.processed_orders AutoSolver.running AutoSolver.active_orders
       AutoSolver.solution_storage AutoSolver.bot].
  destruct (order_answers b) as [|[order|e] answers]; step;
    [| destruct core_contract; step;
       [destruct (getOrderBot order_id) as [assigned|e]; step;
        [destruct (String.eqb assigned "" ||
                   negb (String.eqb (lower assigned) (lower bot_address))); step;
         [| destruct (AutoSolver.is_OPEN_or_ACCEPTED (status order)); step;
            [destruct (Z.max 0 (deadline order - time b) <? 30); step |]] |] |] |];
    (eexists _, _; split; [reflexivity |];
     cbn [AutoSolver.processed_orders AutoSolver.running AutoSolver.active_orders
          AutoSolver.bot trace];
     split;
     [ repeat split; eexists; split; [reflexivity | reflexivity]
     | first [intros [x Hx]; discriminate Hx | intros _; exact Hnot] ]).
Qed.

Lemma transactions_for_app (o : Z) (l1 l2 : list Effect) :
  transactions_for o (l1 ++ l2) = (transactions_for o l1 ++ transactions_for o l2)%list.
Proof. unfold transactions_for. now rewrite transactions_app, List.filter_app. Qed.

Lemma commits_for_app (o : Z) (l1 l2 : list Effect) :
  commits_for o (l1 ++ l2) = (commits_for o l1 ++ commits_for o l2)%list.
Proof. unfold commits_for. now rewrite transactions_for_app, List.filter_app. Qed.

Lemma commits_for_none (o : Z) (l : list Effect) :
  transactions_for o l = [] -> commits_for o l = [].
Proof. unfold commits_for. now intros ->. Qed.

Lemma at_most_once_refl (o : Z) (s : AutoSolver.State) : AutoSolver.at_most_once o s s.
Proof.
  split; [reflexivity |]. exists []. rewrite app_nil_r.
  repeat split; [cbn; lia | intros H; now contradiction H].
Qed.

Lemma at_most_once_trans (o : Z) (s s' s'' : AutoSolver.State) :
  AutoSolver.at_most_once o s s' -> AutoSolver.at_most_once o s' s'' ->
  AutoSolver.at_most_once o s s''.
Proof.
  intros (Hsub1 & l1 & Htr1 & Hc1 & Hin1 & Hout1) (Hsub2 & l2 & Htr2 & Hc2 & Hin2 & Hout2).
  split; [etransitivity; eassumption |].
  exists (l1 ++ l2)%list. rewrite Htr2, Htr1, <- app_assoc.
  split; [reflexivity |].
  rewrite commits_for_app, transactions_for_app, length_app.
  split; [| split].
  - destruct (transactions_for o l1) as [|tx txs] eqn:E1.
    + rewrite (commits_for_none o l1 E1). cbn. exact Hc2.
    + rewrite (commits_for_none o l2) by (apply Hin2, Hout1; discriminate).
      cbn. lia.
  - intros Hin. rewrite (Hin1 Hin), (Hin2 (Hsub1 _ Hin)). reflexivity.
  - intros Hne. destruct (transactions_for o l1) as [|tx txs] eqn:E1.
    + apply Hout2. exact Hne.
    + apply Hsub2, Hout1. discriminate.
Qed.

Lemma silent_at_most_once (o : Z) (s s' : AutoSolver.State) :
  AutoSolver.silent s s' -> AutoSolver.at_most_once o s s'.
Proof.
  intros (Hp & _ & _ & l & Htr & Hl).
  split; [rewrite Hp; reflexivity |]. exists l. split; [exact Htr |].
  unfold commits_for, transactions_for. rewrite Hl. cbn.
  repeat split; [lia | intros H; now contradiction H].
Qed.

Section WithSdk.

Variable bot_address : string.
Variable solidity_keccak : string -> string -> string.
Variable core_contract : bool.
Variable getOrderBot : Z -> result string.
Variable get_openai_client : option (Prompt -> result string).
Variable parse_gpt_solution : string -> string * list Step.
Variable steps_hash_of : list Step -> string.
Variable OPENAI_API_KEY : bool.
Variable problem_storage : gmap string Problem.
Variable isoformat : Z -> string.
Variable urandom : Z -> string.

Lemma auto_solve_and_submit_spec (order_id : Z) (order : Order) (s : AutoSolver.State) :
  exists r s',
    AutoSolver.solve_and_submit solidity_keccak get_openai_client parse_gpt_solution
      steps_hash_of OPENAI_API_KEY problem_storage isoformat urandom order_id order s =
    (r, s') /\
    AutoSolver.processed_orders s' = AutoSolver.processed_orders s /\
    AutoSolver.running s' = AutoSolver.running s /\
    AutoSolver.active_orders s' = AutoSolver.active_orders s /\
    exists l,
      trace (AutoSolver.bot s') = (trace (AutoSolver.bot s) ++ l)%list /\
      commit_then_reveal order_id (transactions l) = true.
Proof.
  unfold AutoSolver.solve_and_submit.
  destruct (solve_and_submit_solved _ _ _ _ _ _ _ _ _) as [solved stored].
  destruct (solve_and_submit_sends solidity_keccak order_id solved (urandom order_id)
              (AutoSolver.bot s)) as (l & Htr & Hl).
  destruct (Bot.solve_and_submit _ _ _ _ _) as [r b].
  eexists _, _. split; [reflexivity |]. cbn in *. repeat split. eauto.
Qed.

(** One attempt: the order is marked, solved and submitted, and
    unmarked as active. *)
Lemma attempt_at_most_once (o order_id : Z) (order : Order) (s : AutoSolver.State) :
  order_id ∉ AutoSolver.processed_orders s ->
  exists r s',
    AutoSolver.try_finally
      (do success <-
         AutoSolver.solve_and_submit solidity_keccak get_openai_client
           parse_gpt_solution steps_hash_of OPENAI_API_KEY problem_storage isoformat
           urandom order_id order;
       if success then AutoSolver.log "Successfully solved order" "success"
       else ret tt)%M
      (fun s =>
         (Ok tt,
          AutoSolver.mkState (AutoSolver.processed_orders s) (AutoSolver.running s)
            (AutoSolver.active_orders s ∖ {[order_id]})
            (AutoSolver.solution_storage s) (AutoSolver.bot s)))
      (AutoSolver.mkState ({[order_id]} ∪ AutoSolver.processed_orders s)
         (AutoSolver.running s) ({[order_id]} ∪ AutoSolver.active_orders s)
         (AutoSolver.solution_storage s) (AutoSolver.bot s)) = (r, s') /\
    AutoSolver.at_most_once o s s'.
Proof.
  intros Hnot.
  unfold AutoSolver.try_finally, bind.
  match goal with
  | |- context [AutoSolver.solve_and_submit _ _ _ _ _ _ _ _ _ _ ?s1] =>
      destruct (auto_solve_and_submit_spec order_id order s1)
        as (r & s2 & -> & Hp & _ & _ & l & Htr & Hl)
  end.
  cbn [AutoSolver.processed_orders AutoSolver.bot] in Hp, Htr.
  destruct (commit_then_reveal_for order_id o l Hl) as [Hc Hother].
  assert (Hres : forall (r' : result unit) (s3 : AutoSolver.State),
            AutoSolver.processed_orders s3 = AutoSolver.processed_orders s2 ->
            trace (AutoSolver.bot s3) = trace (AutoSolver.bot s2) ->
            exists r0 s',
              (r',
               AutoSolver.mkState (AutoSolver.processed_orders s3)
                 (AutoSolver.running s3) (AutoSolver.active_orders s3 ∖ {[order_id]})
                 (AutoSolver.solution_storage s3) (AutoSolver.bot s3)) = (r0, s') /\
              AutoSolver.at_most_once o s s').
  { intros r' s3 Hp3 Htr3. eexists _, _. split; [reflexivity |].
    split; cbn [AutoSolver.processed_orders AutoSolver.bot].
    - rewrite Hp3, Hp. apply union_subseteq_r.
    - exists l. rewrite Htr3, Htr. split; [reflexivity |]. split; [exact Hc |].
      split.
      + intros Hin. apply Hother. intros ->. contradiction.
      + intros Hne. destruct (Z.eq_dec o order_id) as [->|Hneq].
        * rewrite Hp3, Hp. apply elem_of_union_l, elem_of_singleton. reflexivity.
        * contradiction Hne. apply Hother. exact Hneq. }
  destruct r as [[|]|e]; unfold AutoSolver.log, AutoSolver.on_bot, ret; run_bot;
    apply Hres; reflexivity.
Qed.

Lemma run_once_for_at_most_once (o : Z) (order_ids : list Z) (s : AutoSolver.State) :
  AutoSolver.at_most_once o s
    (snd (AutoSolver.run_once_for bot_address solidity_keccak core_contract getOrderBot
            get_openai_client parse_gpt_solution steps_hash_of OPENAI_API_KEY
            problem_storage isoformat urandom order_ids s)).
Proof.
  revert s. induction order_ids as [|order_id order_ids IH]; intros s.
  - apply at_most_once_refl.
  - cbn [AutoSolver.run_once_for]. unfold bind at 1. cbn beta iota.
    destruct (AutoSolver.running s); cbn [negb]; [| apply at_most_once_refl].
    unfold bind at 1.
    destruct (check_order_needs_solving_spec bot_address core_contract getOrderBot
                order_id s) as (r & s1 & -> & Hsilent & Hsome).
    destruct r as [[order assigned]|].
    + unfold bind at 1. cbn beta iota. unfold bind at 1.
      destruct (attempt_at_most_once o order_id order s1) as (r & s2 & -> & Hat).
      { destruct Hsilent as (-> & _). apply Hsome. eauto. }
      eapply at_most_once_trans; [apply silent_at_most_once; exact Hsilent |].
      destruct r as [[]|e]; cbn [snd].
      * eapply at_most_once_trans; [exact Hat | apply IH].
      * exact Hat.
    + eapply at_most_once_trans; [apply silent_at_most_once; exact Hsilent | apply IH].
Qed.

(** X23.  In a run of [AutoSolver.run_once], whatever the node
    answers: no order leaves [processed_orders]; at most one commit is
    sent for any order; nothing is sent for an order that was in
    [processed_orders] before the run; and an order for which a
    transaction was sent is in [processed_orders] after it, so that no
    later run sends anything for it, whether its solving succeeded or
    not. *)
Theorem run_once_commits_an_order_at_most_once (entries : result (list Z))
    (order_id : Z) (s : AutoSolver.State) :
  AutoSolver.at_most_once order_id s
    (snd (AutoSolver.run_once bot_address solidity_keccak core_contract getOrderBot
            get_openai_client parse_gpt_solution steps_hash_of OPENAI_API_KEY
            problem_storage isoformat urandom entries s)).
Proof.
  assert (Hlog : forall message level s0,
            AutoSolver.silent s0 (snd (AutoSolver.log message level s0))).
  { intros message level s0. unfold AutoSolver.log, AutoSolver.on_bot. run_bot.
    repeat split. exists []. split; [symmetry; apply app_nil_r | reflexivity]. }
  unfold AutoSolver.run_once.
  destruct core_contract eqn:Ecore; cbn [negb];
    [| apply silent_at_most_once, Hlog].
  unfold try_except, bind, AutoSolver.get_assigned_orders_from_events.
  cbn [negb].
  assert (Hfor := fun order_ids s0 => run_once_for_at_most_once order_id order_ids s0).
  rewrite Ecore in Hfor.
  destruct entries as [[|first order_ids]|e].
  - cbn. apply at_most_once_refl.
  - unfold bind, ret.
    pose proof (Hlog "Found assigned orders from events" "info" s) as Hfound.
    destruct (AutoSolver.log "Found assigned orders from events" "info" s)
      as [[[]|e] s1]; cbn [snd] in Hfound.
    + specialize (Hfor (first :: order_ids) s1).
      destruct (AutoSolver.run_once_for _ _ _ _ _ _ _ _ _ _ _ _ s1) as [[[]|e] s2];
        cbn [snd] in Hfor |- *.
      * eapply at_most_once_trans; [apply silent_at_most_once; exact Hfound | exact Hfor].
      * eapply at_most_once_trans; [apply silent_at_most_once; exact Hfound |].
        eapply at_most_once_trans; [exact Hfor | apply silent_at_most_once, Hlog].
    + eapply at_most_once_trans; [apply silent_at_most_once; exact Hfound |].
      apply silent_at_most_once, Hlog.
  - unfold bind, ret.
    pose proof (Hlog "Error getting assigned orders from events" "error" s) as Hfailed.
    destruct (AutoSolver.log "Error getting assigned orders from events" "error" s)
      as [[[]|e'] s1]; cbn [snd] in Hfailed.
    + cbn. apply silent_at_most_once; exact Hfailed.
    + eapply at_most_once_trans; [apply silent_at_most_once; exact Hfailed |].
      apply silent_at_most_once, Hlog.
Qed.

End WithSdk.

(** A run that does send: order 7, assigned to the bot and open, is
    committed and revealed, and is processed afterwards. *)
Example run_once_solves_an_assigned_order :
  let s :=
    AutoSolver.mkState ∅ true ∅ ∅
      (Scenarios.bot_state 100 [Ok (Scenarios.order_7 Bot.OPEN None)]
         [Bot.Receipt "0x01" 8 170000 1; Bot.Receipt "0x02" 9 300000 1]) in
  let s' :=
    snd (AutoSolver.run_once "0xB07" Scenarios.digest true (fun _ => Ok "0xb07") None
           (fun content => (content, [])) (fun _ => "0x00") false ∅
           (fun _ => "2025-01-01T00:00:00") (fun _ => "salt") (Ok [7; 7]) s) in
  transactions (trace (AutoSolver.bot s')) =
    [commitSolution 7 (Scenarios.digest "f'(x) = 2x + 3" "salt");
     revealSolution 7 "f'(x) = 2x + 3" "salt"] /\
  7 ∈ AutoSolver.processed_orders s' /\
  AutoSolver.active_orders s' = ∅.
Proof.
  cbv zeta. split; [vm_compute; reflexivity |].
  split; [vm_compute; reflexivity |]. vm_compute. reflexivity.
Qed.

End AutoSolverProps.

(** ** The oracle service *)

Module OracleProps.
Import Oracle.

Local Open Scope Z_scope.

Section WithNode.

Variable OPENAI_API_KEY : option string.
Variable verify_with_sympy : Z -> string -> string -> option bool * string.
Variable create : Z -> string -> string -> result string.
Variable verdict_match : string -> option bool.
Variable reason_match : string -> option string.
Variable get_verification_request : Z -> option Request.
Variable submit_verification : Z -> bool -> string -> bool.

(** Once SymPy has a verdict, it is the verdict of [verify_solution],
    whatever the model says. *)
Lemma sympy_verdict_stands (problem_type : Z) (problem_text solution : string)
    (verdict : bool) :
  fst (verify_with_sympy problem_type problem_text solution) = Some verdict ->
  fst (verify_solution OPENAI_API_KEY verify_with_sympy create verdict_match
         reason_match problem_type problem_text solution) = verdict.
Proof.
  intros Hs. unfold verify_solution.
  destruct (verify_with_sympy problem_type problem_text solution) as [sr reason].
  cbn in Hs. subst sr.
  destruct (verify_with_gpt _ _ _ _ _ _ _) as [[g|] gpt_reason]; [| reflexivity].
  destruct verdict, g; reflexivity.
Qed.

(** X24.  When no API key is set and SymPy is inconclusive,
    [process_order] hands [submit_verification] the verdict correct for
    a request that is not yet processed, whatever the solution is, and
    marks the order processed exactly if that submission went
    through. *)
Theorem inconclusive_is_submitted_as_correct (order_id : Z)
    (problem_text : option string) (request : Request) (s : State) :
  BotServer.truthy OPENAI_API_KEY = false ->
  order_id ∉ processed_orders s ->
  get_verification_request order_id = Some request ->
  is_processed request = false ->
  fst (verify_with_sympy (problem_type request) (default "" problem_text)
         (solution request)) = None ->
  let reason := "Verification inconclusive, defaulting to correct (optimistic)" in
  let s' :=
    process_order OPENAI_API_KEY verify_with_sympy create verdict_match reason_match
      get_verification_request submit_verification order_id problem_text s in
  submitted s' = (submitted s ++ [(order_id, true, reason)])%list /\
  (order_id ∈ processed_orders s' <-> submit_verification order_id true reason = true).
Proof.
  intros Hkey Hnot Hreq Hproc Hsympy reason s'.
  subst s'. unfold process_order.
  rewrite bool_decide_eq_false_2 by exact Hnot. rewrite Hreq, Hproc.
  unfold verify_solution, verify_with_gpt.
  destruct (verify_with_sympy _ _ _) as [sr sympy_reason]. cbn in Hsympy. subst sr.
  rewrite Hkey. cbn [negb]. fold reason.
  split; [reflexivity |].
  cbn [processed_orders].
  destruct (submit_verification order_id true reason).
  - split; [reflexivity |]. intros _. apply elem_of_union_l, elem_of_singleton.
    reflexivity.
  - split; [intros Hin; contradiction | discriminate].
Qed.

End WithNode.

Lemma inconclusive_is_submitted_as_correct_witness :
  let reason := "Verification inconclusive, defaulting to correct (optimistic)" in
  let s' :=
    process_order None (fun _ _ _ => (None, "SymPy could not verify this problem type"))
      (fun _ _ _ => Raise "no client") (fun _ => None) (fun _ => None)
      (fun _ => Some (mkRequest "lim = 42" 2 1700000000 false false ""))
      (fun _ _ _ => false) 7 None (mkState ∅ []) in
  submitted s' = [(7, true, reason)] /\
  (7 ∈ processed_orders s' <-> false = true).
Proof.
  apply (inconclusive_is_submitted_as_correct None
           (fun _ _ _ => (None, "SymPy could not verify this problem type"))
           (fun _ _ _ => Raise "no client") (fun _ => None) (fun _ => None)
           (fun _ => Some (mkRequest "lim = 42" 2 1700000000 false false ""))
           (fun _ _ _ => false) 7 None
           (mkRequest "lim = 42" 2 1700000000 false false "") (mkState ∅ []));
    try reflexivity.
  apply not_elem_of_empty.
Defined.

End OracleProps.

(** ** The webhook *)

Module WebhookProps.
Import Bot BotProps.

Local Open Scope Z_scope.

(** Runs the steps of the webhook on the state at hand. *)
Ltac run_webhook :=
  unfold Webhook.on_bot, Webhook.on_chain, Webhook.set_status,
    Webhook.set_chain_error, Webhook.logger in *;
  run_bot;
  cbn [Webhook.bot Webhook.chain fst snd time order_answers tx_outcomes trace stats
       logs console tl] in *.

Lemma poll_found (pending : list Order) :
  forall (n : nat) (committed : Order) (later : list (result Order))
         (order_id : Z) (s : Webhook.State),
    order_answers (Webhook.bot s) = (map Ok pending ++ Ok committed :: later)%list ->
    Forall not_committed pending ->
    is_COMMITTED (Bot.status committed) = true ->
    (length pending < n)%nat ->
    exists s',
      Webhook.poll n order_id s = (Ok true, s') /\
      trace (Webhook.bot s') =
        (trace (Webhook.bot s) ++ polls (S (length pending)) order_id)%list /\
      order_answers (Webhook.bot s') = later /\
      tx_outcomes (Webhook.bot s') = tx_outcomes (Webhook.bot s) /\
      stats (Webhook.bot s') = stats (Webhook.bot s) /\
      Webhook.chain s' = Webhook.chain s.
Proof.
  induction pending as [|o pending IH];
    intros n committed later order_id s Hans Hpend Hc Hn.
  - destruct n as [|n]; [cbn in Hn; lia |].
    cbn [Webhook.poll]. run_webhook. rewrite Hans. cbn [map app tl]. rewrite Hc.
    eexists. split; [reflexivity |].
    cbn [Webhook.bot Webhook.chain trace order_answers tx_outcomes stats].
    repeat split. unfold polls. cbn. rewrite <- app_assoc. reflexivity.
  - destruct n as [|n]; [cbn in Hn; lia |].
    inversion Hpend as [|? ? Ho Hpend']; subst. unfold not_committed in Ho.
    cbn [Webhook.poll]. run_webhook. rewrite Hans. cbn [map app tl]. rewrite Ho.
    edestruct (IH n committed later order_id)
      as (s' & Hrun & Htr & Hoa & Htx & Hst & Hch);
      [| exact Hpend' | exact Hc | cbn in Hn; lia | rewrite Hrun ].
    + cbn [Webhook.bot order_answers]. reflexivity.
    + exists s'. split; [reflexivity |].
      cbn [Webhook.bot Webhook.chain trace tx_outcomes stats] in *.
      repeat split; try assumption. rewrite Htr. unfold polls.
      cbn [length repeat concat]. rewrite <- !app_assoc. reflexivity.
Qed.

Lemma poll_exhausted (pending : list Order) :
  forall (later : list (result Order)) (order_id : Z) (s : Webhook.State),
    order_answers (Webhook.bot s) = (map Ok pending ++ later)%list ->
    Forall not_committed pending ->
    exists s',
      Webhook.poll (length pending) order_id s = (Ok false, s') /\
      trace (Webhook.bot s') =
        (trace (Webhook.bot s) ++ polls (length pending) order_id)%list /\
      order_answers (Webhook.bot s') = later /\
      tx_outcomes (Webhook.bot s') = tx_outcomes (Webhook.bot s) /\
      stats (Webhook.bot s') = stats (Webhook.bot s) /\
      Webhook.chain s' = Webhook.chain s.
Proof.
  induction pending as [|o pending IH]; intros later order_id s Hans Hpend.
  - cbn. exists s. unfold polls. cbn. rewrite app_nil_r. repeat split. exact Hans.
  - inversion Hpend as [|? ? Ho Hpend']; subst. unfold not_committed in Ho.
    cbn [length Webhook.poll]. run_webhook. rewrite Hans. cbn [map app tl].
    rewrite Ho.
    edestruct (IH later order_id) as (s' & Hrun & Htr & Hoa & Htx & Hst & Hch);
      [| exact Hpend' | rewrite Hrun ].
    + cbn [Webhook.bot order_answers]. reflexivity.
    + exists s'. split; [reflexivity |].
      cbn [Webhook.bot Webhook.chain trace tx_outcomes stats] in *.
      repeat split; try assumption. rewrite Htr. unfold polls.
      cbn [length repeat concat]. rewrite <- !app_assoc. reflexivity.
Qed.

(** X25.  [receive_problem_webhook] treats a commit receipt that
    reports failure as [bot_loop] and [AutoSolver.solve_and_submit] do:
    the order is read again after a wait of three seconds, at most three
    times.  If one of these readings shows the order COMMITTED, polling
    stops there and, after a wait of two seconds, the reveal is called.
    If all three readings show another status, the submission ends with
    the chain error "Commit may have failed" and the status
    [commit_failed], nothing follows the last reading and no reveal is
    called or sent. *)
Theorem webhook_repolls_a_failed_commit
    (solidity_keccak : string -> string -> string) (order_id : Z)
    (solution salt : string) (s : Webhook.State)
    (outcome : TxOutcome) (rest : list TxOutcome)
    (Htx : tx_outcomes (Webhook.bot s) = outcome :: rest)
    (Hfail : reports_failure outcome) :
  let commit := commitSolution order_id (solidity_keccak solution salt) in
  let reveal := revealSolution order_id solution salt in
  let s' := snd (Webhook.submit_to_chain solidity_keccak order_id solution salt s) in
  (forall pending committed later,
      order_answers (Webhook.bot s) = (map Ok pending ++ Ok committed :: later)%list ->
      Forall not_committed pending ->
      is_COMMITTED (Bot.status committed) = true ->
      (length pending < 3)%nat ->
      exists tail,
        trace (Webhook.bot s') =
        (trace (Webhook.bot s) ++ [Called commit; Sent commit] ++
         polls (S (length pending)) order_id ++
         Slept 2 :: Called reveal :: tail)%list) /\
  (forall pending later,
      order_answers (Webhook.bot s) = (map Ok pending ++ later)%list ->
      Forall not_committed pending ->
      length pending = 3%nat ->
      trace (Webhook.bot s') =
        (trace (Webhook.bot s) ++ [Called commit; Sent commit] ++
         polls 3 order_id)%list /\
      Webhook.chain_error (Webhook.chain s') = Some "Commit may have failed" /\
      Webhook.status (Webhook.chain s') = "commit_failed" /\
      Webhook.reveal_tx (Webhook.chain s') = Webhook.reveal_tx (Webhook.chain s)).
Proof.
  intros commit reveal s'.
  assert (Hrun : snd (Webhook.submit_to_chain solidity_keccak order_id solution salt s)
                 = s') by reflexivity.
  clearbody s'. revert Hrun.
  unfold Webhook.submit_to_chain, try_except.
  unfold bind at 1. unfold Webhook.set_status at 1, Webhook.on_chain at 1.
  cbn [fst snd].
  unfold bind at 1. unfold Webhook.logger at 1, Webhook.on_bot at 1.
  cbn [fst snd Webhook.bot Webhook.chain].
  unfold bind at 1. unfold Webhook.on_bot at 1. cbn [Webhook.bot Webhook.chain].
  match goal with
  | |- context [commit_solution ?k ?i ?a ?b ?st] =>
      destruct (commit_solution_failure k i a b st outcome rest)
        as (receipt & s1 & -> & Hsucc & Htr1 & Hoa1 & Htx1 & Hst1);
        [exact Htx | exact Hfail |]
  end.
  cbn [trace order_answers] in Htr1, Hoa1. cbn [fst snd].
  unfold bind at 1. unfold Webhook.on_chain at 1. cbn [fst snd Webhook.bot Webhook.chain].
  unfold bind at 1. unfold Webhook.logger at 1, Webhook.on_bot at 1.
  cbn [fst snd Webhook.bot Webhook.chain].
  unfold bind at 1. rewrite Hsucc. cbn [negb].
  intros Hrun. split.
  - intros pending committed later Hans Hpend Hc Hlen. revert Hrun.
    match goal with
    | |- context [Webhook.poll 3 order_id ?st] =>
        destruct (poll_found pending 3%nat committed later order_id st)
          as (s2 & Hpoll & Htr2 & _ & _ & _ & Hch2);
          [cbn [Webhook.bot order_answers]; rewrite Hoa1; exact Hans
          | exact Hpend | exact Hc | exact Hlen |]
    end.
    rewrite Hpoll. cbn [negb fst snd Webhook.bot trace] in *.
    unfold bind at 1. unfold Webhook.on_bot at 1, sleep at 1. cbn [fst snd].
    unfold bind at 1. unfold Webhook.set_status at 1, Webhook.on_chain at 1.
    cbn [fst snd Webhook.bot Webhook.chain].
    unfold bind at 1. unfold Webhook.logger at 1, Webhook.on_bot at 1.
    cbn [fst snd Webhook.bot Webhook.chain].
    unfold bind at 1. unfold Webhook.on_bot at 1. cbn [Webhook.bot Webhook.chain].
    match goal with
    | |- context [reveal_solution ?i ?a ?b ?st] =>
        destruct (reveal_solution_called i a b st) as [tail Hrev];
        destruct (reveal_solution i a b st) as [[r|e] s3]
    end; cbn [fst snd trace record] in *.
    + exists tail. revert Hrun.
      destruct (success r);
        unfold bind, Webhook.set_status, Webhook.set_chain_error, Webhook.on_chain,
          Webhook.logger, Webhook.on_bot, with_stats;
        cbn [fst snd Webhook.bot Webhook.chain trace];
        intros <-; cbn [Webhook.bot trace];
        rewrite Hrev, Htr2, Htr1; fold commit reveal;
        rewrite <- !app_assoc; reflexivity.
    + exists tail. revert Hrun.
      unfold bind, Webhook.set_status, Webhook.set_chain_error, Webhook.on_chain,
        Webhook.logger, Webhook.on_bot.
      cbn [fst snd Webhook.bot Webhook.chain trace].
      intros <-. cbn [Webhook.bot trace].
      rewrite Hrev, Htr2, Htr1. fold commit reveal.
      rewrite <- !app_assoc. reflexivity.
  - intros pending later Hans Hpend Hlen. revert Hrun.
    rewrite <- Hlen.
    match goal with
    | |- context [Webhook.poll (length pending) order_id ?st] =>
        destruct (poll_exhausted pending later order_id st)
          as (s2 & Hpoll & Htr2 & _ & _ & _ & Hch2);
          [cbn [Webhook.bot order_answers]; rewrite Hoa1; exact Hans
          | exact Hpend |]
    end.
    rewrite Hpoll.
    cbn [negb fst snd Webhook.bot Webhook.chain trace] in *.
    unfold bind, Webhook.set_status, Webhook.set_chain_error, Webhook.on_chain.
    cbn [fst snd Webhook.bot Webhook.chain].
    intros <-.
    cbn [Webhook.bot Webhook.chain Webhook.chain_error Webhook.status
         Webhook.reveal_tx].
    rewrite Hch2. cbn [Webhook.reveal_tx]. rewrite Htr2, Htr1. fold commit reveal.
    rewrite <- !app_assoc. repeat split.
Qed.

Lemma webhook_repolls_a_failed_commit_witness :
  exists tail,
    trace (Webhook.bot
             (snd (Webhook.submit_to_chain Scenarios.digest 7 "2x + 3" "salt"
                     Scenarios.webhook_ambiguous_commit))) =
    ([Called (commitSolution 7 "keccak(2x + 3,salt)");
      Sent (commitSolution 7 "keccak(2x + 3,salt)");
      Slept 3; GotOrder 7; Slept 3; GotOrder 7;
      Slept 2; Called (revealSolution 7 "2x + 3" "salt")] ++ tail)%list.
Proof.
  exact (proj1 (webhook_repolls_a_failed_commit Scenarios.digest 7 "2x + 3" "salt"
                  Scenarios.webhook_ambiguous_commit (WaitRaises "0x01")
                  [Receipt "0x02" 9 300000 1] eq_refl I)
           [Scenarios.order_7 ACCEPTED (Some "0xb07")]
           (Scenarios.order_7 COMMITTED (Some "0xb07")) []
           eq_refl
           (@List.Forall_cons _ not_committed
              (Scenarios.order_7 ACCEPTED (Some "0xb07")) []
              (eq_refl : not_committed (Scenarios.order_7 ACCEPTED (Some "0xb07")))
              (@List.Forall_nil _ _))
           eq_refl
           ltac:(cbn; lia)).
Defined.

(** With a ledger that never shows the order COMMITTED the webhook gives
    up after three readings: the commit is the only transaction. *)
Example webhook_gives_up_after_three_readings :
  let s := Webhook.mkState
             (Scenarios.bot_state 120
                [Ok (Scenarios.order_7 ACCEPTED (Some "0xb07"));
                 Ok (Scenarios.order_7 ACCEPTED (Some "0xb07"));
                 Ok (Scenarios.order_7 ACCEPTED (Some "0xb07"));
                 Ok (Scenarios.order_7 COMMITTED (Some "0xb07"))]
                [Receipt "0x01" 8 170000 0; Receipt "0x02" 9 300000 1])
             (Webhook.mkChain None None None "solved" None) in
  let s' := snd (Webhook.submit_to_chain Scenarios.digest 7 "2x + 3" "salt" s) in
  trace (Webhook.bot s') =
    [Called (commitSolution 7 "keccak(2x + 3,salt)");
     Sent (commitSolution 7 "keccak(2x + 3,salt)");
     Slept 3; GotOrder 7; Slept 3; GotOrder 7; Slept 3; GotOrder 7] /\
  Webhook.chain s' =
    Webhook.mkChain (Some "0x01") None (Some "Commit may have failed")
      "commit_failed" None.
Proof. vm_compute. split; reflexivity. Qed.

End WebhookProps.
